(** * cursed.py: geometry kernel, border junctions, tiling layout and popups

  A shallow embedding of [src/cursed.py] (the curses layer of todotui) and
  the properties its specification states about it.

  Conventions of the embedding.
  - Python integers are [Z]; list positions and object identities are [nat].
  - A Python exception is the [Raise] case of [result]; functions that can
    raise return a [result] and are sequenced with stdpp's monad notation.
  - Python objects compared with [is] carry an identity; objects compared
    with [==] are compared on their contents, as their [__eq__] does.
  - Dictionaries keyed by object identity and attribute dictionaries are
    [gmap]s; the dictionary returned by [Line.collisions], whose iteration
    order is used afterwards, is an insertion-ordered association list. *)

From Stdlib Require Import ZArith Lia.
From stdpp Require Import base option list gmap strings fin_maps pretty.

Local Open Scope Z_scope.

(** ** Exceptions and objects *)

Inductive exn : Type :=
| UnboundLocalError
| ZeroDivisionError
| IndexError
| TypeError
| AttributeError
| KeyError (key : string)
| CursesError
| Exception (msg : string).

Inductive result (A : Type) : Type :=
| Ok (a : A)
| Raise (e : exn).
Arguments Ok {A} a.
Arguments Raise {A} e.

Global Instance result_ret : MRet result := λ A a, Ok a.
Global Instance result_bind : MBind result := λ A B f m,
  match m with
  | Ok a => f a
  | Raise e => Raise e
  end.

(** [for x in l: body], threading the loop's variables [s]; an exception
    raised by the body leaves the loop. *)
Fixpoint for_each {A S : Type} (l : list A) (body : A → S → result S) (s : S)
    : result S :=
  match l with
  | [] => Ok s
  | x :: l' => s' ← body x s; for_each l' body s'
  end.

(** An object as [is] and [==] see it: [ident] is the identity that [is]
    compares, [contents] is what the class's [__eq__] compares. *)
Record obj (A : Type) : Type := Obj { ident : nat; contents : A }.
Arguments Obj {A} ident contents.
Arguments ident {A} o.
Arguments contents {A} o.

Definition is_ {A : Type} (s t : obj A) : bool :=
  bool_decide (ident s = ident t).

(** Two references into one heap: one identity, one object. *)
Definition coherent {A : Type} (a b : obj A) : Prop :=
  ident a = ident b → contents a = contents b.

(** [t[i]] on a two-item tuple, negative positions counting from the end. *)
Definition tuple_getitem (t : Z * Z) (i : Z) : result Z :=
  if (i =? 0) || (i =? -2) then Ok (fst t)
  else if (i =? 1) || (i =? -1) then Ok (snd t)
  else Raise IndexError.

(** ** Util *)

Module Util.

(** [Util.order] *)
Definition order (p : Z * Z) : Z * Z :=
  (Z.min (fst p) (snd p), Z.max (fst p) (snd p)).

(** [Util.overlap].  [minimum] and [maximum] are bound by an [if]/[elif]
    without [else]; reading a name that neither branch bound raises
    [UnboundLocalError].  [minimum is maximum] compares identities,
    [minimum == a] compares the tuples' items.  The result pairs the flag
    with the items of the returned tuple ([None] for Python's [None]). *)
Definition overlap (a b : obj (Z * Z)) : result (bool * option (Z * Z)) :=
  let '(a_min, a_max) := contents a in
  let '(b_min, b_max) := contents b in
  minimum ← (if a_min <=? b_min then Ok a
             else if b_min <=? a_min then Ok b
             else Raise UnboundLocalError);
  maximum ← (if a_max >=? b_max then Ok a
             else if b_max >=? a_max then Ok b
             else Raise UnboundLocalError);
  if is_ minimum maximum
  then Ok (true, Some (contents
             (if bool_decide (contents minimum = contents a) then b else a)))
  else
    let '(p_min, p_max) := contents minimum in
    let '(q_min, q_max) := contents maximum in
    if p_max <? q_min then Ok (false, None)
    else Ok (true, Some (q_min, p_max)).

(** A closed interval [lo, hi], [lo <= hi]. *)
Definition closed (t : Z * Z) : Prop := fst t <= snd t.

End Util.

(** ** Point *)

Module Point.

Record t : Type := mk { x : Z; y : Z }.

Global Instance eq_dec : EqDecision t.
Proof. solve_decision. Defined.

(** [Point.__eq__] *)
Definition eq (a b : t) : bool :=
  bool_decide (x a = x b) && bool_decide (y a = y b).

(** [Point.__getitem__]; its [raise] of a string is a [TypeError]. *)
Definition getitem (self : t) (index : Z) : result Z :=
  if index =? 0 then Ok (x self)
  else if index =? 1 then Ok (y self)
  else Raise TypeError.

(** [Point.__add__] *)
Definition add (a b : t) : t := mk (x a + x b) (y a + y b).

(** Component-wise order, the [<=] of the specification on points. *)
Definition le (a b : t) : Prop := x a <= x b ∧ y a <= y b.

End Point.

(** ** Line *)

Module Line.

Definition VERTICAL : Z := 1.
Definition HORIZONTAL : Z := 2.
Definition ANGLED : Z := 3.

(** The box-drawing glyphs: the straight runs, the cross [X], the four T
    junctions ([HU] pointing up, [HD] pointing down, [VR] pointing right,
    [VL] pointing left) and the four corners ([TL] top-left, [BR]
    bottom-right, [TR] top-right, [BL] bottom-left). *)
Definition UNICODE_H : string := "─".
Definition UNICODE_V : string := "│".
Definition UNICODE_X : string := "┼".
Definition UNICODE_HU : string := "┴".
Definition UNICODE_HD : string := "┬".
Definition UNICODE_VR : string := "├".
Definition UNICODE_VL : string := "┤".
Definition UNICODE_TL : string := "┌".
Definition UNICODE_BR : string := "┘".
Definition UNICODE_TR : string := "┐".
Definition UNICODE_BL : string := "└".

Record t : Type := mk { p : Point.t; q : Point.t }.

Global Instance eq_dec : EqDecision t.
Proof. solve_decision. Defined.

(** [Line.__eq__] *)
Definition eq (a b : t) : bool := Point.eq (p a) (p b) && Point.eq (q a) (q b).

Definition vertical (self : t) : bool :=
  bool_decide (Point.x (p self) = Point.x (q self)).

Definition horizontal (self : t) : bool :=
  bool_decide (Point.y (p self) = Point.y (q self)).

Definition orientation (self : t) : Z :=
  if vertical self then VERTICAL
  else if horizontal self then HORIZONTAL
  else ANGLED.

Definition parallel (self line : t) : bool :=
  bool_decide (orientation self = orientation line).

Definition project (self : t) (axis : Z) : result (Z * Z) :=
  u ← Point.getitem (p self) axis;
  v ← Point.getitem (q self) axis;
  Ok (Util.order (u, v)).

(** The overlap of one axis, [None] for Python's [None]. *)
Definition segment : Type := option (Z * Z).

(** [Line.collision].  Each [project] builds a new tuple, so the two
    arguments of [Util.overlap] are two distinct objects. *)
Definition collision (a b : t)
    : result (bool * option (segment * segment)) :=
  ax ← project a 0; bx ← project b 0;
  '(overlap_x, segment_x) ← Util.overlap (Obj 0 ax) (Obj 1 bx);
  ay ← project a 1; by_ ← project b 1;
  '(overlap_y, segment_y) ← Util.overlap (Obj 0 ay) (Obj 1 by_);
  if overlap_x && overlap_y then Ok (true, Some (segment_x, segment_y))
  else Ok (false, None).

(** A Python [dict] keyed by pairs of lines: keys are matched with
    [Line.__eq__] (and hashed accordingly), entries stay in insertion
    order, and assigning to a key that is present replaces its value where
    it stands. *)
Definition dict (V : Type) : Type := list ((t * t) * V).

Definition key_eq (k k' : t * t) : bool :=
  eq (fst k) (fst k') && eq (snd k) (snd k').

Fixpoint dict_get {V : Type} (k : t * t) (d : dict V) : option V :=
  match d with
  | [] => None
  | (k', v) :: d' => if key_eq k' k then Some v else dict_get k d'
  end.

Definition dict_mem {V : Type} (k : t * t) (d : dict V) : bool :=
  bool_decide (is_Some (dict_get k d)).

Fixpoint dict_set {V : Type} (k : t * t) (v : V) (d : dict V) : dict V :=
  match d with
  | [] => [(k, v)]
  | (k', v') :: d' =>
      if key_eq k' k then (k', v) :: d' else (k', v') :: dict_set k v d'
  end.

(** The body of the inner loop of [Line.collisions]. *)
Definition collisions_body (a b : obj t)
    (results : dict (option (segment * segment)))
    : result (dict (option (segment * segment))) :=
  if is_ a b || parallel (contents a) (contents b)
     || dict_mem (contents b, contents a) results
  then Ok results
  else
    '(collide, segments) ← collision (contents a) (contents b);
    if (collide : bool)
    then Ok (dict_set (contents a, contents b) segments results)
    else Ok results.

(** [Line.collisions] *)
Definition collisions (lines : list (obj t))
    : result (dict (option (segment * segment))) :=
  for_each lines
    (λ a results, for_each lines (λ b results, collisions_body a b results)
                    results)
    [].

(** [Line.resolve_collision], on an item of the dictionary.  Unpacking or
    indexing [None] is a [TypeError]. *)
Definition resolve_collision
    (collision : (t * t) * option (segment * segment))
    : result (Point.t * string) :=
  let '((a, b), segments) := collision in
  '(sx, sy) ← match segments with
              | Some (Some sx, Some sy) => Ok (sx, sy)
              | _ => Raise TypeError
              end;
  let p := Point.mk (fst sx) (fst sy) in
  let h := if horizontal a then a else b in
  let v := if vertical a then a else b in
  let r :=
    if Point.eq p (Line.p h) && Point.eq p (Line.p v) then UNICODE_TL
    else if Point.eq p (Line.p h) && Point.eq p (Line.q v) then UNICODE_BL
    else if Point.eq p (Line.q h) && Point.eq p (Line.p v) then UNICODE_TR
    else if Point.eq p (Line.q h) && Point.eq p (Line.q v) then UNICODE_BR
    else if Point.eq p (Line.p h) then UNICODE_VR
    else if Point.eq p (Line.q h) then UNICODE_VL
    else if Point.eq p (Line.p v) then UNICODE_HD
    else if Point.eq p (Line.q v) then UNICODE_HU
    else UNICODE_X in
  Ok (p, r).

(** [Line.resolve_collisions] *)
Definition resolve_collisions
    (collisions : dict (option (segment * segment)))
    : result (list (Point.t * string)) :=
  mapM (M := result) resolve_collision collisions.

(** Endpoints in order, [p <= q] component-wise. *)
Definition ordered (l : t) : Prop := Point.le (p l) (q l).

(** Horizontal or vertical, never angled. *)
Definition axis_aligned (l : t) : Prop := orientation l ≠ ANGLED.

End Line.

(** ** Rect *)

Module Rect.

Record t : Type := mk { p : Point.t; q : Point.t }.

(** [Rect.__init__] *)
Definition init (p q : Point.t) : t :=
  mk (Point.mk (Z.min (Point.x p) (Point.x q)) (Z.min (Point.y p) (Point.y q)))
     (Point.mk (Z.max (Point.x p) (Point.x q)) (Z.max (Point.y p) (Point.y q))).

(** [Rect.__iter__]: the generator yields exactly these four corners. *)
Definition iter (self : t) : Point.t * Point.t * Point.t * Point.t :=
  (Point.mk (Point.x (p self)) (Point.y (p self)),
   Point.mk (Point.x (q self)) (Point.y (p self)),
   Point.mk (Point.x (q self)) (Point.y (q self)),
   Point.mk (Point.x (p self)) (Point.y (q self))).

(** [Rect.__add__] *)
Definition add (a : t) (d : Point.t) : t :=
  init (Point.add (p a) d) (Point.add (q a) d).

Definition width (self : t) : Z := Point.x (q self) - Point.x (p self).
Definition height (self : t) : Z := Point.y (q self) - Point.y (p self).

(** [Rect.border] *)
Definition border (self : t) : list Line.t :=
  let '(a, b, c, d) := iter self in
  [Line.mk a b; Line.mk b c; Line.mk d c; Line.mk a d].

(** Invariant 2 of the data model: [p <= q] component-wise. *)
Definition normalized (r : t) : Prop := Point.le (p r) (q r).

End Rect.

(** ** Window *)

Module Window.

(** The curses window behind a [Window], as far as this file drives it:
    its origin and size, as the calls set them.  What the calls do when
    curses refuses them is with their callers: see [Curses] below. *)
Record curses_window : Type :=
  newwin { nlines : Z; ncols : Z; begin_y : Z; begin_x : Z }.

Definition mvwin (win : curses_window) (y x : Z) : curses_window :=
  newwin (nlines win) (ncols win) y x.

Definition curses_resize (win : curses_window) (h w : Z) : curses_window :=
  newwin h w (begin_y win) (begin_x win).

(** A [Window] is a [Rect] ([p], [q]) with a curses window. *)
Record t : Type := mk { p : Point.t; q : Point.t; window : curses_window }.

Definition rect (self : t) : Rect.t := Rect.mk (p self) (q self).

(** [Window.__init__] *)
Definition init (x y w h : Z) : t :=
  let r := Rect.init (Point.mk x y) (Point.mk (x + w) (y + h)) in
  mk (Rect.p r) (Rect.q r) (newwin h w y x).

(** [Window.move] *)
Definition move (self : t) (x y : Z) : t :=
  mk (Point.mk x y) (q self) (mvwin (window self) y x).

(** [Window.resize] *)
Definition resize (self : t) (w h : Z) : t :=
  mk (p self)
     (Point.mk (Point.x (p self) + w) (Point.y (p self) + h))
     (curses_resize (window self) h w).

End Window.

(** ** What curses refuses *)

Module Curses.

(** The size of a curses window is held in C shorts. *)
Definition DIMENSION_LIMIT : Z := 32767.

(** Whether [curses.newwin(nlines, ncols, begin_y, begin_x)] returns a
    window, on a screen of [screen] (columns, lines).  No argument may be
    negative; a zero [nlines] or [ncols] asks for the rest of the screen
    from the origin; and the window must end up with at least one line and
    one column, and no more than the limit.  A window may reach beyond the
    screen.  Where this is false the call raises [curses.error].  The
    arguments of these calls are C ints for curses; Python raises
    [OverflowError] on others before the call is made, which is outside
    this model, and the statements about windows are for screens within
    the limit, where no such argument arises. *)
Definition newwin_ok (screen : Z * Z) (nlines ncols begin_y begin_x : Z)
    : bool :=
  let '(cols, lines) := screen in
  let nlines' := if nlines =? 0 then lines - begin_y else nlines in
  let ncols' := if ncols =? 0 then cols - begin_x else ncols in
  (0 <=? begin_y) && (0 <=? begin_x) && (0 <=? nlines) && (0 <=? ncols)
  && (1 <=? nlines') && (nlines' <=? DIMENSION_LIMIT)
  && (1 <=? ncols') && (ncols' <=? DIMENSION_LIMIT).

(** Whether [window.resize(nlines, ncols)] is accepted: the window must
    keep at least one line and one column. *)
Definition resize_ok (nlines ncols : Z) : bool :=
  (1 <=? nlines) && (1 <=? ncols).

(** Whether [window.mvwin(y, x)] is accepted for a window of [nlines] by
    [ncols]: the whole window must lie on the screen. *)
Definition mvwin_ok (screen : Z * Z) (nlines ncols y x : Z) : bool :=
  let '(cols, lines) := screen in
  (0 <=? y) && (0 <=? x) && (y + nlines <=? lines) && (x + ncols <=? cols).

End Curses.

(** ** Values held in attributes and dictionaries *)

Inductive pyval : Type :=
| VNone
| VInt (z : Z)
| VRef (o : nat)
| VPoint (p : Point.t)
| VWindow (w : Window.t).

(** Truth value of [if v:].  [None] is false and [0] is false; no class of
    this program defines [__bool__] or [__len__], so its objects are true. *)
Definition truthy (v : pyval) : bool :=
  match v with
  | VNone => false
  | VInt z => negb (z =? 0)
  | _ => true
  end.

(** ** LayoutNode *)

Module LayoutNode.

(** [LayoutNode.tile], for the node at position [index] of a parent with
    [count] children and size [size].  [int(m / n)] is the correctly
    rounded binary64 quotient, truncated toward zero.  It is [Z.quot m n]
    when [0 <= m] and [m + n <= 2^53], which covers every terminal; beyond
    that the rounding of the quotient can show, and the statements about
    the sizes themselves carry that bound. *)
Definition tile (count : nat) (size : Z * Z) (index : nat) (axis : Z)
    : result Z :=
  let n := Z.of_nat count in
  m ← tuple_getitem size axis;
  if n =? 0 then Raise ZeroDivisionError
  else
    let x := Z.quot m n in
    let r := m - x * n in
    Ok (if bool_decide (index = 0%nat) then x + r else x).

(** [LayoutNode.offset]: [sizes k] is [node.size()] of the sibling at
    position [k]; the loop breaks at the node itself, position [index]. *)
Definition offset (sizes : nat → result (Z * Z)) (index : nat) (axis : Z)
    : result Z :=
  for_each (seq 0 index)
    (λ k offset, sz ← sizes k; d ← tuple_getitem sz axis; Ok (offset + d))
    0.

(** [LayoutNode.border_lines], from the node's [width()] and [height()]. *)
Definition border_lines (width height : Z) : list Line.t :=
  let '(w, h) := (width - 1, height - 1) in
  [ Line.mk (Point.mk 0 0) (Point.mk w 0);
    Line.mk (Point.mk 0 h) (Point.mk w h);
    Line.mk (Point.mk 0 0) (Point.mk 0 h);
    Line.mk (Point.mk w 0) (Point.mk w h) ].

End LayoutNode.

(** ** LayoutCell *)

Module LayoutCell.

(** [children] are the cell's views, by identity; [states] is the
    dictionary from view to state.  [View] defines neither [__eq__] nor
    [__hash__], so the dictionary is keyed by the view's identity. *)
Record t : Type := mk { children : list nat; states : gmap nat pyval }.

(** [LayoutCell.__init__] leaves [states] empty. *)
Definition init (views : list nat) : t := mk views ∅.

Section state.

(** [view.init_state()] belongs to the view: [init_state view k] is what
    the call returns when [k] calls were made before it. *)
Variable init_state : nat → nat → pyval.

(** A cell together with the calls of [init_state] it has made so far,
    oldest first. *)
Record world : Type := World { cell : t; calls : list nat }.

(** [LayoutCell.state] *)
Definition state (view : nat) (w : world) : pyval * world :=
  match states (cell w) !! view with
  | None =>
      let state := init_state view (length (calls w)) in
      (state,
       World (mk (children (cell w)) (<[view := state]> (states (cell w))))
             (calls w ++ [view]))
  | Some s => (s, w)
  end.

(** [View.state], as [draw] and [handle_input] obtain their state. *)
Definition View_state (view : nat) (w : world) : pyval * world :=
  state view w.

(** A run of state requests, one per element of [views]. *)
Fixpoint requests (views : list nat) (w : world) : list pyval * world :=
  match views with
  | [] => ([], w)
  | v :: views' =>
      let '(s, w') := View_state v w in
      let '(ss, w'') := requests views' w' in
      (s :: ss, w'')
  end.

End state.

End LayoutCell.

(** ** LayoutColumn and Layout *)

Module LayoutColumn.

Record t : Type := mk { children : list LayoutCell.t }.

End LayoutColumn.

Module Layout.

(** [size] is [tui().size()], the terminal's (columns, rows). *)
Record t : Type := mk { size : Z * Z; children : list LayoutColumn.t }.

Definition width (self : t) : Z := fst (size self).
Definition height (self : t) : Z := snd (size self).

(** Geometry of the column at position [i] of the layout:
    [LayoutColumn.width], [LayoutNode.height], [LayoutNode.size],
    [LayoutColumn.offset]. *)
Definition column_width (self : t) (i : nat) : result Z :=
  LayoutNode.tile (length (children self)) (size self) i 0.

Definition column_height (self : t) (i : nat) : result Z :=
  Ok (height self).

Definition column_size (self : t) (i : nat) : result (Z * Z) :=
  w ← column_width self i; h ← column_height self i; Ok (w, h).

Definition column_offset (self : t) (i : nat) : result Z :=
  LayoutNode.offset (column_size self) i 0.

(** Geometry of the cell at position [j] of the column at position [i]:
    [LayoutNode.width], [LayoutCell.height], [LayoutNode.size],
    [LayoutCell.offset], [LayoutCell.origin]. *)
Definition cell_width (self : t) (i j : nat) : result Z :=
  column_width self i.

Definition cell_height (self : t) (i j : nat) : result Z :=
  match children self !! i with
  | None => Raise IndexError
  | Some column =>
      sz ← column_size self i;
      LayoutNode.tile (length (LayoutColumn.children column)) sz j 1
  end.

Definition cell_size (self : t) (i j : nat) : result (Z * Z) :=
  w ← cell_width self i j; h ← cell_height self i j; Ok (w, h).

Definition cell_offset (self : t) (i j : nat) : result Z :=
  LayoutNode.offset (cell_size self i) j 1.

Definition cell_origin (self : t) (i j : nat) : result (Z * Z) :=
  x ← column_offset self i; y ← cell_offset self i j; Ok (x, y).

(** [LayoutNode.border_lines] on that cell, as [LayoutCell.draw] calls it. *)
Definition cell_border_lines (self : t) (i j : nat) : result (list Line.t) :=
  w ← cell_width self i j; h ← cell_height self i j;
  Ok (LayoutNode.border_lines w h).

(** [LayoutCell.create_window]: [Window(x, y, w, h)] raises when
    [curses.newwin] refuses the window; the screen is the terminal the
    layout takes its size from. *)
Definition cell_create_window (self : t) (i j : nat) : result Window.t :=
  '(x, y) ← cell_origin self i j;
  '(w, h) ← cell_size self i j;
  if Curses.newwin_ok (size self) h w y x then Ok (Window.init x y w h)
  else Raise CursesError.

(** [LayoutCell.resize], on the cell's window: [Window.resize], then
    [Window.move].  Each assigns its corner and then calls curses, which
    may refuse; the exception then ends the method with the corners
    assigned so far. *)
Definition cell_resize (self : t) (i j : nat) (window : Window.t)
    : result Window.t :=
  '(x, y) ← cell_origin self i j;
  '(w, h) ← cell_size self i j;
  if negb (Curses.resize_ok h w) then Raise CursesError
  else if negb (Curses.mvwin_ok (size self) h w y x) then Raise CursesError
  else Ok (Window.move (Window.resize window w h) x y).

End Layout.

(** ** Popup *)

Module Popup.

(** Calls made on the terminal, oldest first. *)
Inductive curses_call : Type :=
| Newwin (h w y x : Z)
| Keypad
| Refresh
| Border.

(** The heap holds the owners and the popups, each as its attribute
    dictionary: a [Layout] and a [Popup] both have a [popup] attribute,
    the slot of the one popup they may own. *)
Record state : Type :=
  State { heap : gmap nat (gmap string pyval); screen : list curses_call }.

(** A method: it may change the state and then return or raise; what it
    changed before raising stays changed. *)
Definition M (A : Type) : Type := state → result A * state.

Global Instance M_ret : MRet M := λ A a σ, (Ok a, σ).
Global Instance M_bind : MBind M := λ A B f m σ,
  match m σ with
  | (Ok a, σ') => f a σ'
  | (Raise e, σ') => (Raise e, σ')
  end.

Definition raise {A : Type} (e : exn) : M A := λ σ, (Raise e, σ).

Definition getattr (o : nat) (name : string) : M pyval := λ σ,
  match heap σ !! o ≫= (.!! name) with
  | Some v => (Ok v, σ)
  | None => (Raise AttributeError, σ)
  end.

Definition setattr (o : nat) (name : string) (v : pyval) : M unit := λ σ,
  (Ok tt, State (alter (<[name := v]>) o (heap σ)) (screen σ)).

(** [v.name] and [v.name = u] for a value [v]; only objects have these
    attributes. *)
Definition getattr_of (v : pyval) (name : string) : M pyval :=
  match v with
  | VRef o => getattr o name
  | _ => raise AttributeError
  end.

Definition setattr_of (v : pyval) (name : string) (u : pyval) : M unit :=
  match v with
  | VRef o => setattr o name u
  | _ => raise AttributeError
  end.

Definition curses (c : curses_call) : M unit := λ σ,
  (Ok tt, State (heap σ) (screen σ ++ [c])).

(** A new object, at an identity no object of the heap has. *)
Definition alloc : M nat := λ σ,
  let o := fresh (dom (heap σ)) in
  (Ok o, State (<[o := ∅]> (heap σ)) (screen σ)).

(** [Window(x, y, w, h)], with its calls on the terminal. *)
Definition Window_new (x y w h : Z) : M Window.t :=
  curses (Newwin h w y x);; curses Keypad;; mret (Window.init x y w h).

(** [Popup.__init__] *)
Definition init (self parent : nat) (x y width height : Z) : M unit :=
  setattr self "position" (VPoint (Point.mk x y));;
  setattr self "parent" (VRef parent);;
  setattr self "width" (VInt width);;
  setattr self "height" (VInt height);;
  window ← Window_new x y width height;
  setattr self "window" (VWindow window);;
  curses Refresh;;
  curses Border;;
  owner ← getattr self "parent";
  popup ← getattr_of owner "popup";
  if truthy popup
  then raise (Exception "Parent already has an active popup")
  else
    owner ← getattr self "parent";
    setattr_of owner "popup" (VRef self);;
    setattr self "popup" VNone.

(** [Popup(parent, x, y, width, height)] *)
Definition new (parent : nat) (x y width height : Z) : M nat :=
  self ← alloc;
  init self parent x y width height;;
  mret self.


(** The popup slot of [owner], if [owner] is an object that has one. *)
Definition slot (σ : state) (owner : nat) : option pyval :=
  heap σ !! owner ≫= (.!! "popup").

End Popup.

(** * Further parts of the program

    The functions below complete the embedding around the ones above.
    Where a function has one way to fail, it returns an [option] and its
    comment names the exception that [None] stands for. *)

(** ** Util.scroll *)

Module Scroll.

(** [Util.scroll]: the three [if]s in sequence, each reading the [scroll]
    the previous one left. *)
Definition scroll (scroll cursor offset limit items : Z) : Z :=
  let bounds := limit - offset in
  let scroll := if cursor - scroll >? bounds then cursor - bounds else scroll in
  let scroll := if cursor - scroll <? offset then cursor - offset else scroll in
  let scroll := if cursor + offset >=? items then items - limit else scroll in
  if scroll >=? 0 then scroll else 0.

End Scroll.

(** ** Rect.contains and Point.__setitem__ *)

Module Geometry.

(** [Rect.contains].  The last operand of the [and] chain reads [q.y], and
    no name [q] is bound in the method or in the module: when the first
    three comparisons hold, evaluating it raises [NameError], here [None].
    When one of them fails, [and] returns that [False]. *)
Definition contains (self : Rect.t) (p : Point.t) : option bool :=
  if negb (Point.x (Rect.p self) <=? Point.x p) then Some false
  else if negb (Point.y (Rect.p self) <=? Point.y p) then Some false
  else if negb (Point.x (Rect.q self) >=? Point.x p) then Some false
  else None.

(** [Point.__setitem__]; [None] is the [TypeError] of its [raise]. *)
Definition setitem (self : Point.t) (index value : Z) : option Point.t :=
  if index =? 0 then Some (Point.mk value (Point.y self))
  else if index =? 1 then Some (Point.mk (Point.x self) value)
  else None.

End Geometry.

(** ** Drawing on a Window *)

Module Draw.

(** A call of [addstr] on the window's curses window, with or without an
    attribute.  The surface is the list of these calls, oldest first,
    whether curses accepted them or not. *)
Inductive addstr_call : Type :=
| Addstr (y x : Z) (s : string) (attr : option Z).

(** A drawing method: it may make calls and then return or raise; the
    calls made before raising stay made. *)
Definition M (A : Type) : Type :=
  list addstr_call → result A * list addstr_call.

Global Instance M_ret : MRet M := λ A a surface, (Ok a, surface).
Global Instance M_bind : MBind M := λ A B f m surface,
  match m surface with
  | (Ok a, surface') => f a surface'
  | (Raise e, surface') => (Raise e, surface')
  end.

Definition raise {A : Type} (e : exn) : M A := λ surface, (Raise e, surface).

(** A computation that touches no window. *)
Definition lift {A : Type} (r : result A) : M A := λ surface, (r, surface).

(** [try: m except: pass] *)
Definition try_pass (m : M unit) : M unit := λ surface,
  (Ok tt, (m surface).2).

(** [for x in l: body(x)], and the [while] loops below, which run through
    a range: the loop ends at the first iteration that raises. *)
Fixpoint for_ {A : Type} (l : list A) (body : A → M unit) : M unit :=
  match l with
  | [] => mret tt
  | x :: l' => body x;; for_ l' body
  end.

(** Whether curses accepts the write of a string one cell wide at column
    [x] of row [y] of a window of [size] (columns, lines), the size
    [newwin] or [resize] gave it: the cell must lie inside the window, and
    must not be its lower-right cell, where curses makes the write and then
    reports an error because the cursor cannot advance. *)
Definition writable (size : Z * Z) (x y : Z) : bool :=
  let '(w, h) := size in
  (0 <=? x) && (x <? w) && (0 <=? y) && (y <? h)
  && negb ((x =? w - 1) && (y =? h - 1)).

(** [window.addstr(y, x, s)] and [window.addstr(y, x, s, attr)] for a
    string one cell wide, as every string written below is: the call is
    made, and raises [curses.error] when curses does not accept it.  The
    coordinates are C ints and the attribute a C long for curses; Python
    raises [OverflowError] on others before the call is made, which is
    outside this model, and the statements about the exceptions of the
    drawing methods are for lines and attributes in that range. *)
Definition addstr (size : Z * Z) (y x : Z) (s : string) (attr : option Z)
    : M unit := λ surface,
  (if writable size x y then Ok tt else Raise CursesError,
   surface ++ [Addstr y x s attr]).

(** [if color:] on a colour that is [None] or an integer. *)
Definition truthy_color (color : option Z) : bool :=
  match color with
  | Some c => negb (c =? 0)
  | None => false
  end.

(** [Window.put] *)
Definition put (size : Z * Z) (x y : Z) (s : string) (color : option Z)
    : M unit :=
  if truthy_color color then addstr size y x s color
  else addstr size y x s None.

(** [Window.draw_line_h]: the [while px < qx] loop with [px += 1] visits
    [px], [px + 1], ..., [qx - 1], which is [seqZ px (qx - px)], as long as
    [put] does not raise. *)
Definition draw_line_h (size : Z * Z) (line : Line.t) (color : option Z)
    : M unit :=
  let '(px, py) := (Point.x (Line.p line), Point.y (Line.p line)) in
  let '(qx, qy) := (Point.x (Line.q line), Point.y (Line.q line)) in
  for_ (seqZ px (qx - px)) (λ px, put size px py Line.UNICODE_H color).

(** [Window.draw_line_v] *)
Definition draw_line_v (size : Z * Z) (line : Line.t) (color : option Z)
    : M unit :=
  let '(px, py) := (Point.x (Line.p line), Point.y (Line.p line)) in
  let '(qx, qy) := (Point.x (Line.q line), Point.y (Line.q line)) in
  for_ (seqZ py (qy - py)) (λ py, put size px py Line.UNICODE_V color).

(** [Window.draw_line] *)
Definition draw_line (size : Z * Z) (line : Line.t) (color : option Z)
    : M unit :=
  let orientation := Line.orientation line in
  if orientation =? Line.HORIZONTAL then draw_line_h size line color
  else if orientation =? Line.VERTICAL then draw_line_v size line color
  else raise (Exception ("Invalid line orientation: " +:+ pretty orientation)).

(** [Window.draw_lines].  The straight runs are written unguarded; only
    the junction writes are inside [try]/[except]. *)
Definition draw_lines (size : Z * Z) (lines : list (obj Line.t))
    (color : option Z) : M unit :=
  for_ lines (λ line, draw_line size (contents line) color);;
  r ← lift (Line.collisions lines ≫= Line.resolve_collisions);
  for_ r (λ j : Point.t * string,
            let '(x, y) := (Point.x j.1, Point.y j.1) in
            try_pass (if truthy_color color then put size x y j.2 color
                      else put size x y j.2 None)).

(** What the calls put at column [x] of row [y]: the string of the last
    call there. *)
Definition shown (surface : list addstr_call) (x y : Z) : option string :=
  foldl (λ seen call,
           match call with
           | Addstr y' x' s _ =>
               if bool_decide (x' = x ∧ y' = y) then Some s else seen
           end)
        None surface.

(** The four lines of [LayoutNode.border_lines] as [LayoutCell.draw] hands
    them to [draw_lines]: four new objects. *)
Definition border_objects (width height : Z) : list (obj Line.t) :=
  imap (λ i line, Obj i line) (LayoutNode.border_lines width height).

End Draw.

(** ** Focus cursors *)

Module Focus.

(** [list.index] on a list of objects compared by identity: the first
    position of [x]; [None] is its [ValueError]. *)
Fixpoint index (children : list nat) (x : nat) : option nat :=
  match children with
  | [] => None
  | c :: children' =>
      if bool_decide (c = x) then Some 0%nat
      else S <$> index children' x
  end.

(** [LayoutNode.child]: [children[index]], negative positions counting
    from the end; [None] is its [IndexError]. *)
Definition child (children : list nat) (index : Z) : option nat :=
  let n := Z.of_nat (length children) in
  if (0 <=? index) && (index <? n) then children !! Z.to_nat index
  else if (- n <=? index) && (index <? 0) then children !! Z.to_nat (n + index)
  else None.

(** [LayoutNode.cursor_next] and [LayoutCell.cursor_next]: the cursor is a
    child, its position is looked up with [list.index]; [%] is the floored
    remainder.  [None] is the exception of [index], of [%] by zero or of
    [child]. *)
Definition cursor_next (children : list nat) (cursor : nat) : option nat :=
  i ← index children cursor;
  if bool_decide (length children = 0%nat) then None
  else child children ((Z.of_nat i + 1) `mod` Z.of_nat (length children)).

(** [LayoutNode.cursor_prev] and [LayoutCell.cursor_prev] *)
Definition cursor_prev (children : list nat) (cursor : nat) : option nat :=
  i ← index children cursor;
  if bool_decide (length children = 0%nat) then None
  else child children ((Z.of_nat i - 1) `mod` Z.of_nat (length children)).

End Focus.

(** ** Modal popups *)

Module Modal.

Definition WIDGET : Z := 0.
Definition ACCEPT : Z := 1.
Definition CANCEL : Z := 2.

(** [ModalPopup.mode_next], [ModalPopup.mode_prev], on the [mode]
    attribute. *)
Definition mode_next (mode : Z) : Z := (mode + 1) `mod` 3.
Definition mode_prev (mode : Z) : Z := (mode - 1) `mod` 3.

(** [CenteredPopup.centered], from [parent.size()].  [int(w/2)] is the
    binary64 half of [w], truncated toward zero: it is [Z.quot w 2] for
    [|w| <= 2^53], which covers every terminal and popup; beyond that the
    rounding of the half can show, and the statement about the position
    carries that bound. *)
Definition centered (size : Z * Z) (width height : Z) : Z * Z * Z * Z :=
  let '(w, h) := size in
  let '(cx, cy) := (Z.quot w 2, Z.quot h 2) in
  let '(x, y) := (cx - Z.quot width 2, cy - Z.quot height 2) in
  (x, y, width, height).

End Modal.

(** ** Closing popups *)

Module Teardown.

(** [del o.name]; a missing attribute is an [AttributeError]. *)
Definition delattr (o : nat) (name : string) : Popup.M unit := λ σ,
  match Popup.heap σ !! o ≫= (.!! name) with
  | Some _ =>
      (Ok tt,
       Popup.State (alter (delete name) o (Popup.heap σ)) (Popup.screen σ))
  | None => (Raise AttributeError, σ)
  end.


(** [Layout.popup_del] *)
Definition popup_del (self : nat) : Popup.M unit :=
  popup ← Popup.getattr self "popup";
  match popup with
  | VRef o => delattr o "window"
  | _ => Popup.raise AttributeError
  end;;
  delattr self "popup";;
  Popup.setattr self "popup" VNone.

End Teardown.

(** ** Building the layout tree *)

Module Build.

(** The configuration, as the constructors read it: the values of
    [config["columns"]] in order, each with the values of its ["cells"] in
    order, each with the names of its ["views"] in order.  [views] is
    [tui.views], from name to view. *)
Definition cell_config : Type := list string.
Definition column_config : Type := list cell_config.
Definition layout_config : Type := list column_config.

(** The loop of [LayoutCell.__init__] that appends [tui().views[name]]. *)
Fixpoint lookup_views (views : gmap string nat) (names : list string)
    : result (list nat) :=
  match names with
  | [] => Ok []
  | name :: names' =>
      match views !! name with
      | None => Raise (KeyError name)
      | Some view => children ← lookup_views views names'; Ok (view :: children)
      end
  end.

(** [LayoutCell.__init__] *)
Definition cell (views : gmap string nat) (config : cell_config)
    : result LayoutCell.t :=
  match config with
  | [] => Raise (Exception "Cell must have at least one view")
  | _ => children ← lookup_views views config; Ok (LayoutCell.init children)
  end.

(** The loop of [LayoutColumn.__init__] that appends the cells. *)
Fixpoint cells (views : gmap string nat) (configs : list cell_config)
    : result (list LayoutCell.t) :=
  match configs with
  | [] => Ok []
  | config :: configs' =>
      c ← cell views config; children ← cells views configs';
      Ok (c :: children)
  end.

(** [LayoutColumn.__init__] *)
Definition column (views : gmap string nat) (config : column_config)
    : result LayoutColumn.t :=
  match config with
  | [] => Raise (Exception "Column must have at least one cell")
  | _ => children ← cells views config; Ok (LayoutColumn.mk children)
  end.

(** The loop of [Layout.__init__] that appends the columns. *)
Fixpoint columns (views : gmap string nat) (configs : list column_config)
    : result (list LayoutColumn.t) :=
  match configs with
  | [] => Ok []
  | config :: configs' =>
      c ← column views config; children ← columns views configs';
      Ok (c :: children)
  end.

(** [LayoutCell.initialize], for the cell at position [j] of the column at
    position [i]: [self.child(0)] needs a view, then [create_window]. *)
Definition initialize_cell (layout : Layout.t) (i j : nat)
    (cell : LayoutCell.t) : result Window.t :=
  if bool_decide (LayoutCell.children cell = []) then Raise IndexError
  else Layout.cell_create_window layout i j.

(** [LayoutNode.initialize] on the column at position [i]: its cells in
    order. *)
Definition initialize_column (layout : Layout.t) (i : nat)
    (column : LayoutColumn.t) : result (list Window.t) :=
  if bool_decide (LayoutColumn.children column = []) then Raise IndexError
  else mapM (M := result)
            (λ jc : nat * LayoutCell.t, initialize_cell layout i jc.1 jc.2)
            (imap pair (LayoutColumn.children column)).

(** [LayoutNode.initialize] on the layout: its columns in order.  The
    result is the windows of the cells, column by column. *)
Definition initialize (layout : Layout.t) : result (list (list Window.t)) :=
  if bool_decide (Layout.children layout = []) then Raise IndexError
  else mapM (M := result)
            (λ ic : nat * LayoutColumn.t,
               initialize_column layout ic.1 ic.2)
            (imap pair (Layout.children layout)).

(** [Layout.__init__]: the tree, then [initialize], which creates the
    window of every cell. *)
Definition layout (size : Z * Z) (views : gmap string nat)
    (config : layout_config)
    : result (Layout.t * list (list Window.t)) :=
  match config with
  | [] => Raise (Exception "Layout must have at least one column")
  | _ =>
      children ← columns views config;
      let self := Layout.mk size children in
      windows ← initialize self;
      Ok (self, windows)
  end.

End Build.

(** ** Notions of the specification *)

Module Spec.

(** The junction table of the specification, section 4.1: [point] is
    classified against the two ends of the horizontal line [h] and of the
    vertical line [v] of the pair, [p] being a line's start and [q] its end,
    by these rules in this order: both starts, the top-left corner; [h]'s
    start and [v]'s end, the bottom-left corner; [h]'s end and [v]'s start,
    the top-right corner; both ends, the bottom-right corner; [h]'s start
    only, the T pointing right; [h]'s end only, the T pointing left; [v]'s
    start only, the T pointing down; [v]'s end only, the T pointing up;
    otherwise the cross. *)
Definition junction_glyph (point : Point.t) (h v : Line.t) : string :=
  if bool_decide (point = Line.p h ∧ point = Line.p v) then Line.UNICODE_TL
  else if bool_decide (point = Line.p h ∧ point = Line.q v) then Line.UNICODE_BL
  else if bool_decide (point = Line.q h ∧ point = Line.p v) then Line.UNICODE_TR
  else if bool_decide (point = Line.q h ∧ point = Line.q v) then Line.UNICODE_BR
  else if bool_decide (point = Line.p h) then Line.UNICODE_VR
  else if bool_decide (point = Line.q h) then Line.UNICODE_VL
  else if bool_decide (point = Line.p v) then Line.UNICODE_HD
  else if bool_decide (point = Line.q v) then Line.UNICODE_HU
  else Line.UNICODE_X.

End Spec.

(** The sum of a list of sizes. *)
Definition total (sizes : list Z) : Z := foldr Z.add 0 sizes.

(** The sizes [LayoutNode.tile] gives the [count] children of one parent,
    in sibling order. *)
Definition tiles (count : nat) (size : Z * Z) (axis : Z) : result (list Z) :=
  mapM (M := result) (λ index, LayoutNode.tile count size index axis)
       (seq 0 count).

(** A layout of [columns] columns of one cell each, on a terminal of the
    given size. *)
Definition single_cells (size : Z * Z) (columns : nat) : Layout.t :=
  Layout.mk size
    (replicate columns (LayoutColumn.mk [LayoutCell.init [0%nat]])).

(** What holds of a cell and its calls of [init_state] at any time: no view
    was asked twice, and the dictionary holds, for exactly the views that
    were asked, the object their call returned. *)
Definition states_from_calls (init_state : nat → nat → pyval)
    (w : LayoutCell.world) : Prop :=
  NoDup (LayoutCell.calls w) ∧
  ∀ (view : nat) (s : pyval),
    LayoutCell.states (LayoutCell.cell w) !! view = Some s
    ↔ ∃ k : nat, LayoutCell.calls w !! k = Some view ∧ s = init_state view k.

(** The views of [reqs] that are not in [seen], each once, in the order of
    their first request. *)
Fixpoint first_requests (seen reqs : list nat) : list nat :=
  match reqs with
  | [] => []
  | view :: reqs' =>
      if decide (view ∈ seen) then first_requests seen reqs'
      else view :: first_requests (seen ++ [view]) reqs'
  end.

(** Every key of the dictionary is a pair of lines that are not parallel. *)
Definition perpendicular_keys {V : Type} (d : Line.dict V) : Prop :=
  Forall (λ kv, Line.parallel (fst (fst kv)) (snd (fst kv)) = false) d.

(** The intersection of two intervals, inhabited or not. *)
Definition meet (s t : Z * Z) : Z * Z :=
  (Z.max (fst s) (fst t), Z.min (snd s) (snd t)).

(** The interval a line covers along each axis. *)
Definition extent_x (l : Line.t) : Z * Z :=
  Util.order (Point.x (Line.p l), Point.x (Line.q l)).
Definition extent_y (l : Line.t) : Z * Z :=
  Util.order (Point.y (Line.p l), Point.y (Line.q l)).

(** A list of line objects in one heap: one identity, one line. *)
Definition coherent_lines (lines : list (obj Line.t)) : Prop :=
  ∀ a b, a ∈ lines → b ∈ lines → coherent a b.

(** What every entry of the dictionary of [Line.collisions lines] is: a
    pair of lines of the list that are not parallel, with the segments
    [Line.collision] returns for them. *)
Definition collision_entry (lines : list (obj Line.t))
    (kv : (Line.t * Line.t) * option (Line.segment * Line.segment)) : Prop :=
  kv.1.1 ∈ contents <$> lines ∧ kv.1.2 ∈ contents <$> lines ∧
  Line.parallel kv.1.1 kv.1.2 = false ∧
  Line.collision kv.1.1 kv.1.2 = Ok (true, kv.2).

(** The cells [Window.draw_line] writes for a line: for a vertical line
    (a single point included) the rows from [p.y] up to, not including,
    [q.y] of column [p.x]; for a horizontal line the columns from [p.x] up
    to, not including, [q.x] of row [p.y]. *)
Definition stroke (line : Line.t) (x y : Z) : bool :=
  if Line.vertical line
  then bool_decide (x = Point.x (Line.p line) ∧
                    Point.y (Line.p line) <= y < Point.y (Line.q line))
  else bool_decide (y = Point.y (Line.p line) ∧
                    Point.x (Line.p line) <= x < Point.x (Line.q line)).

(** The glyph of a straight run. *)
Definition stroke_glyph (line : Line.t) : string :=
  if Line.vertical line then Line.UNICODE_V else Line.UNICODE_H.

(** The cells [Window.draw_line] writes for a line, in the order it writes
    them: for a vertical line (a single point included) the rows from
    [p.y] up to, not including, [q.y] of column [p.x]; for a horizontal
    line the columns from [p.x] up to, not including, [q.x] of row
    [p.y]. *)
Definition stroke_cells (line : Line.t) : list (Z * Z) :=
  let '(px, py) := (Point.x (Line.p line), Point.y (Line.p line)) in
  let '(qx, qy) := (Point.x (Line.q line), Point.y (Line.q line)) in
  if Line.vertical line then (λ y, (px, y)) <$> seqZ py (qy - py)
  else (λ x, (x, py)) <$> seqZ px (qx - px).

(** A line a window of [size] takes whole: horizontal or vertical, and
    curses accepts the write at every cell of its stroke. *)
Definition drawable (size : Z * Z) (line : Line.t) : Prop :=
  Line.axis_aligned line ∧
  Forall (λ c : Z * Z, Draw.writable size c.1 c.2 = true) (stroke_cells line).

(** The arguments curses takes: coordinates that are C ints, an attribute
    that is a C long. *)
Definition c_int (z : Z) : Prop := - 2 ^ 31 <= z < 2 ^ 31.
Definition c_long (z : Z) : Prop := - 2 ^ 63 <= z < 2 ^ 63.

Definition curses_line (line : Line.t) : Prop :=
  c_int (Point.x (Line.p line)) ∧ c_int (Point.y (Line.p line)) ∧
  c_int (Point.x (Line.q line)) ∧ c_int (Point.y (Line.q line)).

Definition curses_attr (color : option Z) : Prop :=
  match color with
  | Some c => c_long c
  | None => True
  end.

(** The calls that write [s] at the cells, in order. *)
Definition run_calls (cells : list (Z * Z)) (s : string) (color : option Z)
    : list Draw.addstr_call :=
  (λ c : Z * Z,
     Draw.Addstr c.2 c.1 s (if Draw.truthy_color color then color else None))
    <$> cells.

(** The frame of a pane [width] wide and [height] high: corners at the four
    corner cells, runs between them, nothing inside or outside. *)
Definition frame (width height x y : Z) : option string :=
  let '(w, h) := (width - 1, height - 1) in
  if bool_decide (x = 0 ∧ y = 0) then Some Line.UNICODE_TL
  else if bool_decide (x = w ∧ y = 0) then Some Line.UNICODE_TR
  else if bool_decide (x = 0 ∧ y = h) then Some Line.UNICODE_BL
  else if bool_decide (x = w ∧ y = h) then Some Line.UNICODE_BR
  else if bool_decide ((y = 0 ∨ y = h) ∧ 0 < x < w) then Some Line.UNICODE_H
  else if bool_decide ((x = 0 ∨ x = w) ∧ 0 < y < h) then Some Line.UNICODE_V
  else None.

(** [k] calls of [cursor_next] in a row, starting from the cursor [c]. *)
Definition cursor_next_times (k : nat) (children : list nat) (c : nat)
    : option nat :=
  Nat.iter k (λ cursor, cursor ≫= Focus.cursor_next children) (Some c).

(** The size and the offset [LayoutNode.tile] and [LayoutNode.offset] give
    the sibling at [index] among [count] siblings on an extent [M]. *)
Definition tile_size (count : nat) (M : Z) (index : nat) : Z :=
  if bool_decide (index = 0%nat)
  then M / Z.of_nat count + (M - M / Z.of_nat count * Z.of_nat count)
  else M / Z.of_nat count.

Definition tile_offset (count : nat) (M : Z) (index : nat) : Z :=
  if bool_decide (index = 0%nat) then 0
  else M - M / Z.of_nat count * Z.of_nat count
       + Z.of_nat index * (M / Z.of_nat count).

(** A screen of [size] has a column for every column of the layout and a
    line for every cell of each column; [shape] lists the number of cells
    of each column. *)
Definition fits (size : Z * Z) (shape : list nat) : Prop :=
  Z.of_nat (length shape) <= size.1 ∧
  Forall (λ cells : nat, Z.of_nat cells <= size.2) shape.

(** A window of at least one line and one column that lies on the
    screen. *)
Definition on_screen (size : Z * Z) (window : Window.t) : Prop :=
  0 <= Point.x (Window.p window) < Point.x (Window.q window) ∧
  Point.x (Window.q window) <= size.1 ∧
  0 <= Point.y (Window.p window) < Point.y (Window.q window) ∧
  Point.y (Window.q window) <= size.2.

(** The exceptions of a faulty configuration. *)
Definition structural (e : exn) : Prop :=
  (∃ msg, e = Exception msg) ∨ (∃ name, e = KeyError name).

(** The number of cells of each column of a layout. *)
Definition layout_shape (layout : Layout.t) : list nat :=
  (λ column, length (LayoutColumn.children column)) <$> Layout.children layout.

(** A tree as the constructors build it: every node has a child. *)
Definition populated (layout : Layout.t) : Prop :=
  Layout.children layout ≠ [] ∧
  Forall (λ column,
            LayoutColumn.children column ≠ [] ∧
            Forall (λ cell, LayoutCell.children cell ≠ [])
                   (LayoutColumn.children column))
         (Layout.children layout).

(** A configuration the constructors accept: at least one column, at least
    one cell in every column, at least one view in every cell, and every
    view name known. *)
Definition well_formed_config (views : gmap string nat)
    (config : Build.layout_config) : Prop :=
  config ≠ [] ∧
  Forall (λ column : Build.column_config,
            column ≠ [] ∧
            Forall (λ cell : Build.cell_config,
                      cell ≠ [] ∧
                      Forall (λ name, is_Some (views !! name)) cell)
                   column)
         config.

(** The views of every cell of every column of a layout. *)
Definition layout_views (layout : Layout.t) : list (list (list nat)) :=
  (λ column, LayoutCell.children <$> LayoutColumn.children column)
    <$> Layout.children layout.

(** What the loops of [collisions] keep: every entry is a collision of two
    lines of the list that are not parallel, and no pair is entered in both
    orders. *)
Definition collisions_invariant (lines : list (obj Line.t))
    (results : Line.dict (option (Line.segment * Line.segment))) : Prop :=
  Forall (collision_entry lines) results ∧
  ∀ k, is_Some (Line.dict_get k results) →
       Line.dict_get (k.2, k.1) results = None.

(** The keys of [d] are keys of [d']. *)
Definition keys_kept {V : Type} (d d' : Line.dict V) : Prop :=
  ∀ k, is_Some (Line.dict_get k d) → is_Some (Line.dict_get k d').

(** The pair of [a] and [b] needs no entry, or has one in one order. *)
Definition pair_covered (a b : obj Line.t)
    (results : Line.dict (option (Line.segment * Line.segment))) : Prop :=
  Line.parallel (contents a) (contents b) = false →
  (∃ segs, Line.collision (contents a) (contents b) = Ok (true, segs)) →
  is_Some (Line.dict_get (contents a, contents b) results) ∨
  is_Some (Line.dict_get (contents b, contents a) results).

(** Two lines that cross, as objects, and the dictionary of their
    collisions. *)
Definition crossing_h : obj Line.t :=
  Obj 0 (Line.mk (Point.mk 0 2) (Point.mk 9 2)).
Definition crossing_v : obj Line.t :=
  Obj 1 (Line.mk (Point.mk 4 0) (Point.mk 4 5)).
Definition crossing_results
    : Line.dict (option (Line.segment * Line.segment)) :=
  [((contents crossing_h, contents crossing_v),
    Some (Some (4, 4), Some (2, 2)))].

(** A terminal of 80 by 24 with three columns of two cells each. *)
Definition two_cells : LayoutColumn.t :=
  LayoutColumn.mk [LayoutCell.init [0%nat]; LayoutCell.init [1%nat]].
Definition three_columns : Layout.t :=
  Layout.mk (80, 24) [two_cells; two_cells; two_cells].

(** A layout, object 0, whose slot holds a popup, object 1, with its
    window. *)
Definition popup_open : Popup.state :=
  Popup.State
    (<[0%nat := <["popup" := VRef 1]> ∅]>
     (<[1%nat := <["parent" := VRef 0]>
                 (<["window" := VWindow (Window.init 40 20 60 10)]>
                  (<["popup" := VNone]> ∅))]> ∅))
    [].

(** * Properties *)

(** ** Interval overlap *)

Ltac z_compare :=
  repeat match goal with
  | H : (_ <=? _) = true |- _ => apply Z.leb_le in H
  | H : (_ <=? _) = false |- _ => apply Z.leb_gt in H
  | H : (_ <? _) = true |- _ => apply Z.ltb_lt in H
  | H : (_ <? _) = false |- _ => apply Z.ltb_ge in H
  | H : (_ =? _) = true |- _ => apply Z.eqb_eq in H
  | H : (_ =? _) = false |- _ => apply Z.eqb_neq in H
  end.

(** On integers the [elif] tests of [overlap] hold whenever they are
    reached, so [minimum] and [maximum] are always bound. *)
Lemma overlap_never_raises (a b : obj (Z * Z)) :
  ∃ r, Util.overlap a b = Ok r.
Proof.
  destruct a as [ia [a0 a1]], b as [ib [b0 b1]].
  unfold Util.overlap; simpl. rewrite !Z.geb_leb.
  repeat (case_match; simpl; z_compare; try lia); eauto.
Qed.

(** What [overlap] returns on two closed intervals: the flag is whether the
    intersection is inhabited, the segment is the intersection. *)
Lemma overlap_value (a b : obj (Z * Z)) :
  coherent a b → Util.closed (contents a) → Util.closed (contents b) →
  Util.overlap a b =
    Ok (if Z.max (fst (contents a)) (fst (contents b))
           <=? Z.min (snd (contents a)) (snd (contents b))
        then (true, Some (Z.max (fst (contents a)) (fst (contents b)),
                          Z.min (snd (contents a)) (snd (contents b))))
        else (false, None)).
Proof.
  destruct a as [ia [a0 a1]], b as [ib [b0 b1]].
  unfold coherent, Util.closed, Util.overlap, is_; simpl.
  intros Hc Ha Hb.
  rewrite !Z.geb_leb.
  repeat (first [case_bool_decide | case_match]; simpl in *; simplify_eq);
    z_compare;
    repeat match goal with
    | H : ?i = ?i → _ |- _ => specialize (H eq_refl); simplify_eq
    end;
    try lia; repeat f_equal; lia.
Qed.

(** The identities of the two tuples do not show in the result, as long as
    one identity is one tuple. *)
Lemma overlap_identity_irrelevant (a b a' b' : obj (Z * Z)) :
  coherent a b → coherent a' b' →
  Util.closed (contents a) → Util.closed (contents b) →
  contents a' = contents a → contents b' = contents b →
  Util.overlap a' b' = Util.overlap a b.
Proof.
  intros Hc Hc' Ha Hb Ea Eb.
  rewrite (overlap_value a b), (overlap_value a' b') by (rewrite ?Ea, ?Eb; done).
  by rewrite Ea, Eb.
Qed.

(** C2.  On two closed integer intervals [overlap] returns; its flag is true
    exactly when the later start is at most the earlier end; when one
    interval contains the other strictly, the bounds returned are those of
    the contained one; on equal starts the first argument is selected as the
    outer interval, so the second argument's bounds are returned whenever it
    ends no later; every hit returns the intersection
    [max(starts), min(ends)]; and a miss returns [(False, None)]. *)
Theorem overlap_spec (ia ib : nat) (a_min a_max b_min b_max : Z) :
  let a := Obj ia (a_min, a_max) in
  let b := Obj ib (b_min, b_max) in
  coherent a b → a_min <= a_max → b_min <= b_max →
  ∃ (hit : bool) (seg : option (Z * Z)),
    Util.overlap a b = Ok (hit, seg) ∧
    (hit = true ↔ Z.max a_min b_min <= Z.min a_max b_max) ∧
    (a_min < b_min ∧ b_max < a_max → seg = Some (b_min, b_max)) ∧
    (b_min < a_min ∧ a_max < b_max → seg = Some (a_min, a_max)) ∧
    (a_min = b_min ∧ b_max <= a_max → seg = Some (b_min, b_max)) ∧
    (hit = true → seg = Some (Z.max a_min b_min, Z.min a_max b_max)) ∧
    (hit = false → seg = None ∧ Z.min a_max b_max < Z.max a_min b_min).
Proof.
  intros a b Hc Ha Hb.
  rewrite (overlap_value a b Hc Ha Hb); simpl.
  destruct (Z.leb_spec (Z.max a_min b_min) (Z.min a_max b_max)) as [Hle|Hgt].
  - exists true, (Some (Z.max a_min b_min, Z.min a_max b_max)).
    repeat split; try done; intros; repeat f_equal; lia.
  - exists false, None.
    repeat split; try done; intros; try lia.
Qed.

Lemma overlap_spec_witness :
  coherent (Obj 0 (0, 5)) (Obj 1 (3, 10)) ∧ 0 <= 5 ∧ 3 <= 10 ∧
  ∃ (hit : bool) (seg : option (Z * Z)),
    Util.overlap (Obj 0 (0, 5)) (Obj 1 (3, 10)) = Ok (hit, seg) ∧
    (hit = true ↔ Z.max 0 3 <= Z.min 5 10) ∧
    (0 < 3 ∧ 10 < 5 → seg = Some (3, 10)) ∧
    (3 < 0 ∧ 5 < 10 → seg = Some (0, 5)) ∧
    (0 = 3 ∧ 10 <= 5 → seg = Some (3, 10)) ∧
    (hit = true → seg = Some (Z.max 0 3, Z.min 5 10)) ∧
    (hit = false → seg = None ∧ Z.min 5 10 < Z.max 0 3).
Proof.
  split; [intros H; discriminate H|].
  split; [lia|]. split; [lia|].
  apply (overlap_spec 0 1 0 5 3 10); [intros H; discriminate H|lia|lia].
Defined.

(** ** Collisions *)

Lemma Point_eq_spec (a b : Point.t) : Point.eq a b = true ↔ a = b.
Proof.
  destruct a, b; unfold Point.eq; simpl.
  rewrite andb_true_iff, !bool_decide_eq_true.
  split; [intros [-> ->]; done | intros [= -> ->]; done].
Qed.

Lemma Line_eq_spec (a b : Line.t) : Line.eq a b = true ↔ a = b.
Proof.
  destruct a, b; unfold Line.eq; simpl.
  rewrite andb_true_iff, !Point_eq_spec.
  split; [intros [-> ->]; done | intros [= -> ->]; done].
Qed.

Lemma key_eq_spec (k k' : Line.t * Line.t) : Line.key_eq k k' = true ↔ k = k'.
Proof.
  destruct k, k'; unfold Line.key_eq; simpl.
  rewrite andb_true_iff, !Line_eq_spec.
  split; [intros [-> ->]; done | intros [= -> ->]; done].
Qed.

Lemma parallel_sym (a b : Line.t) : Line.parallel a b = Line.parallel b a.
Proof. unfold Line.parallel. apply bool_decide_ext. split; congruence. Qed.

(** A loop whose body keeps an invariant and never raises returns, with
    the invariant. *)
Lemma for_each_invariant {A S : Type} (P : S → Prop)
    (l : list A) (body : A → S → result S) (s : S) :
  P s →
  (∀ x s, x ∈ l → P s → ∃ s', body x s = Ok s' ∧ P s') →
  ∃ s', for_each l body s = Ok s' ∧ P s'.
Proof.
  revert s. induction l as [|x l IH]; intros s Hs Hbody; simpl.
  - eauto.
  - destruct (Hbody x s) as (s1 & -> & Hs1); [left|done|]. simpl.
    apply IH; [done|]. intros y s2 Hy. apply Hbody. by right.
Qed.

Lemma project_x (a : Line.t) :
  Line.project a 0 =
    Ok (Util.order (Point.x (Line.p a), Point.x (Line.q a))).
Proof. done. Qed.

Lemma project_y (a : Line.t) :
  Line.project a 1 =
    Ok (Util.order (Point.y (Line.p a), Point.y (Line.q a))).
Proof. done. Qed.

Lemma order_closed (p : Z * Z) : Util.closed (Util.order p).
Proof. unfold Util.closed, Util.order; simpl. lia. Qed.

(** [collision] never raises. *)
Lemma collision_returns (a b : Line.t) : ∃ r, Line.collision a b = Ok r.
Proof.
  unfold Line.collision. rewrite !project_x, !project_y. simpl.
  destruct (overlap_never_raises
              (Obj 0 (Util.order (Point.x (Line.p a), Point.x (Line.q a))))
              (Obj 1 (Util.order (Point.x (Line.p b), Point.x (Line.q b)))))
    as [[ox sx] ->]; simpl.
  destruct (overlap_never_raises
              (Obj 0 (Util.order (Point.y (Line.p a), Point.y (Line.q a))))
              (Obj 1 (Util.order (Point.y (Line.p b), Point.y (Line.q b)))))
    as [[oy sy] ->]; simpl.
  destruct (ox && oy); eauto.
Qed.

Lemma dict_set_perpendicular {V : Type} (k : Line.t * Line.t) (v : V)
    (d : Line.dict V) :
  Line.parallel (fst k) (snd k) = false →
  perpendicular_keys d → perpendicular_keys (Line.dict_set k v d).
Proof.
  intros Hk. unfold perpendicular_keys.
  induction d as [|[k' v'] d IH]; simpl; intros Hd.
  - by constructor.
  - inversion Hd; subst. case_match; constructor; auto.
Qed.

Lemma dict_get_parallel {V : Type} (a b : Line.t) (d : Line.dict V) :
  Line.parallel a b = true → perpendicular_keys d →
  Line.dict_get (a, b) d = None.
Proof.
  intros Hab. unfold perpendicular_keys.
  induction d as [|[k' v'] d IH]; simpl; intros Hd; [done|].
  inversion Hd as [|? ? Hk' Hd']; subst. simpl in Hk'.
  destruct (Line.key_eq k' (a, b)) eqn:E; [|by apply IH].
  apply key_eq_spec in E. subst k'. simpl in Hk'. congruence.
Qed.

Lemma collisions_body_perpendicular (a b : obj Line.t)
    (results : Line.dict (option (Line.segment * Line.segment))) :
  perpendicular_keys results →
  ∃ results', Line.collisions_body a b results = Ok results' ∧
              perpendicular_keys results'.
Proof.
  intros Hd. unfold Line.collisions_body.
  destruct (is_ a b); simpl; [eauto|].
  destruct (Line.parallel (contents a) (contents b)) eqn:Hp; simpl; [eauto|].
  destruct (Line.dict_mem _ results); simpl; [eauto|].
  destruct (collision_returns (contents a) (contents b)) as [[c s] ->]; simpl.
  destruct c; [|eauto].
  eexists; split; [done|]. by apply dict_set_perpendicular.
Qed.

Lemma collisions_perpendicular (lines : list (obj Line.t)) :
  ∃ results, Line.collisions lines = Ok results ∧ perpendicular_keys results.
Proof.
  unfold Line.collisions.
  apply (for_each_invariant perpendicular_keys); [by constructor|].
  intros a results _ Hd.
  apply (for_each_invariant perpendicular_keys); [done|].
  intros b results' _. apply collisions_body_perpendicular.
Qed.

(** C6.  For every list of lines [Line.collisions] returns a dictionary,
    and for every two parallel lines [a] and [b] (both vertical, both
    horizontal or both angled, overlapping or not) that dictionary has no
    entry under [(a, b)] and none under [(b, a)]. *)
Theorem collisions_exclude_parallel (lines : list (obj Line.t))
    (a b : Line.t) :
  Line.parallel a b = true →
  ∃ results,
    Line.collisions lines = Ok results ∧
    Line.dict_get (a, b) results = None ∧
    Line.dict_get (b, a) results = None.
Proof.
  intros Hab.
  destruct (collisions_perpendicular lines) as (results & Hr & Hd).
  exists results. split; [done|].
  split; apply dict_get_parallel; try done. by rewrite parallel_sym.
Qed.

Lemma collisions_exclude_parallel_witness :
  Line.parallel (Line.mk (Point.mk 0 0) (Point.mk 10 0))
                (Line.mk (Point.mk 5 0) (Point.mk 15 0)) = true ∧
  ∃ results,
    Line.collisions [Obj 0 (Line.mk (Point.mk 0 0) (Point.mk 10 0));
                     Obj 1 (Line.mk (Point.mk 5 0) (Point.mk 15 0));
                     Obj 2 (Line.mk (Point.mk 7 (-2)) (Point.mk 7 2))]
      = Ok results ∧
    Line.dict_get (Line.mk (Point.mk 0 0) (Point.mk 10 0),
                   Line.mk (Point.mk 5 0) (Point.mk 15 0)) results = None ∧
    Line.dict_get (Line.mk (Point.mk 5 0) (Point.mk 15 0),
                   Line.mk (Point.mk 0 0) (Point.mk 10 0)) results = None.
Proof.
  split; [reflexivity|].
  apply (collisions_exclude_parallel
           [Obj 0 (Line.mk (Point.mk 0 0) (Point.mk 10 0));
            Obj 1 (Line.mk (Point.mk 5 0) (Point.mk 15 0));
            Obj 2 (Line.mk (Point.mk 7 (-2)) (Point.mk 7 2))]).
  reflexivity.
Defined.

(** The same three lines: the two overlapping horizontal lines are each
    reported against the vertical line and never against each other. *)
Example collisions_three_lines :
  Line.collisions [Obj 0 (Line.mk (Point.mk 0 0) (Point.mk 10 0));
                   Obj 1 (Line.mk (Point.mk 5 0) (Point.mk 15 0));
                   Obj 2 (Line.mk (Point.mk 7 (-2)) (Point.mk 7 2))]
  = Ok [ ((Line.mk (Point.mk 0 0) (Point.mk 10 0),
           Line.mk (Point.mk 7 (-2)) (Point.mk 7 2)),
          Some (Some (7, 7), Some (0, 0)));
         ((Line.mk (Point.mk 5 0) (Point.mk 15 0),
           Line.mk (Point.mk 7 (-2)) (Point.mk 7 2)),
          Some (Some (7, 7), Some (0, 0))) ].
Proof. reflexivity. Qed.

(** ** Junctions *)

Lemma Point_eq_decide (a b : Point.t) : Point.eq a b = bool_decide (a = b).
Proof.
  destruct (Point.eq a b) eqn:E; symmetry.
  - apply bool_decide_eq_true, Point_eq_spec, E.
  - apply bool_decide_eq_false. intros H%Point_eq_spec. congruence.
Qed.

(** [resolve_collision] applies the table of the specification to the
    lines it selects as [h] and [v]. *)
Lemma resolve_collision_table (a b : Line.t) (sx sy : Z * Z) :
  Line.resolve_collision ((a, b), Some (Some sx, Some sy)) =
    Ok (Point.mk (fst sx) (fst sy),
        Spec.junction_glyph (Point.mk (fst sx) (fst sy))
          (if Line.horizontal a then a else b)
          (if Line.vertical a then a else b)).
Proof.
  unfold Line.resolve_collision, Spec.junction_glyph; simpl.
  rewrite !Point_eq_decide.
  repeat f_equal.
  repeat (case_bool_decide; simpl; try done; try (exfalso; tauto)).
Qed.

(** Where the table is followed.  For a pair made of one horizontal line
    [h] and one vertical line [v], in either order, whose first line is not
    a single point, [resolve_collision] returns the point of the collision
    with the glyph that the table of the specification gives for [h] and
    [v]; and the three junctions of the specification's glyph table come
    out as the top-left corner, the bottom-left corner and the cross. *)
Theorem resolve_collision_junction :
  (∀ (a b h v : Line.t) (sx sy : Z * Z),
     Line.horizontal h = true → Line.vertical v = true →
     (a, b) = (h, v) ∨ (a, b) = (v, h) →
     Line.p a ≠ Line.q a →
     Line.resolve_collision ((a, b), Some (Some sx, Some sy)) =
       Ok (Point.mk (fst sx) (fst sy),
           Spec.junction_glyph (Point.mk (fst sx) (fst sy)) h v)) ∧
  (Line.collisions [Obj 0 (Line.mk (Point.mk 0 0) (Point.mk 10 0));
                    Obj 1 (Line.mk (Point.mk 0 0) (Point.mk 0 5))]
     ≫= Line.resolve_collisions = Ok [(Point.mk 0 0, Line.UNICODE_TL)]) ∧
  (Line.collisions [Obj 0 (Line.mk (Point.mk 0 0) (Point.mk 10 0));
                    Obj 1 (Line.mk (Point.mk 0 (-5)) (Point.mk 0 0))]
     ≫= Line.resolve_collisions = Ok [(Point.mk 0 0, Line.UNICODE_BL)]) ∧
  (Line.collisions [Obj 0 (Line.mk (Point.mk 0 0) (Point.mk 10 0));
                    Obj 1 (Line.mk (Point.mk 5 (-3)) (Point.mk 5 3))]
     ≫= Line.resolve_collisions = Ok [(Point.mk 5 0, Line.UNICODE_X)]).
Proof.
  split; [|by repeat split].
  intros a b h v sx sy Hh Hv Hab Hne.
  rewrite resolve_collision_table.
  assert (Line.horizontal a && Line.vertical a = false) as Hpt.
  { apply andb_false_iff.
    destruct (Line.horizontal a) eqn:E1; [right|by left].
    destruct (Line.vertical a) eqn:E2; [|done].
    exfalso. apply Hne. unfold Line.horizontal, Line.vertical in *.
    apply bool_decide_eq_true in E1, E2.
    destruct (Line.p a), (Line.q a); simpl in *; congruence. }
  destruct Hab as [[= -> ->]|[= -> ->]].
  - rewrite Hh in *. simpl in Hpt. by rewrite Hpt.
  - rewrite Hv in *. rewrite andb_true_r in Hpt. by rewrite Hpt.
Qed.

Lemma resolve_collision_junction_witness :
  Line.horizontal (Line.mk (Point.mk 0 0) (Point.mk 10 0)) = true ∧
  Line.vertical (Line.mk (Point.mk 10 (-2)) (Point.mk 10 4)) = true ∧
  Line.p (Line.mk (Point.mk 10 (-2)) (Point.mk 10 4))
    ≠ Line.q (Line.mk (Point.mk 10 (-2)) (Point.mk 10 4)) ∧
  Line.resolve_collision
    ((Line.mk (Point.mk 10 (-2)) (Point.mk 10 4),
      Line.mk (Point.mk 0 0) (Point.mk 10 0)),
     Some (Some (10, 10), Some (0, 0))) =
    Ok (Point.mk 10 0,
        Spec.junction_glyph (Point.mk 10 0)
          (Line.mk (Point.mk 0 0) (Point.mk 10 0))
          (Line.mk (Point.mk 10 (-2)) (Point.mk 10 4))).
Proof.
  split; [reflexivity|]. split; [reflexivity|]. split; [discriminate|].
  apply (proj1 resolve_collision_junction
           (Line.mk (Point.mk 10 (-2)) (Point.mk 10 4))
           (Line.mk (Point.mk 0 0) (Point.mk 10 0))
           (Line.mk (Point.mk 0 0) (Point.mk 10 0))
           (Line.mk (Point.mk 10 (-2)) (Point.mk 10 4))
           (10, 10) (0, 0));
    [reflexivity | reflexivity | right; reflexivity | discriminate].
Defined.

(** The table is not followed on a pair whose first line is a single
    point: the point (3,0)-(3,0) has the orientation [VERTICAL], it
    collides with the horizontal line (0,0)-(10,0) at (3,0), and
    [resolve_collision] takes it for both [h] and [v], giving the top-left
    corner where the table gives the T pointing down. *)
Lemma resolve_collision_point_line_counterexample :
  ¬ (∀ (a b h v : Line.t) (x y : Z),
       Line.orientation h = Line.HORIZONTAL →
       Line.orientation v = Line.VERTICAL →
       (a, b) = (h, v) ∨ (a, b) = (v, h) →
       Line.collision a b = Ok (true, Some (Some (x, x), Some (y, y))) →
       Line.resolve_collision ((a, b), Some (Some (x, x), Some (y, y))) =
         Ok (Point.mk x y, Spec.junction_glyph (Point.mk x y) h v)).
Proof.
  intros H.
  specialize (H (Line.mk (Point.mk 3 0) (Point.mk 3 0))
                (Line.mk (Point.mk 0 0) (Point.mk 10 0))
                (Line.mk (Point.mk 0 0) (Point.mk 10 0))
                (Line.mk (Point.mk 3 0) (Point.mk 3 0))
                3 0 eq_refl eq_refl (or_intror eq_refl) eq_refl).
  vm_compute in H. discriminate H.
Qed.

(** That pair through [collisions] and [resolve_collisions], and what the
    table gives for it. *)
Example point_line_junction :
  Line.collisions [Obj 0 (Line.mk (Point.mk 3 0) (Point.mk 3 0));
                   Obj 1 (Line.mk (Point.mk 0 0) (Point.mk 10 0))]
    ≫= Line.resolve_collisions = Ok [(Point.mk 3 0, Line.UNICODE_TL)] ∧
  Spec.junction_glyph (Point.mk 3 0)
    (Line.mk (Point.mk 0 0) (Point.mk 10 0))
    (Line.mk (Point.mk 3 0) (Point.mk 3 0)) = Line.UNICODE_HD.
Proof. split; reflexivity. Qed.

(** C3, at the failing input.  [resolve_collision] picks [h] and [v] with
    two independent tests on the first line of the pair.  A line that is a
    single point passes both, so it is taken for [h] and for [v] and the
    second line is never looked at: whatever that line is, the junction at
    the point is the top-left corner.  [orientation] and [collisions] class
    such a point as vertical only, and the same two lines in the other
    order get the glyph of the table.  For the point (3,0)-(3,0) and the
    horizontal line (0,0)-(10,0): the top-left corner when the point comes
    first, the T pointing down, which is what the table gives, when it
    comes second. *)
Theorem resolve_collision_point_first :
  (∀ (pt : Point.t) (b : Line.t),
     Line.orientation (Line.mk pt pt) = Line.VERTICAL ∧
     Line.resolve_collision
       ((Line.mk pt pt, b),
        Some (Some (Point.x pt, Point.x pt), Some (Point.y pt, Point.y pt)))
     = Ok (pt, Line.UNICODE_TL)) ∧
  Line.collisions [Obj 0 (Line.mk (Point.mk 3 0) (Point.mk 3 0));
                   Obj 1 (Line.mk (Point.mk 0 0) (Point.mk 10 0))]
    ≫= Line.resolve_collisions = Ok [(Point.mk 3 0, Line.UNICODE_TL)] ∧
  Line.collisions [Obj 0 (Line.mk (Point.mk 0 0) (Point.mk 10 0));
                   Obj 1 (Line.mk (Point.mk 3 0) (Point.mk 3 0))]
    ≫= Line.resolve_collisions = Ok [(Point.mk 3 0, Line.UNICODE_HD)] ∧
  Spec.junction_glyph (Point.mk 3 0)
    (Line.mk (Point.mk 0 0) (Point.mk 10 0))
    (Line.mk (Point.mk 3 0) (Point.mk 3 0)) = Line.UNICODE_HD ∧
  Line.UNICODE_TL ≠ Line.UNICODE_HD.
Proof.
  split; [|by repeat split].
  intros pt b. split.
  - unfold Line.orientation, Line.vertical. simpl.
    by rewrite bool_decide_eq_true_2.
  - rewrite resolve_collision_table. simpl.
    unfold Line.horizontal, Line.vertical. simpl.
    rewrite !bool_decide_eq_true_2 by done.
    unfold Spec.junction_glyph. simpl.
    destruct pt as [x y]. simpl.
    by rewrite !bool_decide_eq_true_2 by done.
Qed.

(** ** Rect and Window *)

Lemma Rect_init_normalized (p q : Point.t) : Rect.normalized (Rect.init p q).
Proof. unfold Rect.normalized, Point.le, Rect.init; simpl. lia. Qed.

Lemma Rect_init_id (r : Rect.t) :
  Rect.normalized r → Rect.init (Rect.p r) (Rect.q r) = r.
Proof.
  destruct r as [[px py] [qx qy]].
  unfold Rect.normalized, Point.le, Rect.init; simpl. intros [Hx Hy].
  by rewrite !Z.min_l, !Z.max_r by lia.
Qed.

Lemma Rect_add_normalized (r : Rect.t) (d : Point.t) :
  Rect.normalized (Rect.add r d).
Proof. apply Rect_init_normalized. Qed.

Lemma Window_init_normalized (x y w h : Z) :
  Rect.normalized (Window.rect (Window.init x y w h)).
Proof. apply Rect_init_normalized. Qed.

Lemma Window_resize_normalized (self : Window.t) (w h : Z) :
  0 <= w → 0 <= h → Rect.normalized (Window.rect (Window.resize self w h)).
Proof. unfold Rect.normalized, Point.le; simpl. lia. Qed.

(** C5, at the failing input.  [Rect.__init__] orders the corners, and the
    window made by [Window(0, 0, 10, 5)] has [p <= q]; [Window.move] then
    replaces [p] and leaves [q] where it was, so after [move(20, 0)] the
    window has [p = (20, 0)] and [q = (10, 5)], and [p.x <= q.x] fails. *)
Theorem Window_move_denormalizes :
  Rect.normalized (Window.rect (Window.init 0 0 10 5)) ∧
  Window.rect (Window.move (Window.init 0 0 10 5) 20 0)
    = Rect.mk (Point.mk 20 0) (Point.mk 10 5) ∧
  ¬ Rect.normalized (Window.rect (Window.move (Window.init 0 0 10 5) 20 0)).
Proof.
  split; [apply Window_init_normalized|]. split; [reflexivity|].
  unfold Rect.normalized, Point.le; simpl. lia.
Qed.

(** The same through the layout: three columns on a terminal 30 wide put
    the third cell's window at x = 20; when the terminal grows to 300 wide,
    [LayoutCell.resize] resizes that window from its old origin and then
    moves it, leaving [p = (200, 0)] right of [q = (120, 24)]. *)
Example cell_resize_denormalizes :
  Layout.cell_create_window (single_cells (30, 24) 3) 2 0
    = Ok (Window.mk (Point.mk 20 0) (Point.mk 30 24)
                    (Window.newwin 24 10 0 20)) ∧
  Layout.cell_resize (single_cells (300, 24) 3) 2 0
      (Window.mk (Point.mk 20 0) (Point.mk 30 24) (Window.newwin 24 10 0 20))
    = Ok (Window.mk (Point.mk 200 0) (Point.mk 120 24)
                    (Window.newwin 24 100 0 200)).
Proof. split; reflexivity. Qed.

(** ** Border lines *)

Lemma rect_border_well_formed (p q : Point.t) :
  Forall (λ l, Line.axis_aligned l ∧ Line.ordered l)
         (Rect.border (Rect.init p q)).
Proof.
  unfold Rect.border, Rect.init, Line.axis_aligned, Line.ordered, Point.le,
    Line.orientation, Line.vertical, Line.horizontal; simpl.
  repeat constructor; simpl;
    repeat case_bool_decide; try done; try lia.
Qed.

Lemma node_border_axis_aligned (width height : Z) :
  Forall Line.axis_aligned (LayoutNode.border_lines width height).
Proof.
  unfold LayoutNode.border_lines, Line.axis_aligned,
    Line.orientation, Line.vertical, Line.horizontal; simpl.
  repeat constructor; simpl; repeat case_bool_decide; done.
Qed.

Lemma node_border_ordered_iff (width height : Z) :
  Forall Line.ordered (LayoutNode.border_lines width height)
  ↔ 1 <= width ∧ 1 <= height.
Proof.
  unfold LayoutNode.border_lines, Line.ordered, Point.le; simpl. split.
  - intros H. inversion H as [|? ? [Hx _] H']; subst.
    inversion H' as [|? ? _ H'']; subst.
    inversion H'' as [|? ? [_ Hy] _]; subst. simpl in *. lia.
  - intros [Hw Hh]. repeat constructor; simpl; lia.
Qed.

(** C9, amended.  The four lines of [Rect.border], on a rectangle built by
    [Rect.__init__], are axis-aligned and have ordered endpoints.  The four
    lines of [LayoutNode.border_lines] are axis-aligned for every width and
    height, and have ordered endpoints exactly when the node's width and
    height are both at least 1. *)
Theorem border_lines_aligned_ordered (p q : Point.t) (width height : Z) :
  Forall (λ l, Line.axis_aligned l ∧ Line.ordered l)
         (Rect.border (Rect.init p q)) ∧
  Forall Line.axis_aligned (LayoutNode.border_lines width height) ∧
  (Forall Line.ordered (LayoutNode.border_lines width height)
   ↔ 1 <= width ∧ 1 <= height).
Proof.
  split; [apply rect_border_well_formed|].
  split; [apply node_border_axis_aligned | apply node_border_ordered_iff].
Qed.

(** C9 as stated fails on a cell of width 0: with three columns on a
    terminal 2 wide, the second column's cell is 0 wide and the top line of
    its border runs from (0,0) to (-1,0). *)
Lemma border_lines_unordered_counterexample :
  ¬ (∀ (layout : Layout.t) (i j : nat) (lines : list Line.t),
       Layout.cell_border_lines layout i j = Ok lines →
       Forall (λ l, Line.axis_aligned l ∧ Line.ordered l) lines).
Proof.
  intros H.
  specialize (H (single_cells (2, 24) 3) 1%nat 0%nat
                (LayoutNode.border_lines 0 24) eq_refl).
  inversion H as [|? ? [_ [Hx _]] _]; subst. simpl in Hx. lia.
Qed.

(** ** Tiling *)

Lemma mapM_Ok {A B : Type} (f : A → result B) (g : A → B) (l : list A) :
  (∀ x, x ∈ l → f x = Ok (g x)) → mapM (M := result) f l = Ok (g <$> l).
Proof.
  induction l as [|x l IH]; intros Hf; simpl; [done|].
  rewrite (Hf x) by left. simpl.
  rewrite IH by (intros y Hy; apply Hf; by right). done.
Qed.

(** [tile] on a parent that has children: the quotient, plus the remainder
    for the first child. *)
Lemma tile_value (count : nat) (size : Z * Z) (index : nat) (axis M : Z) :
  tuple_getitem size axis = Ok M → 0 <= M → (1 <= count)%nat →
  LayoutNode.tile count size index axis =
    Ok (if bool_decide (index = 0%nat)
        then M / Z.of_nat count + (M - M / Z.of_nat count * Z.of_nat count)
        else M / Z.of_nat count).
Proof.
  intros Hm HM Hn. unfold LayoutNode.tile. rewrite Hm; simpl.
  destruct (Z.eqb_spec (Z.of_nat count) 0) as [E|_]; [lia|].
  by rewrite Z.quot_div_nonneg by lia.
Qed.

Lemma total_replicate (k : nat) (x : Z) :
  total (replicate k x) = Z.of_nat k * x.
Proof.
  unfold total. induction k as [|k IH]; [done|].
  simpl replicate. simpl foldr. rewrite IH. lia.
Qed.

Lemma later_siblings_equal (x0 x : Z) (k s : nat) :
  (0 < s)%nat →
  (λ index : nat, if bool_decide (index = 0%nat) then x0 else x) <$> seq s k
  = replicate k x.
Proof.
  revert s. induction k as [|k IH]; intros s Hs; simpl; [done|].
  rewrite bool_decide_eq_false_2 by lia. by rewrite IH by lia.
Qed.

Lemma tiles_value (count : nat) (size : Z * Z) (axis M : Z) :
  tuple_getitem size axis = Ok M → 0 <= M → (1 <= count)%nat →
  tiles count size axis =
    Ok ((M / Z.of_nat count + (M - M / Z.of_nat count * Z.of_nat count))
        :: replicate (count - 1) (M / Z.of_nat count)).
Proof.
  intros Hm HM Hn. unfold tiles.
  rewrite (mapM_Ok _ (λ index : nat,
             if bool_decide (index = 0%nat)
             then M / Z.of_nat count + (M - M / Z.of_nat count * Z.of_nat count)
             else M / Z.of_nat count))
    by (intros; by apply tile_value).
  destruct count as [|k]; [lia|].
  simpl seq. rewrite fmap_cons, later_siblings_equal by lia.
  simpl. by rewrite Nat.sub_0_r.
Qed.

Lemma total_tiles (count : nat) (M : Z) :
  (1 <= count)%nat →
  total ((M / Z.of_nat count + (M - M / Z.of_nat count * Z.of_nat count))
         :: replicate (count - 1) (M / Z.of_nat count)) = M.
Proof.
  intros Hn. change (total (?x :: ?l)) with (x + total l).
  rewrite total_replicate, Nat2Z.inj_sub by done. simpl (Z.of_nat 1). ring.
Qed.

(** C1.  For a parent with [count >= 1] children and extent [M >= 0] along
    the axis, with [M + count <= 2^53] so that [int(M / count)] is exact,
    [LayoutNode.tile] returns for every child; the sizes, in sibling order,
    sum to [M]; the child at index 0 gets
    [floor(M / count) + (M - floor(M / count) * count)], and every child at
    an index [i > 0] gets [floor(M / count)]. *)
Theorem tile_sizes_sum (count : nat) (size : Z * Z) (axis M : Z) :
  tuple_getitem size axis = Ok M → 0 <= M → (1 <= count)%nat →
  M + Z.of_nat count <= 2 ^ 53 →
  ∃ sizes : list Z,
    tiles count size axis = Ok sizes ∧
    length sizes = count ∧
    total sizes = M ∧
    sizes !! 0%nat
      = Some (M / Z.of_nat count + (M - M / Z.of_nat count * Z.of_nat count)) ∧
    ∀ i : nat, (0 < i < count)%nat → sizes !! i = Some (M / Z.of_nat count).
Proof.
  intros Hm HM Hn _. rewrite (tiles_value count size axis M Hm HM Hn).
  eexists; split; [done|]. repeat split.
  - simpl. rewrite length_replicate. lia.
  - by apply total_tiles.
  - intros i [Hi Hlt]. destruct i as [|i]; [lia|]. simpl.
    apply lookup_replicate_2. lia.
Qed.

Lemma tile_sizes_sum_witness :
  tuple_getitem (80, 24) 0 = Ok 80 ∧ 0 <= 80 ∧ (1 <= 3)%nat ∧
  80 + Z.of_nat 3 <= 2 ^ 53 ∧
  ∃ sizes : list Z,
    tiles 3 (80, 24) 0 = Ok sizes ∧
    length sizes = 3%nat ∧
    total sizes = 80 ∧
    sizes !! 0%nat = Some (80 / Z.of_nat 3 + (80 - 80 / Z.of_nat 3 * Z.of_nat 3)) ∧
    ∀ i : nat, (0 < i < 3)%nat → sizes !! i = Some (80 / Z.of_nat 3).
Proof.
  split; [reflexivity|]. split; [lia|]. split; [lia|]. split; [lia|].
  apply (tile_sizes_sum 3 (80, 24) 0 80); [reflexivity | lia | lia | lia].
Defined.

(** The widths of a layout's columns are these tiles of the terminal's
    width, and the heights of a column's cells these tiles of its height. *)
Lemma column_widths_are_tiles (layout : Layout.t) :
  mapM (M := result) (Layout.column_width layout)
       (seq 0 (length (Layout.children layout)))
  = tiles (length (Layout.children layout)) (Layout.size layout) 0.
Proof. done. Qed.

Lemma mapM_ext_in {A B : Type} (f g : A → result B) (l : list A) :
  (∀ x, x ∈ l → f x = g x) →
  mapM (M := result) f l = mapM (M := result) g l.
Proof.
  induction l as [|x l IH]; intros Hfg; simpl; [done|].
  rewrite (Hfg x) by left.
  rewrite IH by (intros y Hy; apply Hfg; by right). done.
Qed.

Lemma cell_heights_are_tiles (layout : Layout.t) (column : LayoutColumn.t)
    (i : nat) (w : Z) :
  Layout.children layout !! i = Some column →
  Layout.column_width layout i = Ok w →
  mapM (M := result) (Layout.cell_height layout i)
       (seq 0 (length (LayoutColumn.children column)))
  = tiles (length (LayoutColumn.children column)) (w, Layout.height layout) 1.
Proof.
  intros Hi Hw. unfold tiles. apply mapM_ext_in. intros j _.
  unfold Layout.cell_height, Layout.column_size, Layout.column_height.
  by rewrite Hi, Hw.
Qed.

(** On a terminal of non-negative size, the columns of a layout share its
    width and the cells of each column share its height. *)
Lemma layout_tiles_terminal (layout : Layout.t) (column : LayoutColumn.t)
    (i : nat) :
  0 <= Layout.width layout → 0 <= Layout.height layout →
  Layout.children layout !! i = Some column →
  (1 <= length (LayoutColumn.children column))%nat →
  ∃ widths heights : list Z,
    mapM (M := result) (Layout.column_width layout)
         (seq 0 (length (Layout.children layout))) = Ok widths ∧
    total widths = Layout.width layout ∧
    mapM (M := result) (Layout.cell_height layout i)
         (seq 0 (length (LayoutColumn.children column))) = Ok heights ∧
    total heights = Layout.height layout.
Proof.
  intros Hw Hh Hi Hcells.
  assert (1 <= length (Layout.children layout))%nat as Hcols.
  { apply lookup_lt_Some in Hi. lia. }
  eexists _, _.
  rewrite column_widths_are_tiles.
  rewrite (tiles_value _ _ 0 (Layout.width layout)) by done.
  split; [done|]. split; [by apply total_tiles|].
  erewrite cell_heights_are_tiles;
    [|done|by apply (tile_value _ _ _ 0 (Layout.width layout))].
  rewrite (tiles_value _ _ 1 (Layout.height layout)) by done.
  split; [done|]. by apply total_tiles.
Qed.

Example tiles_80_by_3 : tiles 3 (80, 24) 0 = Ok [28; 26; 26].
Proof. reflexivity. Qed.

(** C7, amended.  For extent [M >= 0] and [count >= 1] siblings, with
    [M + count <= 2^53] so that [int(M / count)] is exact, any two tile
    sizes differ by at most the remainder [M mod count], which is at most
    [count - 1]; two siblings other than the first get the same size. *)
Theorem tile_sizes_spread (count : nat) (size : Z * Z) (axis M : Z)
    (i j : nat) :
  tuple_getitem size axis = Ok M → 0 <= M → (1 <= count)%nat →
  M + Z.of_nat count <= 2 ^ 53 →
  (i < count)%nat → (j < count)%nat →
  ∃ si sj : Z,
    LayoutNode.tile count size i axis = Ok si ∧
    LayoutNode.tile count size j axis = Ok sj ∧
    Z.abs (si - sj) <= M mod Z.of_nat count ∧
    M mod Z.of_nat count <= Z.of_nat count - 1 ∧
    ((0 < i)%nat → (0 < j)%nat → si = sj).
Proof.
  intros Hm HM Hn _ Hi Hj.
  rewrite !(tile_value count size _ axis M Hm HM Hn).
  eexists _, _. split; [done|]. split; [done|].
  pose proof (Z.mod_pos_bound M (Z.of_nat count) ltac:(lia)) as Hmod.
  rewrite Z.mod_eq by lia.
  rewrite Z.mod_eq in Hmod by lia.
  repeat case_bool_decide; repeat split; intros; try lia.
Qed.

Lemma tile_sizes_spread_witness :
  tuple_getitem (80, 24) 0 = Ok 80 ∧ 0 <= 80 ∧ (1 <= 3)%nat ∧
  80 + Z.of_nat 3 <= 2 ^ 53 ∧
  (0 < 3)%nat ∧ (1 < 3)%nat ∧
  ∃ si sj : Z,
    LayoutNode.tile 3 (80, 24) 0 0 = Ok si ∧
    LayoutNode.tile 3 (80, 24) 1 0 = Ok sj ∧
    Z.abs (si - sj) <= 80 mod Z.of_nat 3 ∧
    80 mod Z.of_nat 3 <= Z.of_nat 3 - 1 ∧
    ((0 < 0)%nat → (0 < 1)%nat → si = sj).
Proof.
  split; [reflexivity|]. split; [lia|]. split; [lia|]. split; [lia|].
  split; [lia|]. split; [lia|].
  apply (tile_sizes_spread 3 (80, 24) 0 80 0 1);
    [reflexivity | lia | lia | lia | lia | lia].
Defined.

(** C7 as stated fails as soon as the remainder exceeds 1: three siblings
    on an extent of 5 get the sizes 3, 1 and 1. *)
Lemma tile_sizes_spread_counterexample :
  ¬ (∀ (count : nat) (size : Z * Z) (axis M : Z) (i j : nat) (si sj : Z),
       tuple_getitem size axis = Ok M → 0 <= M → (1 <= count)%nat →
       M + Z.of_nat count <= 2 ^ 53 →
       (i < count)%nat → (j < count)%nat →
       LayoutNode.tile count size i axis = Ok si →
       LayoutNode.tile count size j axis = Ok sj →
       Z.abs (si - sj) <= 1).
Proof.
  intros H.
  specialize (H 3%nat (5, 24) 0 5 0%nat 1%nat 3 1 eq_refl).
  specialize (H ltac:(lia) ltac:(lia) ltac:(lia) ltac:(lia) ltac:(lia)
                eq_refl eq_refl).
  lia.
Qed.

Example tiles_5_by_3 : tiles 3 (5, 24) 0 = Ok [3; 1; 1].
Proof. reflexivity. Qed.

(** ** Per-view state of a cell *)

Section state_facts.

Variable init_state : nat → nat → pyval.

Lemma new_cell_states_from_calls (views : list nat) :
  states_from_calls init_state (LayoutCell.World (LayoutCell.init views) []).
Proof.
  split; [constructor|]. intros view s; simpl. rewrite lookup_empty. split.
  - done.
  - intros (k & Hk & _). by rewrite lookup_nil in Hk.
Qed.

(** One lookup: the invariant is kept, the log only grows, and the object
    returned is the one that the view's call of [init_state] returned. *)
Lemma state_step (view : nat) (w : LayoutCell.world) :
  states_from_calls init_state w →
  states_from_calls init_state (LayoutCell.state init_state view w).2 ∧
  LayoutCell.calls w `prefix_of`
    LayoutCell.calls (LayoutCell.state init_state view w).2 ∧
  ∃ k : nat,
    LayoutCell.calls (LayoutCell.state init_state view w).2 !! k = Some view ∧
    (LayoutCell.state init_state view w).1 = init_state view k.
Proof.
  intros [Hnd Hst]. unfold LayoutCell.state.
  destruct (LayoutCell.states (LayoutCell.cell w) !! view) as [s|] eqn:E; simpl.
  - split; [by split|]. split; [done|]. by apply Hst.
  - assert (view ∉ LayoutCell.calls w) as Hnew.
    { intros (k & Hk)%list_elem_of_lookup_1.
      assert (LayoutCell.states (LayoutCell.cell w) !! view
              = Some (init_state view k)) as E' by (apply Hst; eauto).
      congruence. }
    split; [split|split].
    + apply NoDup_app. split; [done|]. split; [|apply NoDup_singleton].
      intros x Hx ->%list_elem_of_singleton. done.
    + intros view' s'; simpl.
      destruct (decide (view' = view)) as [->|Hne].
      * rewrite lookup_insert_eq. split.
        -- intros [= <-]. exists (length (LayoutCell.calls w)).
           split; [|done]. by rewrite lookup_app_r, Nat.sub_diag by lia.
        -- intros (k & Hk & ->). apply lookup_app_Some in Hk as [Hk|[Hle Hk]].
           ++ exfalso. apply Hnew. by eapply list_elem_of_lookup_2.
           ++ apply list_lookup_singleton_Some in Hk as [Hk _].
              do 2 f_equal. lia.
      * rewrite lookup_insert_ne by done. rewrite Hst.
        split; intros (k & Hk & ->); exists k; (split; [|done]).
        -- apply lookup_app_Some. by left.
        -- apply lookup_app_Some in Hk as [Hk|[_ Hk]]; [done|].
           apply list_lookup_singleton_Some in Hk as [_ ?]. congruence.
    + by apply prefix_app_r.
    + exists (length (LayoutCell.calls w)). split; [|done].
      by rewrite lookup_app_r, Nat.sub_diag by lia.
Qed.

Lemma requests_step (views : list nat) (w : LayoutCell.world) :
  states_from_calls init_state w →
  states_from_calls init_state (LayoutCell.requests init_state views w).2 ∧
  LayoutCell.calls w `prefix_of`
    LayoutCell.calls (LayoutCell.requests init_state views w).2 ∧
  ∀ (j view : nat), views !! j = Some view →
    ∃ k : nat,
      LayoutCell.calls (LayoutCell.requests init_state views w).2 !! k
        = Some view ∧
      (LayoutCell.requests init_state views w).1 !! j
        = Some (init_state view k).
Proof.
  revert w. induction views as [|v views IH]; intros w Hw; simpl.
  - split; [done|]. split; [done|]. intros j view Hj. by rewrite lookup_nil in Hj.
  - unfold LayoutCell.View_state.
    destruct (state_step v w Hw) as (Hw1 & Hpre1 & k1 & Hk1 & Hs1).
    destruct (LayoutCell.state init_state v w) as [s w1] eqn:E1; simpl in *.
    destruct (IH w1 Hw1) as (Hw2 & Hpre2 & Hall).
    destruct (LayoutCell.requests init_state views w1) as [ss w2] eqn:E2;
      simpl in *.
    split; [done|]. split; [by etrans|].
    intros [|j] view Hj; simpl in *.
    + injection Hj as <-. exists k1. split; [|by rewrite Hs1].
      by eapply prefix_lookup_Some.
    + by apply Hall.
Qed.

(** [init_state] is called when a view is asked for the first time, and
    only then. *)
Lemma requests_calls (views : list nat) (w : LayoutCell.world) :
  states_from_calls init_state w →
  LayoutCell.calls (LayoutCell.requests init_state views w).2
  = LayoutCell.calls w ++ first_requests (LayoutCell.calls w) views.
Proof.
  revert w. induction views as [|v views IH]; intros w Hw; simpl.
  - by rewrite app_nil_r.
  - unfold LayoutCell.View_state.
    pose proof (state_step v w Hw) as (Hw1 & _).
    destruct Hw as [_ Hst]. revert Hw1. unfold LayoutCell.state.
    destruct (LayoutCell.states (LayoutCell.cell w) !! v) as [s|] eqn:E;
      simpl; intros Hw1.
    + apply Hst in E as (k & Hk & _).
      rewrite decide_True by (by eapply list_elem_of_lookup_2).
      specialize (IH w Hw1).
      by destruct (LayoutCell.requests init_state views w).
    + rewrite decide_False.
      2:{ intros (k & Hk)%list_elem_of_lookup_1.
          assert (LayoutCell.states (LayoutCell.cell w) !! v
                  = Some (init_state v k)) as E' by (apply Hst; eauto).
          congruence. }
      specialize (IH _ Hw1). simpl in IH.
      destruct (LayoutCell.requests init_state views _); simpl in *.
      by rewrite IH, <- app_assoc.
Qed.

(** C8.  Start from a newly built cell and let [draw] and [handle_input]
    ask for states in any order, [reqs].  Then the cell has called
    [init_state] at most once for each view (its log of calls has no
    repetition), the calls are those of the views' first requests, in that
    order, and for a view that was asked there is one call, the [k]-th,
    such that every request for that view returned the very object that
    call produced. *)
Theorem state_initialised_once (children reqs : list nat) (i view : nat) :
  reqs !! i = Some view →
  NoDup (LayoutCell.calls
           (LayoutCell.requests init_state reqs
              (LayoutCell.World (LayoutCell.init children) [])).2) ∧
  LayoutCell.calls
    (LayoutCell.requests init_state reqs
       (LayoutCell.World (LayoutCell.init children) [])).2
    = first_requests [] reqs ∧
  ∃ k : nat,
    LayoutCell.calls
      (LayoutCell.requests init_state reqs
         (LayoutCell.World (LayoutCell.init children) [])).2 !! k
      = Some view ∧
    ∀ j : nat, reqs !! j = Some view →
      (LayoutCell.requests init_state reqs
         (LayoutCell.World (LayoutCell.init children) [])).1 !! j
      = Some (init_state view k).
Proof.
  intros Hi.
  destruct (requests_step reqs _ (new_cell_states_from_calls children))
    as ([Hnd _] & _ & Hall).
  split; [done|].
  split; [by rewrite requests_calls by apply new_cell_states_from_calls|].
  destruct (Hall i view Hi) as (k & Hk & _).
  exists k. split; [done|].
  intros j Hj. destruct (Hall j view Hj) as (k' & Hk' & ->).
  do 2 f_equal. by eapply NoDup_lookup.
Qed.

End state_facts.

Lemma state_initialised_once_witness :
  [7; 8; 7]%nat !! 2%nat = Some 7%nat ∧
  NoDup (LayoutCell.calls
           (LayoutCell.requests (λ view k, VRef (100 * view + k)) [7; 8; 7]%nat
              (LayoutCell.World (LayoutCell.init [7; 8]%nat) [])).2) ∧
  LayoutCell.calls
    (LayoutCell.requests (λ view k, VRef (100 * view + k)) [7; 8; 7]%nat
       (LayoutCell.World (LayoutCell.init [7; 8]%nat) [])).2
    = first_requests [] [7; 8; 7]%nat ∧
  ∃ k : nat,
    LayoutCell.calls
      (LayoutCell.requests (λ view k, VRef (100 * view + k)) [7; 8; 7]%nat
         (LayoutCell.World (LayoutCell.init [7; 8]%nat) [])).2 !! k
      = Some 7%nat ∧
    ∀ j : nat, [7; 8; 7]%nat !! j = Some 7%nat →
      (LayoutCell.requests (λ view k, VRef (100 * view + k)) [7; 8; 7]%nat
         (LayoutCell.World (LayoutCell.init [7; 8]%nat) [])).1 !! j
      = Some (VRef (100 * 7 + k)).
Proof.
  split; [reflexivity|].
  apply (state_initialised_once (λ view k, VRef (100 * view + k))
           [7; 8]%nat [7; 8; 7]%nat 2%nat 7%nat).
  reflexivity.
Defined.

(** The run of the witness: two calls of [init_state], for the views 7 and
    8, and the third request returns the first one's object. *)
Example requests_7_8_7 :
  LayoutCell.requests (λ view k, VRef (100 * view + k)) [7; 8; 7]%nat
    (LayoutCell.World (LayoutCell.init [7; 8]%nat) [])
  = ([VRef 700; VRef 801; VRef 700],
     LayoutCell.World
       (LayoutCell.mk [7; 8]%nat (<[8%nat := VRef 801]> (<[7%nat := VRef 700]> ∅)))
       [7; 8]%nat).
Proof. reflexivity. Qed.

(** ** Popups *)






(** The first popup of a layout, and then a second attempt: the first
    constructor returns the popup at identity 1 and sets the slot, the
    second raises and the slot still refers to 1. *)
Example two_popups :
  let σ0 := Popup.State (<[0%nat := <["popup" := VNone]> ∅]> ∅) [] in
  let r1 := Popup.new 0%nat 40 20 60 10 σ0 in
  let r2 := Popup.new 0%nat 0 0 80 3 r1.2 in
  r1.1 = Ok 1%nat ∧ Popup.slot r1.2 0%nat = Some (VRef 1) ∧
  r2.1 = Raise (Exception "Parent already has an active popup") ∧
  Popup.slot r2.2 0%nat = Some (VRef 1) ∧
  Popup.heap r2.2 !! 1%nat = Popup.heap r1.2 !! 1%nat.
Proof. vm_compute. repeat split; reflexivity. Qed.

(** ** Border lines of a laid-out cell *)

Lemma tile_positive (count : nat) (size : Z * Z) (index : nat) (axis M : Z) :
  tuple_getitem size axis = Ok M → (1 <= count)%nat → Z.of_nat count <= M →
  ∃ s : Z, LayoutNode.tile count size index axis = Ok s ∧ 1 <= s.
Proof.
  intros Hm Hn HM.
  rewrite (tile_value count size index axis M Hm) by lia.
  eexists; split; [done|].
  assert (1 <= M / Z.of_nat count) by (apply Z.div_le_lower_bound; lia).
  pose proof (Z.mod_pos_bound M (Z.of_nat count) ltac:(lia)) as Hmod.
  rewrite Z.mod_eq in Hmod by lia.
  case_bool_decide; lia.
Qed.

(** When the terminal has at least as many columns as the layout and at
    least as many rows as the column has cells, the cell's border lines
    are axis-aligned with ordered endpoints. *)
Lemma cell_border_lines_well_formed (layout : Layout.t)
    (column : LayoutColumn.t) (i j : nat) :
  Layout.children layout !! i = Some column →
  (j < length (LayoutColumn.children column))%nat →
  Z.of_nat (length (Layout.children layout)) <= Layout.width layout →
  Z.of_nat (length (LayoutColumn.children column)) <= Layout.height layout →
  ∃ lines : list Line.t,
    Layout.cell_border_lines layout i j = Ok lines ∧
    Forall (λ l, Line.axis_aligned l ∧ Line.ordered l) lines.
Proof.
  intros Hi Hj Hw Hh.
  assert (1 <= length (Layout.children layout))%nat as Hcols.
  { apply lookup_lt_Some in Hi. lia. }
  destruct (tile_positive (length (Layout.children layout))
              (Layout.size layout) i 0 (Layout.width layout))
    as (w & Ew & Hw1); [done..|].
  unfold Layout.cell_border_lines, Layout.cell_width, Layout.cell_height,
    Layout.column_size, Layout.column_width, Layout.column_height.
  rewrite Hi, Ew; simpl.
  destruct (tile_positive (length (LayoutColumn.children column))
              (w, Layout.height layout) j 1 (Layout.height layout))
    as (h & Eh & Hh1); [done|lia|done|].
  rewrite Eh; simpl.
  eexists; split; [done|]. apply Forall_and. split.
  - apply node_border_axis_aligned.
  - apply node_border_ordered_iff. lia.
Qed.

(** * Further properties *)

(** ** Collisions of two lines *)

Lemma collision_value (a b : Line.t) :
  Line.collision a b =
    Ok (if (fst (meet (extent_x a) (extent_x b))
              <=? snd (meet (extent_x a) (extent_x b)))
           && (fst (meet (extent_y a) (extent_y b))
                 <=? snd (meet (extent_y a) (extent_y b)))
        then (true, Some (Some (meet (extent_x a) (extent_x b)),
                          Some (meet (extent_y a) (extent_y b))))
        else (false, None)).
Proof.
  unfold Line.collision. rewrite !project_x, !project_y. simpl.
  rewrite !overlap_value
    by (first [apply order_closed | intros H; discriminate H]).
  fold (extent_x a) (extent_x b) (extent_y a) (extent_y b).
  unfold meet; simpl.
  repeat case_match; simplify_eq; done.
Qed.

Lemma meet_comm (s t : Z * Z) : meet s t = meet t s.
Proof. unfold meet. by rewrite Z.max_comm, Z.min_comm. Qed.

(** [collision] does not depend on the order of the two lines. *)
Theorem collision_symmetric (a b : Line.t) :
  Line.collision a b = Line.collision b a.
Proof.
  rewrite !collision_value.
  by rewrite (meet_comm (extent_x a)), (meet_comm (extent_y a)).
Qed.

(** A horizontal and a vertical line collide exactly when the vertical
    line's column lies within the horizontal line's run and the horizontal
    line's row within the vertical line's run; both segments then collapse
    to the one point where the lines cross. *)
Theorem collision_crossing (h v : Line.t) :
  Line.horizontal h = true → Line.vertical v = true →
  ∃ hit : bool,
    Line.collision h v =
      Ok (hit,
          if hit
          then Some (Some (Point.x (Line.p v), Point.x (Line.p v)),
                     Some (Point.y (Line.p h), Point.y (Line.p h)))
          else None) ∧
    (hit = true ↔
       fst (extent_x h) <= Point.x (Line.p v) <= snd (extent_x h) ∧
       fst (extent_y v) <= Point.y (Line.p h) <= snd (extent_y v)).
Proof.
  intros Hh%bool_decide_eq_true Hv%bool_decide_eq_true.
  rewrite collision_value.
  destruct h as [[hpx hpy] [hqx hqy]], v as [[vpx vpy] [vqx vqy]].
  unfold meet, extent_x, extent_y, Util.order in *; simpl in *. subst.
  destruct (Z.leb_spec (Z.max (Z.min hpx hqx) (Z.min vqx vqx))
                       (Z.min (Z.max hpx hqx) (Z.max vqx vqx)));
    destruct (Z.leb_spec (Z.max (Z.min hqy hqy) (Z.min vpy vqy))
                         (Z.min (Z.max hqy hqy) (Z.max vpy vqy))); simpl.
  - exists true. split; [|split; [lia|done]].
    repeat f_equal; lia.
  - exists false. split; [done|]. split; [done|lia].
  - exists false. split; [done|]. split; [done|lia].
  - exists false. split; [done|]. split; [done|lia].
Qed.

Lemma collision_crossing_witness :
  Line.horizontal (Line.mk (Point.mk 0 2) (Point.mk 9 2)) = true ∧
  Line.vertical (Line.mk (Point.mk 4 0) (Point.mk 4 5)) = true ∧
  ∃ hit : bool,
    Line.collision (Line.mk (Point.mk 0 2) (Point.mk 9 2))
                   (Line.mk (Point.mk 4 0) (Point.mk 4 5)) =
      Ok (hit,
          if hit
          then Some (Some (Point.x (Line.p (Line.mk (Point.mk 4 0) (Point.mk 4 5))),
                           Point.x (Line.p (Line.mk (Point.mk 4 0) (Point.mk 4 5)))),
                     Some (Point.y (Line.p (Line.mk (Point.mk 0 2) (Point.mk 9 2))),
                           Point.y (Line.p (Line.mk (Point.mk 0 2) (Point.mk 9 2)))))
          else None) ∧
    (hit = true ↔
       fst (extent_x (Line.mk (Point.mk 0 2) (Point.mk 9 2)))
         <= Point.x (Line.p (Line.mk (Point.mk 4 0) (Point.mk 4 5)))
         <= snd (extent_x (Line.mk (Point.mk 0 2) (Point.mk 9 2))) ∧
       fst (extent_y (Line.mk (Point.mk 4 0) (Point.mk 4 5)))
         <= Point.y (Line.p (Line.mk (Point.mk 0 2) (Point.mk 9 2)))
         <= snd (extent_y (Line.mk (Point.mk 4 0) (Point.mk 4 5)))).
Proof.
  split; [reflexivity|]. split; [reflexivity|].
  apply (collision_crossing (Line.mk (Point.mk 0 2) (Point.mk 9 2))
                            (Line.mk (Point.mk 4 0) (Point.mk 4 5)));
    reflexivity.
Defined.

(** ** The dictionary of collisions *)

Lemma key_eq_decide (k k' : Line.t * Line.t) :
  Line.key_eq k k' = bool_decide (k = k').
Proof.
  destruct (Line.key_eq k k') eqn:E; symmetry.
  - apply bool_decide_eq_true, key_eq_spec, E.
  - apply bool_decide_eq_false. intros H%key_eq_spec. congruence.
Qed.

Lemma dict_get_set {V : Type} (k k' : Line.t * Line.t) (v : V)
    (d : Line.dict V) :
  Line.dict_get k' (Line.dict_set k v d)
  = if bool_decide (k = k') then Some v else Line.dict_get k' d.
Proof.
  induction d as [|[k0 v0] d IH]; simpl.
  - rewrite key_eq_decide. done.
  - rewrite !key_eq_decide.
    destruct (decide (k0 = k)) as [->|Hne].
    + rewrite bool_decide_eq_true_2 by done. simpl. rewrite key_eq_decide.
      repeat case_bool_decide; simplify_eq; done.
    + rewrite (bool_decide_eq_false_2 (k0 = k)) by done. simpl.
      rewrite key_eq_decide, IH.
      repeat case_bool_decide; simplify_eq; done.
Qed.

Lemma dict_get_entry {V : Type} (k : Line.t * Line.t) (v : V)
    (d : Line.dict V) :
  Line.dict_get k d = Some v → (k, v) ∈ d.
Proof.
  induction d as [|[k0 v0] d IH]; simpl; [done|].
  rewrite key_eq_decide. case_bool_decide; simplify_eq.
  - intros [= ->]. left.
  - intros Hget. right. by apply IH.
Qed.

Lemma dict_set_entries {V : Type} (P : (Line.t * Line.t) * V → Prop)
    (k : Line.t * Line.t) (v : V) (d : Line.dict V) :
  P (k, v) → Forall P d → Forall P (Line.dict_set k v d).
Proof.
  intros Hk. induction d as [|[k0 v0] d IH]; simpl; intros Hd.
  - by constructor.
  - inversion Hd; subst. rewrite key_eq_decide.
    case_bool_decide; simplify_eq; constructor; auto.
Qed.

Lemma dict_mem_spec {V : Type} (k : Line.t * Line.t) (d : Line.dict V) :
  Line.dict_mem k d = true ↔ is_Some (Line.dict_get k d).
Proof. unfold Line.dict_mem. apply bool_decide_eq_true. Qed.

Lemma parallel_refl (a : Line.t) : Line.parallel a a = true.
Proof. unfold Line.parallel. by apply bool_decide_eq_true. Qed.

Lemma collisions_body_step (lines : list (obj Line.t)) (a b : obj Line.t)
    (results : Line.dict (option (Line.segment * Line.segment))) :
  a ∈ lines → b ∈ lines →
  collisions_invariant lines results →
  ∃ results',
    Line.collisions_body a b results = Ok results' ∧
    collisions_invariant lines results' ∧
    keys_kept results results' ∧
    (coherent a b → pair_covered a b results').
Proof.
  intros Ha Hb Hinv. pose proof Hinv as [Hent Hrev].
  assert (keys_kept results results) as Hsame by (by intros k).
  unfold Line.collisions_body.
  destruct (is_ a b) eqn:Eis; simpl.
  { exists results. do 3 (split; [done|]).
    intros Hc Hpar _. exfalso.
    apply bool_decide_eq_true in Eis. rewrite (Hc Eis) in Hpar.
    by rewrite parallel_refl in Hpar. }
  destruct (Line.parallel (contents a) (contents b)) eqn:Hp; simpl.
  { exists results. do 3 (split; [done|]). intros _ ? _. congruence. }
  destruct (Line.dict_mem (contents b, contents a) results) eqn:Hm; simpl.
  { exists results. do 3 (split; [done|]).
    intros _ _ _. right. by apply dict_mem_spec. }
  destruct (collision_returns (contents a) (contents b)) as [[c s] Ec].
  rewrite Ec; simpl. destruct c.
  - exists (Line.dict_set (contents a, contents b) s results).
    split; [done|]. split; [split|split].
    + apply dict_set_entries; [|done].
      repeat split; simpl; try done; apply list_elem_of_fmap; eauto.
    + intros k. rewrite !dict_get_set.
      assert (Line.dict_get (contents b, contents a) results = None) as Hba.
      { destruct (Line.dict_get (contents b, contents a) results) eqn:E;
          [|done].
        assert (Line.dict_mem (contents b, contents a) results = true)
          by (apply dict_mem_spec; rewrite E; eauto).
        congruence. }
      case_bool_decide as E1; simplify_eq; simpl.
      * intros _. rewrite bool_decide_eq_false_2; [done|].
        intros [= E2 _]. rewrite E2, parallel_refl in Hp. done.
      * intros Hk. case_bool_decide as E2; [|by apply Hrev].
        exfalso. destruct k as [k1 k2]; simpl in *. simplify_eq.
        rewrite Hba in Hk. by destruct Hk.
    + intros k Hk. rewrite dict_get_set. case_bool_decide; eauto.
    + intros _ _ _. left. rewrite dict_get_set.
      rewrite bool_decide_eq_true_2 by done. eauto.
  - exists results. do 3 (split; [done|]).
    intros _ _ [segs Hs]. congruence.
Qed.

(** A loop whose body keeps an invariant, only extends the state for a
    preorder, and establishes for its element a fact that extensions keep:
    the loop returns, and the fact holds of every element. *)
Lemma for_each_covers {A S : Type} (P : S → Prop) (R : S → S → Prop)
    (Q : A → S → Prop) (l : list A) (body : A → S → result S) (s : S) :
  (∀ s, R s s) → (∀ s1 s2 s3, R s1 s2 → R s2 s3 → R s1 s3) →
  (∀ x s1 s2, R s1 s2 → Q x s1 → Q x s2) →
  (∀ x s, x ∈ l → P s → ∃ s', body x s = Ok s' ∧ P s' ∧ R s s' ∧ Q x s') →
  P s →
  ∃ s', for_each l body s = Ok s' ∧ P s' ∧ R s s' ∧ ∀ x, x ∈ l → Q x s'.
Proof.
  intros Hrefl Htrans Hup. revert s.
  induction l as [|x l IH]; intros s Hbody Hs; simpl.
  - exists s. repeat split; try done. intros x Hx. by apply elem_of_nil in Hx.
  - destruct (Hbody x s) as (s1 & -> & Hs1 & HR1 & HQ1); [left|done|]. simpl.
    destruct (IH s1) as (s2 & -> & Hs2 & HR2 & HQ2);
      [intros y s' Hy; apply Hbody; by right|done|].
    exists s2. repeat split; eauto.
    intros y [->|Hy]%elem_of_cons; eauto.
Qed.

Lemma collisions_run (lines : list (obj Line.t)) :
  ∃ results,
    Line.collisions lines = Ok results ∧
    collisions_invariant lines results ∧
    ∀ a b, a ∈ lines → b ∈ lines → coherent a b → pair_covered a b results.
Proof.
  unfold Line.collisions.
  destruct (for_each_covers (collisions_invariant lines) keys_kept
              (λ a results, ∀ b, b ∈ lines → coherent a b →
                                 pair_covered a b results)
              lines
              (λ a results,
                 for_each lines (λ b results, Line.collisions_body a b results)
                          results)
              [])
    as (results & Hr & Hinv & _ & Hcov).
  - by intros s k.
  - intros s1 s2 s3 H12 H23 k Hk. eauto.
  - intros a s1 s2 H12 Hq b Hb Hc Hpar Hhit.
    destruct (Hq b Hb Hc Hpar Hhit) as [H|H]; [left|right]; by apply H12.
  - intros a s Ha Hs.
    destruct (for_each_covers (collisions_invariant lines) keys_kept
                (λ b results, coherent a b → pair_covered a b results)
                lines (λ b results, Line.collisions_body a b results) s)
      as (s' & Hs' & Hinv' & Hkept & Hcov'); try done.
    + by intros s0 k.
    + intros s1 s2 s3 H12 H23 k Hk. eauto.
    + intros b s1 s2 H12 Hq Hc Hpar Hhit.
      destruct (Hq Hc Hpar Hhit) as [H|H]; [left|right]; by apply H12.
    + intros b s0 Hb Hs0.
      destruct (collisions_body_step lines a b s0 Ha Hb Hs0)
        as (s1 & E & ? & ? & ?). eauto.
    + eauto 10.
  - split; [constructor|]. intros k [v Hk]. done.
  - eauto.
Qed.

(** [collisions] returns for every list of lines. *)
Lemma collisions_returns (lines : list (obj Line.t)) :
  ∃ results, Line.collisions lines = Ok results.
Proof. destruct (collisions_run lines) as (results & Hr & _). eauto. Qed.

(** Every entry has two segments, so that [resolve_collisions] unpacks
    each one and returns a junction for it. *)
Lemma resolve_entries (lines : list (obj Line.t))
    (results : Line.dict (option (Line.segment * Line.segment))) :
  Forall (collision_entry lines) results →
  ∃ junctions,
    Line.resolve_collisions results = Ok junctions ∧
    length junctions = length results.
Proof.
  intros Hent. unfold Line.resolve_collisions.
  induction Hent as [|[[a b] v] d (_ & _ & _ & Hc) _ IH]; simpl.
  - by exists [].
  - simpl in Hc. rewrite collision_value in Hc.
    destruct IH as (j & -> & Hl).
    case_match; simplify_eq. simpl. eexists; split; [done|].
    simpl. by rewrite Hl.
Qed.

(** Every entry of the dictionary that [collisions] returns is keyed by two
    lines of the list that are not parallel, holds exactly what [collision]
    returns for them, and has no twin under the reversed key. *)
Theorem collisions_sound (lines : list (obj Line.t))
    (results : Line.dict (option (Line.segment * Line.segment)))
    (a b : Line.t) (segments : option (Line.segment * Line.segment)) :
  Line.collisions lines = Ok results →
  Line.dict_get (a, b) results = Some segments →
  a ∈ contents <$> lines ∧ b ∈ contents <$> lines ∧
  Line.parallel a b = false ∧
  Line.collision a b = Ok (true, segments) ∧
  Line.dict_get (b, a) results = None.
Proof.
  intros Hres Hget.
  destruct (collisions_run lines) as (results' & Hr & [Hent Hrev] & _).
  assert (results' = results) as -> by congruence.
  pose proof (dict_get_entry _ _ _ Hget) as Hin.
  rewrite Forall_forall in Hent.
  destruct (Hent _ Hin) as (? & ? & ? & ?). simpl in *.
  repeat split; try done. apply (Hrev (a, b)). rewrite Hget. eauto.
Qed.

Lemma collisions_sound_witness :
  Line.collisions [crossing_h; crossing_v] = Ok crossing_results ∧
  Line.dict_get (contents crossing_h, contents crossing_v) crossing_results
    = Some (Some (Some (4, 4), Some (2, 2))) ∧
  contents crossing_h ∈ contents <$> [crossing_h; crossing_v] ∧
  contents crossing_v ∈ contents <$> [crossing_h; crossing_v] ∧
  Line.parallel (contents crossing_h) (contents crossing_v) = false ∧
  Line.collision (contents crossing_h) (contents crossing_v)
    = Ok (true, Some (Some (4, 4), Some (2, 2))) ∧
  Line.dict_get (contents crossing_v, contents crossing_h) crossing_results
    = None.
Proof.
  split; [reflexivity|]. split; [reflexivity|].
  apply (collisions_sound [crossing_h; crossing_v] crossing_results);
    reflexivity.
Defined.

(** Every two lines of the list that are not parallel and collide are in
    the dictionary, under one order of the pair, with the segments of their
    collision. *)
Theorem collisions_complete (lines : list (obj Line.t)) (a b : obj Line.t)
    (segments : option (Line.segment * Line.segment)) :
  coherent_lines lines → a ∈ lines → b ∈ lines →
  Line.parallel (contents a) (contents b) = false →
  Line.collision (contents a) (contents b) = Ok (true, segments) →
  ∃ results,
    Line.collisions lines = Ok results ∧
    (Line.dict_get (contents a, contents b) results = Some segments ∨
     Line.dict_get (contents b, contents a) results = Some segments).
Proof.
  intros Hcoh Ha Hb Hpar Hhit.
  destruct (collisions_run lines) as (results & Hr & [Hent Hrev] & Hcov).
  exists results. split; [done|].
  rewrite Forall_forall in Hent.
  destruct (Hcov a b Ha Hb (Hcoh a b Ha Hb) Hpar) as [[v Hv]|[v Hv]]; [eauto|..].
  - left. rewrite Hv. f_equal.
    destruct (Hent _ (dict_get_entry _ _ _ Hv)) as (_ & _ & _ & Hc).
    simpl in Hc. congruence.
  - right. rewrite Hv. f_equal.
    destruct (Hent _ (dict_get_entry _ _ _ Hv)) as (_ & _ & _ & Hc).
    simpl in Hc. rewrite collision_value in Hc, Hhit.
    rewrite (meet_comm (extent_x (contents a))),
      (meet_comm (extent_y (contents a))) in Hhit. congruence.
Qed.

Lemma collisions_complete_witness :
  coherent_lines [crossing_h; crossing_v] ∧
  crossing_v ∈ [crossing_h; crossing_v] ∧
  crossing_h ∈ [crossing_h; crossing_v] ∧
  Line.parallel (contents crossing_v) (contents crossing_h) = false ∧
  Line.collision (contents crossing_v) (contents crossing_h)
    = Ok (true, Some (Some (4, 4), Some (2, 2))) ∧
  ∃ results,
    Line.collisions [crossing_h; crossing_v] = Ok results ∧
    (Line.dict_get (contents crossing_v, contents crossing_h) results
       = Some (Some (Some (4, 4), Some (2, 2))) ∨
     Line.dict_get (contents crossing_h, contents crossing_v) results
       = Some (Some (Some (4, 4), Some (2, 2)))).
Proof.
  assert (coherent_lines [crossing_h; crossing_v]) as Hcoh.
  { intros a b Ha Hb Hab.
    apply elem_of_cons in Ha as [->|Ha]; [|apply list_elem_of_singleton in Ha as ->];
      (apply elem_of_cons in Hb as [->|Hb];
       [|apply list_elem_of_singleton in Hb as ->]);
      first [reflexivity | discriminate Hab]. }
  split; [exact Hcoh|].
  split; [right; left|]. split; [left|].
  split; [reflexivity|]. split; [reflexivity|].
  apply (collisions_complete [crossing_h; crossing_v] crossing_v crossing_h);
    [exact Hcoh|right; left|left|reflexivity|reflexivity].
Defined.

(** The junction pass never raises: every entry of the dictionary holds two
    segments, and [resolve_collisions] returns one junction for each. *)
Theorem junctions_returned (lines : list (obj Line.t)) :
  ∃ results junctions,
    Line.collisions lines = Ok results ∧
    Line.resolve_collisions results = Ok junctions ∧
    length junctions = length results.
Proof.
  destruct (collisions_run lines) as (results & Hr & [Hent _] & _).
  destruct (resolve_entries lines results Hent) as (junctions & Hj & Hl).
  eauto.
Qed.

(** ** Junctions of a pane's border *)

Lemma bind_Ok {A B : Type} (x : A) (f : A → result B) : (Ok x ≫= f) = f x.
Proof. done. Qed.

Lemma body_skip (a b : obj Line.t)
    (results : Line.dict (option (Line.segment * Line.segment))) :
  is_ a b = true ∨ Line.parallel (contents a) (contents b) = true
  ∨ is_Some (Line.dict_get (contents b, contents a) results) →
  Line.collisions_body a b results = Ok results.
Proof.
  unfold Line.collisions_body. intros [->|[->|H%dict_mem_spec]].
  - done.
  - by rewrite orb_true_r.
  - by rewrite H, orb_true_r.
Qed.

Lemma body_hit (a b : obj Line.t)
    (results : Line.dict (option (Line.segment * Line.segment)))
    (segments : option (Line.segment * Line.segment)) :
  is_ a b = false → Line.parallel (contents a) (contents b) = false →
  Line.dict_get (contents b, contents a) results = None →
  Line.collision (contents a) (contents b) = Ok (true, segments) →
  Line.collisions_body a b results
  = Ok (Line.dict_set (contents a, contents b) segments results).
Proof.
  unfold Line.collisions_body. intros -> -> Hget ->. simpl.
  assert (Line.dict_mem (contents b, contents a) results = false) as ->; [|done].
  apply bool_decide_eq_false. rewrite Hget. by intros [? ?].
Qed.

(** A horizontal line from [x1] to [x2] on row [y] and a vertical line from
    [y1] to [y2] on column [x] that cross. *)
Lemma collision_row_column (x1 x2 y x y1 y2 : Z) :
  x1 <= x <= x2 → y1 <= y <= y2 →
  Line.collision (Line.mk (Point.mk x1 y) (Point.mk x2 y))
                 (Line.mk (Point.mk x y1) (Point.mk x y2))
  = Ok (true, Some (Some (x, x), Some (y, y))).
Proof.
  intros Hx Hy. rewrite collision_value.
  unfold meet, extent_x, extent_y, Util.order; simpl.
  rewrite !Z.min_id, !Z.max_id.
  rewrite (Z.min_l x1 x2), (Z.max_r x1 x2), (Z.min_l y1 y2), (Z.max_r y1 y2)
    by lia.
  rewrite (Z.max_r x1 x), (Z.min_r x2 x), (Z.max_l y y1), (Z.min_l y y2) by lia.
  by rewrite !Z.leb_refl.
Qed.

Lemma border_collisions (width height : Z) :
  2 <= width → 2 <= height →
  Line.collisions (Draw.border_objects width height)
  = Ok [ ((Line.mk (Point.mk 0 0) (Point.mk (width - 1) 0),
           Line.mk (Point.mk 0 0) (Point.mk 0 (height - 1))),
          Some (Some (0, 0), Some (0, 0)));
         ((Line.mk (Point.mk 0 0) (Point.mk (width - 1) 0),
           Line.mk (Point.mk (width - 1) 0) (Point.mk (width - 1) (height - 1))),
          Some (Some (width - 1, width - 1), Some (0, 0)));
         ((Line.mk (Point.mk 0 (height - 1)) (Point.mk (width - 1) (height - 1)),
           Line.mk (Point.mk 0 0) (Point.mk 0 (height - 1))),
          Some (Some (0, 0), Some (height - 1, height - 1)));
         ((Line.mk (Point.mk 0 (height - 1)) (Point.mk (width - 1) (height - 1)),
           Line.mk (Point.mk (width - 1) 0) (Point.mk (width - 1) (height - 1))),
          Some (Some (width - 1, width - 1), Some (height - 1, height - 1))) ].
Proof.
  intros Hw Hh.
  unfold Draw.border_objects, LayoutNode.border_lines. simpl imap.
  set (W := width - 1). set (H := height - 1).
  assert (1 <= W) as HW by lia. assert (1 <= H) as HH by lia. clearbody W H.
  set (t := Line.mk (Point.mk 0 0) (Point.mk W 0)).
  set (b := Line.mk (Point.mk 0 H) (Point.mk W H)).
  set (l := Line.mk (Point.mk 0 0) (Point.mk 0 H)).
  set (r := Line.mk (Point.mk W 0) (Point.mk W H)).
  assert (Line.parallel t b = true ∧ Line.parallel b t = true ∧
          Line.parallel l r = true ∧ Line.parallel r l = true ∧
          Line.parallel t l = false ∧ Line.parallel t r = false ∧
          Line.parallel b l = false ∧ Line.parallel b r = false)
    as (Ptb & Pbt & Plr & Prl & Ptl & Ptr & Pbl & Pbr).
  { unfold Line.parallel, Line.orientation, Line.vertical, Line.horizontal;
      simpl.
    repeat split; repeat case_bool_decide; try done; lia. }
  assert (Line.collision t l = Ok (true, Some (Some (0, 0), Some (0, 0)))) as Ctl
    by (apply collision_row_column; lia).
  assert (Line.collision t r = Ok (true, Some (Some (W, W), Some (0, 0)))) as Ctr
    by (apply collision_row_column; lia).
  assert (Line.collision b l = Ok (true, Some (Some (0, 0), Some (H, H)))) as Cbl
    by (apply collision_row_column; lia).
  assert (Line.collision b r = Ok (true, Some (Some (W, W), Some (H, H)))) as Cbr
    by (apply collision_row_column; lia).
  assert (t ≠ b ∧ l ≠ r ∧ t ≠ l ∧ t ≠ r ∧ b ≠ l ∧ b ≠ r)
    as (Htb & Hlr & Htl & Htr & Hbl & Hbr).
  { repeat split; intros [=]; lia. }
  clearbody t b l r.
  unfold Line.collisions. simpl for_each.
  assert (∀ k k' : Line.t * Line.t, k ≠ k' → Line.key_eq k k' = false) as Kne.
  { intros k k' Hk. rewrite key_eq_decide. by apply bool_decide_eq_false. }
  assert (∀ k : Line.t * Line.t, Line.key_eq k k = true) as Keq.
  { intros k. rewrite key_eq_decide. by apply bool_decide_eq_true. }
  rewrite (body_skip (Obj 0 t) (Obj 1 b)) by (right; left; done).
  rewrite bind_Ok; cbv beta.
  rewrite (body_hit (Obj 0 t) (Obj 2 l) [] _ eq_refl Ptl eq_refl Ctl).
  rewrite bind_Ok; cbv beta. simpl Line.dict_set.
  erewrite (body_hit (Obj 0 t) (Obj 3 r) _ _ _ Ptr _ Ctr).
  Unshelve. 2: done. 2:{ simpl. by rewrite Kne by congruence. }
  rewrite bind_Ok; cbv beta. simpl Line.dict_set. rewrite Kne by congruence.
  rewrite bind_Ok; cbv beta.
  rewrite (body_skip (Obj 1 b) (Obj 0 t)) by (right; left; done).
  rewrite bind_Ok; cbv beta.
  erewrite (body_hit (Obj 1 b) (Obj 2 l) _ _ _ Pbl _ Cbl).
  Unshelve. 2: done. 2:{ simpl. by rewrite !Kne by congruence. }
  rewrite bind_Ok; cbv beta. simpl Line.dict_set. rewrite !Kne by congruence.
  erewrite (body_hit (Obj 1 b) (Obj 3 r) _ _ _ Pbr _ Cbr).
  Unshelve. 2: done. 2:{ simpl. by rewrite !Kne by congruence. }
  rewrite bind_Ok; cbv beta. simpl Line.dict_set. rewrite !Kne by congruence.
  rewrite bind_Ok; cbv beta.
  rewrite (body_skip (Obj 2 l) (Obj 0 t)).
  2:{ right; right. simpl. rewrite Keq. eauto. }
  rewrite bind_Ok; cbv beta.
  rewrite (body_skip (Obj 2 l) (Obj 1 b)).
  2:{ right; right. simpl. rewrite !Kne, Keq by congruence. eauto. }
  rewrite bind_Ok; cbv beta.
  rewrite (body_skip (Obj 2 l) (Obj 3 r)) by (right; left; done).
  rewrite bind_Ok; cbv beta. rewrite bind_Ok; cbv beta.
  rewrite (body_skip (Obj 3 r) (Obj 0 t)).
  2:{ right; right. simpl. rewrite !Kne, Keq by congruence. eauto. }
  rewrite bind_Ok; cbv beta.
  rewrite (body_skip (Obj 3 r) (Obj 1 b)).
  2:{ right; right. simpl. rewrite !Kne, Keq by congruence. eauto. }
  rewrite bind_Ok; cbv beta.
  rewrite (body_skip (Obj 3 r) (Obj 2 l)) by (right; left; done).
  rewrite bind_Ok; cbv beta. rewrite bind_Ok; cbv beta.
  done.
Qed.

Lemma border_junctions (width height : Z) :
  2 <= width → 2 <= height →
  Line.collisions (Draw.border_objects width height)
    ≫= Line.resolve_collisions
  = Ok [ (Point.mk 0 0, Line.UNICODE_TL);
         (Point.mk (width - 1) 0, Line.UNICODE_TR);
         (Point.mk 0 (height - 1), Line.UNICODE_BL);
         (Point.mk (width - 1) (height - 1), Line.UNICODE_BR) ].
Proof.
  intros Hw Hh. rewrite border_collisions by done. rewrite bind_Ok.
  unfold Line.resolve_collisions, Line.resolve_collision,
    Line.horizontal, Line.vertical, Point.eq; simpl.
  repeat (case_bool_decide; simplify_eq; try lia; simpl).
  all: done.
Qed.

(** ** What the drawing shows *)

Lemma writable_spec (w h x y : Z) :
  Draw.writable (w, h) x y = true
  ↔ 0 <= x < w ∧ 0 <= y < h ∧ ¬ (x = w - 1 ∧ y = h - 1).
Proof.
  unfold Draw.writable.
  rewrite !andb_true_iff, negb_true_iff, andb_false_iff.
  rewrite !Z.leb_le, !Z.ltb_lt, !Z.eqb_neq. lia.
Qed.

Lemma shown_snoc (surface : list Draw.addstr_call) (y' x' : Z) (s : string)
    (attr : option Z) (x y : Z) :
  Draw.shown (surface ++ [Draw.Addstr y' x' s attr]) x y
  = if bool_decide (x' = x ∧ y' = y) then Some s else Draw.shown surface x y.
Proof. unfold Draw.shown. by rewrite foldl_app. Qed.

(** [put] makes its one call whatever curses answers. *)
Lemma put_value (size : Z * Z) (x y : Z) (s : string) (color : option Z)
    (surface : list Draw.addstr_call) :
  Draw.put size x y s color surface
  = (if Draw.writable size x y then Ok tt else Raise CursesError,
     surface ++ run_calls [(x, y)] s color).
Proof.
  unfold Draw.put, run_calls. simpl.
  by destruct (Draw.truthy_color color).
Qed.

Lemma shown_run_calls (cells : list (Z * Z)) (s : string) (color : option Z)
    (surface : list Draw.addstr_call) (x y : Z) :
  Draw.shown (surface ++ run_calls cells s color) x y
  = if bool_decide ((x, y) ∈ cells) then Some s else Draw.shown surface x y.
Proof.
  revert surface. induction cells as [|[cx cy] cells IH]; intros surface.
  - unfold run_calls. rewrite fmap_nil, app_nil_r.
    rewrite bool_decide_eq_false_2; [done|]. by intros H%elem_of_nil.
  - unfold run_calls in *. rewrite fmap_cons, cons_middle, app_assoc, IH.
    rewrite shown_snoc. cbn [fst snd].
    destruct (decide ((x, y) ∈ cells)) as [Hin|Hout].
    + rewrite (bool_decide_eq_true_2 ((x, y) ∈ cells)) by done.
      rewrite (bool_decide_eq_true_2 ((x, y) ∈ (cx, cy) :: cells)); [done|].
      by right.
    + rewrite (bool_decide_eq_false_2 ((x, y) ∈ cells)) by done.
      destruct (decide (cx = x ∧ cy = y)) as [[-> ->]|Hne].
      * rewrite (bool_decide_eq_true_2 (x = x ∧ y = y)) by done.
        rewrite (bool_decide_eq_true_2 ((x, y) ∈ (x, y) :: cells)); [done|].
        left.
      * rewrite (bool_decide_eq_false_2 (cx = x ∧ cy = y)) by done.
        rewrite (bool_decide_eq_false_2 ((x, y) ∈ (cx, cy) :: cells)); [done|].
        intros [[= -> ->]|?]%elem_of_cons; [by apply Hne|done].
Qed.

Lemma for_cons_ok {A : Type} (x : A) (l : list A) (body : A → Draw.M unit)
    (surface s1 : list Draw.addstr_call) :
  body x surface = (Ok tt, s1) →
  Draw.for_ (x :: l) body surface = Draw.for_ l body s1.
Proof. intros H. simpl. unfold mbind, Draw.M_bind. by rewrite H. Qed.

Lemma for_cons_raise {A : Type} (x : A) (l : list A) (body : A → Draw.M unit)
    (surface s1 : list Draw.addstr_call) (e : exn) :
  body x surface = (Raise e, s1) →
  Draw.for_ (x :: l) body surface = (Raise e, s1).
Proof. intros H. simpl. unfold mbind, Draw.M_bind. by rewrite H. Qed.

Lemma for_fmap {A B : Type} (f : A → B) (l : list A) (body : B → Draw.M unit)
    (surface : list Draw.addstr_call) :
  Draw.for_ (f <$> l) body surface = Draw.for_ l (λ x, body (f x)) surface.
Proof.
  revert surface. induction l as [|x l IH]; intros surface; [done|].
  rewrite fmap_cons. simpl. unfold mbind, Draw.M_bind.
  destruct (body (f x) surface) as [[[]|e] s1]; [apply IH|done].
Qed.

(** A run over cells that curses accepts is written whole. *)
Lemma for_put_accepted (size : Z * Z) (cells : list (Z * Z)) (s : string)
    (color : option Z) (surface : list Draw.addstr_call) :
  Forall (λ c : Z * Z, Draw.writable size c.1 c.2 = true) cells →
  Draw.for_ cells (λ c, Draw.put size c.1 c.2 s color) surface
  = (Ok tt, surface ++ run_calls cells s color).
Proof.
  revert surface. induction cells as [|[cx cy] cells IH]; intros surface Hall.
  - unfold run_calls. simpl. by rewrite app_nil_r.
  - inversion Hall as [|? ? Hc Hrest]; subst. simpl in Hc.
    rewrite (for_cons_ok _ _ _ _ (surface ++ run_calls [(cx, cy)] s color)).
    + rewrite IH by done. unfold run_calls.
      by rewrite !fmap_cons, fmap_nil, <- app_assoc.
    + simpl. by rewrite put_value, Hc.
Qed.

(** A run stops at the first cell that curses refuses, after the call
    there. *)
Lemma for_put_refused (size : Z * Z) (before after : list (Z * Z))
    (cell : Z * Z) (s : string) (color : option Z)
    (surface : list Draw.addstr_call) :
  Forall (λ c : Z * Z, Draw.writable size c.1 c.2 = true) before →
  Draw.writable size cell.1 cell.2 = false →
  Draw.for_ (before ++ cell :: after) (λ c, Draw.put size c.1 c.2 s color)
            surface
  = (Raise CursesError, surface ++ run_calls (before ++ [cell]) s color).
Proof.
  revert surface. induction before as [|[cx cy] before IH];
    intros surface Hall Hcell.
  - simpl app. destruct cell as [cx cy]. simpl in Hcell.
    apply for_cons_raise. simpl. by rewrite put_value, Hcell.
  - inversion Hall as [|? ? Hc Hrest]; subst. simpl in Hc.
    rewrite <- app_comm_cons.
    rewrite (for_cons_ok _ _ _ _ (surface ++ run_calls [(cx, cy)] s color)).
    + rewrite IH by done. unfold run_calls.
      by rewrite <- app_comm_cons, !fmap_cons, fmap_nil, <- app_assoc.
    + simpl. by rewrite put_value, Hc.
Qed.

Lemma first_refused {A : Type} (P : A → bool) (l : list A) :
  Forall (λ c, P c = true) l ∨
  ∃ before cell after,
    l = before ++ cell :: after ∧
    Forall (λ c, P c = true) before ∧ P cell = false.
Proof.
  induction l as [|x l IH]; [left; constructor|].
  destruct (P x) eqn:Hx.
  - destruct IH as [Hall|(before & cell & after & -> & Hb & Hc)].
    + left. by constructor.
    + right. exists (x :: before), cell, after.
      split; [done|]. split; [by constructor|done].
  - right. exists [], x, l. split; [done|]. split; [constructor|done].
Qed.

Lemma orientation_cases (line : Line.t) :
  (Line.vertical line = true ∧ Line.orientation line = Line.VERTICAL) ∨
  (Line.vertical line = false ∧ Line.horizontal line = true ∧
   Line.orientation line = Line.HORIZONTAL) ∨
  (Line.vertical line = false ∧ Line.horizontal line = false ∧
   Line.orientation line = Line.ANGLED).
Proof.
  unfold Line.orientation.
  destruct (Line.vertical line), (Line.horizontal line); auto.
Qed.

(** [draw_line] on a horizontal or vertical line is the run of [put] over
    the cells of its stroke. *)
Lemma draw_line_run (size : Z * Z) (line : Line.t) (color : option Z)
    (surface : list Draw.addstr_call) :
  Line.axis_aligned line →
  Draw.draw_line size line color surface
  = Draw.for_ (stroke_cells line)
              (λ c, Draw.put size c.1 c.2 (stroke_glyph line) color) surface.
Proof.
  unfold Line.axis_aligned, Draw.draw_line, stroke_cells, stroke_glyph.
  destruct (orientation_cases line) as [[Ev ->]|[(Ev & Eh & ->)|(Ev & Eh & ->)]];
    rewrite ?Ev; simpl; intros Hal.
  - unfold Draw.draw_line_v. by rewrite for_fmap.
  - unfold Draw.draw_line_h. by rewrite for_fmap.
  - done.
Qed.

Lemma draw_line_angled (size : Z * Z) (line : Line.t) (color : option Z)
    (surface : list Draw.addstr_call) :
  ¬ Line.axis_aligned line →
  Draw.draw_line size line color surface
  = (Raise (Exception "Invalid line orientation: 3"), surface).
Proof.
  unfold Line.axis_aligned, Draw.draw_line.
  destruct (orientation_cases line) as [[Ev ->]|[(Ev & Eh & ->)|(Ev & Eh & ->)]];
    simpl; intros Hang; try done; exfalso; apply Hang; discriminate.
Qed.

Lemma stroke_cells_spec (line : Line.t) (x y : Z) :
  stroke line x y = bool_decide ((x, y) ∈ stroke_cells line).
Proof.
  unfold stroke, stroke_cells. destruct (Line.vertical line).
  - apply bool_decide_ext. rewrite list_elem_of_fmap. split.
    + intros [-> Hy]. exists y. split; [done|]. apply elem_of_seqZ. lia.
    + intros (y' & [= -> ->] & Hy%elem_of_seqZ). lia.
  - apply bool_decide_ext. rewrite list_elem_of_fmap. split.
    + intros [-> Hx]. exists x. split; [done|]. apply elem_of_seqZ. lia.
    + intros (x' & [= -> ->] & Hx%elem_of_seqZ). lia.
Qed.

(** A line the window takes whole is drawn whole. *)
Lemma draw_line_drawn (size : Z * Z) (line : Line.t) (color : option Z)
    (surface : list Draw.addstr_call) :
  drawable size line →
  ∃ surface',
    Draw.draw_line size line color surface = (Ok tt, surface') ∧
    ∀ x y, Draw.shown surface' x y
           = if stroke line x y then Some (stroke_glyph line)
             else Draw.shown surface x y.
Proof.
  intros [Hal Hall]. rewrite draw_line_run, for_put_accepted by done.
  eexists; split; [done|]. intros x y.
  by rewrite shown_run_calls, stroke_cells_spec.
Qed.

(** [draw_line] on a horizontal or vertical line returns when curses
    accepts the write at every cell of the line's stroke, and afterwards
    those cells show its glyph and every other cell what it showed; the
    end point [q] is not part of the stroke, and a line whose [q] is not
    after its [p] has no stroke at all.  When curses refuses a cell, the
    window's lower-right cell or a cell outside the window, it raises
    [curses.error] with the stroke written up to that cell.  On an angled
    line it raises "Invalid line orientation: 3" and writes nothing. *)
Theorem draw_line_shows (size : Z * Z) (line : Line.t) (color : option Z)
    (surface : list Draw.addstr_call) :
  curses_line line → curses_attr color →
  match Draw.draw_line size line color surface with
  | (Ok _, surface') =>
      drawable size line ∧
      ∀ x y, Draw.shown surface' x y
             = if stroke line x y then Some (stroke_glyph line)
               else Draw.shown surface x y
  | (Raise e, surface') =>
      (¬ Line.axis_aligned line ∧
       e = Exception "Invalid line orientation: 3" ∧ surface' = surface) ∨
      (Line.axis_aligned line ∧ e = CursesError ∧
       ∃ (before : list (Z * Z)) (cell : Z * Z) (after : list (Z * Z)),
         stroke_cells line = before ++ cell :: after ∧
         Forall (λ c : Z * Z, Draw.writable size c.1 c.2 = true) before ∧
         Draw.writable size cell.1 cell.2 = false ∧
         ∀ x y, Draw.shown surface' x y
                = if bool_decide ((x, y) ∈ before ++ [cell])
                  then Some (stroke_glyph line)
                  else Draw.shown surface x y)
  end.
Proof.
  intros _ _.
  destruct (decide (Line.axis_aligned line)) as [Hal|Hang].
  - rewrite draw_line_run by done.
    destruct (first_refused (λ c : Z * Z, Draw.writable size c.1 c.2)
                (stroke_cells line))
      as [Hall|(before & cell & after & Hcells & Hb & Hc)].
    + rewrite for_put_accepted by done. split; [done|]. intros x y.
      by rewrite shown_run_calls, stroke_cells_spec.
    + rewrite Hcells, for_put_refused by done. right.
      split; [done|]. split; [done|]. exists before, cell, after.
      rewrite <- Hcells. split; [done|]. split; [done|]. split; [done|].
      intros x y. apply shown_run_calls.
  - rewrite draw_line_angled by done. left. done.
Qed.

Lemma draw_line_shows_witness :
  curses_line (Line.mk (Point.mk 1 2) (Point.mk 6 2)) ∧
  curses_attr (Some 13) ∧
  match Draw.draw_line (4, 3) (Line.mk (Point.mk 1 2) (Point.mk 6 2))
                       (Some 13) [] with
  | (Ok _, surface') =>
      drawable (4, 3) (Line.mk (Point.mk 1 2) (Point.mk 6 2)) ∧
      ∀ x y, Draw.shown surface' x y
             = if stroke (Line.mk (Point.mk 1 2) (Point.mk 6 2)) x y
               then Some (stroke_glyph (Line.mk (Point.mk 1 2) (Point.mk 6 2)))
               else Draw.shown [] x y
  | (Raise e, surface') =>
      (¬ Line.axis_aligned (Line.mk (Point.mk 1 2) (Point.mk 6 2)) ∧
       e = Exception "Invalid line orientation: 3" ∧ surface' = []) ∨
      (Line.axis_aligned (Line.mk (Point.mk 1 2) (Point.mk 6 2)) ∧
       e = CursesError ∧
       ∃ (before : list (Z * Z)) (cell : Z * Z) (after : list (Z * Z)),
         stroke_cells (Line.mk (Point.mk 1 2) (Point.mk 6 2))
           = before ++ cell :: after ∧
         Forall (λ c : Z * Z, Draw.writable (4, 3) c.1 c.2 = true) before ∧
         Draw.writable (4, 3) cell.1 cell.2 = false ∧
         ∀ x y, Draw.shown surface' x y
                = if bool_decide ((x, y) ∈ before ++ [cell])
                  then Some (stroke_glyph (Line.mk (Point.mk 1 2) (Point.mk 6 2)))
                  else Draw.shown [] x y)
  end.
Proof.
  split; [unfold curses_line, c_int; simpl; lia|].
  split; [unfold curses_attr, c_long; lia|].
  apply (draw_line_shows (4, 3) (Line.mk (Point.mk 1 2) (Point.mk 6 2))
           (Some 13) []).
  - unfold curses_line, c_int; simpl; lia.
  - unfold curses_attr, c_long; lia.
Defined.

(** The run behind the witness: on the bottom row of a window 4 wide and 3
    high, the third write is the one at the lower-right cell, and the loop
    ends there. *)
Example draw_line_lower_right :
  Draw.draw_line (4, 3) (Line.mk (Point.mk 1 2) (Point.mk 6 2)) (Some 13) []
  = (Raise CursesError,
     [ Draw.Addstr 2 1 "─" (Some 13); Draw.Addstr 2 2 "─" (Some 13);
       Draw.Addstr 2 3 "─" (Some 13) ]).
Proof. reflexivity. Qed.






(** Two lines that cross inside a window 10 wide and 6 high: both strokes,
    then the junction. *)
Example draw_crossing :
  Draw.draw_lines (10, 6) [crossing_h; crossing_v] None []
  = (Ok tt,
     [ Draw.Addstr 2 0 "─" None; Draw.Addstr 2 1 "─" None;
       Draw.Addstr 2 2 "─" None; Draw.Addstr 2 3 "─" None;
       Draw.Addstr 2 4 "─" None; Draw.Addstr 2 5 "─" None;
       Draw.Addstr 2 6 "─" None; Draw.Addstr 2 7 "─" None;
       Draw.Addstr 2 8 "─" None;
       Draw.Addstr 0 4 "│" None; Draw.Addstr 1 4 "│" None;
       Draw.Addstr 2 4 "│" None; Draw.Addstr 3 4 "│" None;
       Draw.Addstr 4 4 "│" None;
       Draw.Addstr 2 4 "┼" None ]).
Proof. reflexivity. Qed.

Lemma frame_lines_drawable (width height : Z) :
  2 <= width → 2 <= height →
  Forall (drawable (width, height)) (LayoutNode.border_lines width height).
Proof.
  intros Hw Hh. unfold LayoutNode.border_lines.
  repeat (apply Forall_cons; split); [..|apply Forall_nil]; split.
  all: try (unfold Line.axis_aligned, Line.orientation, Line.vertical,
              Line.horizontal; simpl;
            repeat case_bool_decide; (discriminate || lia)).
  all: unfold stroke_cells, Line.vertical;
    cbn [Line.p Line.q Point.x Point.y].
  all: repeat case_bool_decide; try lia.
  all: apply Forall_fmap, Forall_forall; intros z Hz%elem_of_seqZ.
  all: unfold compose; cbn [fst snd]; apply writable_spec; lia.
Qed.

(** Drawing the border lines of a pane at least 2 wide and 2 high on its
    own window draws its whole frame: the four corner glyphs at the four
    corners, the horizontal glyph along the top and bottom rows and the
    vertical glyph along the left and right columns between them; every
    other cell shows what it showed before. *)
Theorem draw_lines_frame (width height : Z) (color : option Z)
    (surface : list Draw.addstr_call) :
  2 <= width → 2 <= height →
  ∃ surface',
    Draw.draw_lines (width, height) (Draw.border_objects width height) color
                    surface
      = (Ok tt, surface') ∧
    ∀ x y, Draw.shown surface' x y
           = match frame width height x y with
             | Some glyph => Some glyph
             | None => Draw.shown surface x y
             end.
Proof.
  intros Hw Hh. unfold Draw.draw_lines.
  pose proof (frame_lines_drawable width height Hw Hh) as Hd.
  unfold Draw.border_objects, LayoutNode.border_lines in *. simpl imap.
  inversion Hd as [|? ? Ht Hd1]; subst. inversion Hd1 as [|? ? Hb Hd2]; subst.
  inversion Hd2 as [|? ? Hl Hd3]; subst. inversion Hd3 as [|? ? Hr _]; subst.
  clear Hd Hd1 Hd2 Hd3.
  destruct (draw_line_drawn _ _ color surface Ht) as (s1 & Hs1 & Sh1).
  destruct (draw_line_drawn _ _ color s1 Hb) as (s2 & Hs2 & Sh2).
  destruct (draw_line_drawn _ _ color s2 Hl) as (s3 & Hs3 & Sh3).
  destruct (draw_line_drawn _ _ color s3 Hr) as (s4 & Hs4 & Sh4).
  unfold mbind at 1. unfold Draw.M_bind at 1.
  rewrite (for_cons_ok _ _ _ _ s1) by exact Hs1.
  rewrite (for_cons_ok _ _ _ _ s2) by exact Hs2.
  rewrite (for_cons_ok _ _ _ _ s3) by exact Hs3.
  rewrite (for_cons_ok _ _ _ _ s4) by exact Hs4.
  simpl Draw.for_ at 1. unfold mret at 1. unfold Draw.M_ret at 1.
  unfold mbind at 1. unfold Draw.M_bind at 1. unfold Draw.lift.
  pose proof (border_junctions width height Hw Hh) as Hj.
  unfold Draw.border_objects, LayoutNode.border_lines in Hj. simpl imap in Hj.
  rewrite Hj.
  assert (∀ s0 x' y' g,
            (Draw.try_pass
               (if Draw.truthy_color color
                then Draw.put (width, height) x' y' g color
                else Draw.put (width, height) x' y' g None) s0)
            = (Ok tt, s0 ++ run_calls [(x', y')] g color)) as Hput.
  { intros. unfold Draw.try_pass.
    destruct (Draw.truthy_color color) eqn:Ec; rewrite put_value; [done|].
    unfold run_calls. simpl. by rewrite Ec. }
  match goal with |- context [Draw.for_ _ ?b _] => set (B := b) end.
  assert (∀ (j : Point.t * string) l s0,
            Draw.for_ (j :: l) B s0
            = Draw.for_ l B
                (s0 ++ run_calls [(Point.x j.1, Point.y j.1)] j.2 color))
    as Hstep.
  { intros j l s0. apply for_cons_ok. unfold B. apply Hput. }
  rewrite !Hstep. cbn [fst snd Point.x Point.y].
  eexists; split; [done|].
  intros x y. unfold frame.
  rewrite !shown_run_calls, Sh4, Sh3, Sh2, Sh1.
  unfold stroke, stroke_glyph, Line.vertical. simpl.
  rewrite (bool_decide_eq_false_2 (0 = width - 1)) by lia.
  rewrite !(bool_decide_eq_true_2 (_ = _)) by done.
  assert (∀ a b : Z, bool_decide ((x, y) ∈ [(a, b)])
                     = bool_decide (a = x ∧ b = y)) as Hone.
  { intros a b. apply bool_decide_ext. rewrite list_elem_of_singleton.
    split; [by intros [= -> ->]|by intros [-> ->]]. }
  rewrite !Hone.
  repeat match goal with
  | |- context [bool_decide ?P] =>
      first [ rewrite (bool_decide_eq_true_2 P) by lia
            | rewrite (bool_decide_eq_false_2 P) by lia
            | destruct (decide P);
              [ rewrite (bool_decide_eq_true_2 P) by done
              | rewrite (bool_decide_eq_false_2 P) by done ] ]
  end; done.
Qed.

Lemma draw_lines_frame_witness :
  2 <= 4 ∧ 2 <= 3 ∧
  ∃ surface',
    Draw.draw_lines (4, 3) (Draw.border_objects 4 3) (Some 13) []
      = (Ok tt, surface') ∧
    ∀ x y, Draw.shown surface' x y
           = match frame 4 3 x y with
             | Some glyph => Some glyph
             | None => Draw.shown [] x y
             end.
Proof.
  split; [lia|]. split; [lia|].
  apply (draw_lines_frame 4 3 (Some 13) []); lia.
Defined.

(** The calls behind the witness: two runs of three, two runs of two, then
    the four corners, the last of them at the window's lower-right cell,
    where curses reports an error that the [except] swallows. *)
Example draw_frame_4_by_3 :
  Draw.draw_lines (4, 3) (Draw.border_objects 4 3) None []
  = (Ok tt,
     [ Draw.Addstr 0 0 "─" None; Draw.Addstr 0 1 "─" None;
       Draw.Addstr 0 2 "─" None;
       Draw.Addstr 2 0 "─" None; Draw.Addstr 2 1 "─" None;
       Draw.Addstr 2 2 "─" None;
       Draw.Addstr 0 0 "│" None; Draw.Addstr 1 0 "│" None;
       Draw.Addstr 0 3 "│" None; Draw.Addstr 1 3 "│" None;
       Draw.Addstr 0 0 "┌" None; Draw.Addstr 0 3 "┐" None;
       Draw.Addstr 2 0 "└" None; Draw.Addstr 2 3 "┘" None ]) ∧
  Draw.writable (4, 3) 3 2 = false.
Proof. split; reflexivity. Qed.

(** ** Offsets of siblings *)

Lemma for_each_app {A S : Type} (l1 l2 : list A) (body : A → S → result S)
    (s : S) :
  for_each (l1 ++ l2) body s = for_each l1 body s ≫= for_each l2 body.
Proof.
  revert s. induction l1 as [|x l1 IH]; intros s; simpl; [done|].
  destruct (body x s); simpl; [apply IH|done].
Qed.

Lemma offset_succ (sizes : nat → result (Z * Z)) (index : nat) (axis : Z) :
  LayoutNode.offset sizes (S index) axis
  = LayoutNode.offset sizes index axis
      ≫= λ offset, sz ← sizes index; d ← tuple_getitem sz axis; Ok (offset + d).
Proof.
  unfold LayoutNode.offset. rewrite seq_S, for_each_app. simpl.
  destruct (for_each _ _ _); simpl; [|done].
  destruct (sizes index); simpl; [|done].
  by destruct (tuple_getitem _ _).
Qed.

(** The offset of the sibling at [index], when the siblings before it have
    the sizes [LayoutNode.tile] gives them. *)
Lemma offset_of_tiles (count : nat) (M : Z) (sizes : nat → result (Z * Z))
    (axis : Z) (index : nat) :
  (1 <= count)%nat → (index <= count)%nat →
  (∀ k, (k < count)%nat →
        ∃ sz, sizes k = Ok sz ∧
              tuple_getitem sz axis
              = Ok (if bool_decide (k = 0%nat)
                    then M / Z.of_nat count
                         + (M - M / Z.of_nat count * Z.of_nat count)
                    else M / Z.of_nat count)) →
  LayoutNode.offset sizes index axis
  = Ok (if bool_decide (index = 0%nat) then 0
        else M - M / Z.of_nat count * Z.of_nat count
             + Z.of_nat index * (M / Z.of_nat count)).
Proof.
  intros Hn Hi Hsizes. induction index as [|i IH]; [done|].
  rewrite offset_succ, IH by lia. simpl.
  destruct (Hsizes i) as (sz & -> & Hsz); [lia|]. simpl. rewrite Hsz. simpl.
  f_equal. repeat case_bool_decide; try lia.
Qed.

Lemma column_size_value (layout : Layout.t) (k : nat) :
  0 <= Layout.width layout → (1 <= length (Layout.children layout))%nat →
  ∃ sz, Layout.column_size layout k = Ok sz ∧
        tuple_getitem sz 0
        = Ok (if bool_decide (k = 0%nat)
              then Layout.width layout / Z.of_nat (length (Layout.children layout))
                   + (Layout.width layout
                      - Layout.width layout
                        / Z.of_nat (length (Layout.children layout))
                        * Z.of_nat (length (Layout.children layout)))
              else Layout.width layout
                   / Z.of_nat (length (Layout.children layout))).
Proof.
  intros Hw Hn. unfold Layout.column_size, Layout.column_width,
    Layout.column_height.
  rewrite (tile_value _ _ k 0 (Layout.width layout)) by done. simpl. eauto.
Qed.



Lemma cell_size_value (layout : Layout.t) (column : LayoutColumn.t)
    (i k : nat) :
  0 <= Layout.width layout → 0 <= Layout.height layout →
  Layout.children layout !! i = Some column →
  (1 <= length (LayoutColumn.children column))%nat →
  ∃ sz, Layout.cell_size layout i k = Ok sz ∧
        0 <= fst sz ∧
        tuple_getitem sz 1
        = Ok (if bool_decide (k = 0%nat)
              then Layout.height layout
                   / Z.of_nat (length (LayoutColumn.children column))
                   + (Layout.height layout
                      - Layout.height layout
                        / Z.of_nat (length (LayoutColumn.children column))
                        * Z.of_nat (length (LayoutColumn.children column)))
              else Layout.height layout
                   / Z.of_nat (length (LayoutColumn.children column))).
Proof.
  intros Hw Hh Hi Hm.
  assert (1 <= length (Layout.children layout))%nat as Hn.
  { apply lookup_lt_Some in Hi. lia. }
  unfold Layout.cell_size, Layout.cell_width, Layout.cell_height,
    Layout.column_size, Layout.column_width, Layout.column_height.
  rewrite Hi, (tile_value _ _ i 0 (Layout.width layout)) by done. simpl.
  rewrite (tile_value _ _ k 1 (Layout.height layout)) by done. simpl.
  eexists; split; [done|]. split; [|done]. simpl.
  pose proof (Z.mod_pos_bound (Layout.width layout)
                (Z.of_nat (length (Layout.children layout))) ltac:(lia)) as Hmod.
  rewrite Z.mod_eq in Hmod by lia.
  assert (0 <= Layout.width layout / Z.of_nat (length (Layout.children layout)))
    by (apply Z.div_pos; lia).
  case_bool_decide; lia.
Qed.



(** ** Resizing a cell's window *)

Lemma Window_init_nonneg (x y w h : Z) :
  0 <= w → 0 <= h →
  Window.init x y w h
  = Window.mk (Point.mk x y) (Point.mk (x + w) (y + h)) (Window.newwin h w y x).
Proof.
  intros Hw Hh. unfold Window.init, Rect.init; simpl.
  by rewrite !Z.min_l, !Z.max_r by lia.
Qed.

Lemma newwin_ok_spec (cols lines nlines ncols y x : Z) :
  Curses.newwin_ok (cols, lines) nlines ncols y x = true
  ↔ 0 <= y ∧ 0 <= x ∧ 0 <= nlines ∧ 0 <= ncols ∧
    1 <= (if nlines =? 0 then lines - y else nlines) <= Curses.DIMENSION_LIMIT ∧
    1 <= (if ncols =? 0 then cols - x else ncols) <= Curses.DIMENSION_LIMIT.
Proof.
  unfold Curses.newwin_ok. rewrite !andb_true_iff, !Z.leb_le. tauto.
Qed.

Lemma resize_ok_spec (nlines ncols : Z) :
  Curses.resize_ok nlines ncols = true ↔ 1 <= nlines ∧ 1 <= ncols.
Proof. unfold Curses.resize_ok. by rewrite andb_true_iff, !Z.leb_le. Qed.

Lemma mvwin_ok_spec (cols lines nlines ncols y x : Z) :
  Curses.mvwin_ok (cols, lines) nlines ncols y x = true
  ↔ 0 <= y ∧ 0 <= x ∧ y + nlines <= lines ∧ x + ncols <= cols.
Proof.
  unfold Curses.mvwin_ok. rewrite !andb_true_iff, !Z.leb_le. tauto.
Qed.

(** Origin and size of a cell, in closed form. *)
Lemma cell_geometry_value (layout : Layout.t) (column : LayoutColumn.t)
    (i j : nat) :
  0 <= Layout.width layout → 0 <= Layout.height layout →
  Layout.children layout !! i = Some column →
  (j < length (LayoutColumn.children column))%nat →
  Layout.cell_origin layout i j
  = Ok (tile_offset (length (Layout.children layout)) (Layout.width layout) i,
        tile_offset (length (LayoutColumn.children column))
                    (Layout.height layout) j) ∧
  Layout.cell_size layout i j
  = Ok (tile_size (length (Layout.children layout)) (Layout.width layout) i,
        tile_size (length (LayoutColumn.children column))
                  (Layout.height layout) j).
Proof.
  intros Hw Hh Hi Hj.
  assert (1 <= length (LayoutColumn.children column))%nat as Hm by lia.
  assert (i < length (Layout.children layout))%nat as Hn
    by (by eapply lookup_lt_Some).
  unfold Layout.cell_origin, Layout.column_offset, Layout.cell_offset.
  rewrite (offset_of_tiles (length (Layout.children layout))
             (Layout.width layout) (Layout.column_size layout) 0 i).
  2,3: lia.
  2: intros k _; apply column_size_value; [done|lia].
  rewrite (offset_of_tiles (length (LayoutColumn.children column))
             (Layout.height layout) (Layout.cell_size layout i) 1 j).
  2,3: lia.
  2: intros k _; destruct (cell_size_value layout column i k)
       as (sz & ? & _ & ?); eauto.
  split; [done|].
  unfold Layout.cell_size, Layout.cell_width, Layout.cell_height,
    Layout.column_size, Layout.column_width, Layout.column_height.
  rewrite Hi, (tile_value _ _ i 0 (Layout.width layout)) by (done || lia).
  simpl.
  by rewrite (tile_value _ _ j 1 (Layout.height layout)) by (done || lia).
Qed.

(** Tiles of an extent that has room for every sibling: each at least 1,
    all within the extent. *)
Lemma tile_inside (count : nat) (M : Z) (index : nat) :
  (index < count)%nat → Z.of_nat count <= M →
  0 <= tile_offset count M index ∧ 1 <= tile_size count M index ∧
  tile_offset count M index + tile_size count M index <= M.
Proof.
  intros Hi HM. unfold tile_offset, tile_size.
  assert (1 <= M / Z.of_nat count) as Hq by (apply Z.div_le_lower_bound; lia).
  pose proof (Z.mod_pos_bound M (Z.of_nat count) ltac:(lia)) as Hmod.
  rewrite Z.mod_eq in Hmod by lia.
  set (q := M / Z.of_nat count) in *.
  assert (Z.of_nat count * q = q * Z.of_nat count) as Hc by lia.
  assert (Z.of_nat index + 1 <= Z.of_nat count) as Hle by lia.
  case_bool_decide; repeat split; try lia; nia.
Qed.

(** Tiles of an extent that has no room for every sibling: a sibling of
    size 0 sits at the end of the extent. *)
Lemma tile_squeezed (count : nat) (M : Z) :
  (1 <= count)%nat → 0 <= M < Z.of_nat count →
  ∃ index : nat,
    (index < count)%nat ∧ tile_size count M index = 0 ∧
    tile_offset count M index = M.
Proof.
  intros Hn HM. unfold tile_offset, tile_size.
  rewrite Z.div_small by lia.
  destruct (decide (M = 0)) as [->|HM0].
  - exists 0%nat. split; [lia|]. by rewrite !bool_decide_eq_true_2.
  - exists 1%nat. split; [lia|]. rewrite !bool_decide_eq_false_2 by lia. lia.
Qed.

(** [LayoutCell.resize] on a screen of at most 32767 columns and lines
    with a column for every column of the layout and a line for every cell
    of the column: it brings any window of the cell to the cell's origin
    and gives its curses window the cell's geometry, but leaves the corner
    [q] measured from the window's old origin; a second [resize] sets [q]
    too, and the result is the window [create_window] builds, which
    further resizes leave as it is. *)
Theorem cell_resize_settles (layout : Layout.t) (column : LayoutColumn.t)
    (i j : nat) (window : Window.t) :
  Z.of_nat (length (Layout.children layout)) <= Layout.width layout
    <= Curses.DIMENSION_LIMIT →
  Z.of_nat (length (LayoutColumn.children column)) <= Layout.height layout
    <= Curses.DIMENSION_LIMIT →
  Layout.children layout !! i = Some column →
  (j < length (LayoutColumn.children column))%nat →
  ∃ built once : Window.t,
    Layout.cell_create_window layout i j = Ok built ∧
    on_screen (Layout.size layout) built ∧
    Layout.cell_resize layout i j window = Ok once ∧
    Window.p once = Window.p built ∧
    Window.window once = Window.window built ∧
    Window.q once
      = Point.add (Window.p window)
                  (Point.mk (Rect.width (Window.rect built))
                            (Rect.height (Window.rect built))) ∧
    Layout.cell_resize layout i j once = Ok built ∧
    Layout.cell_resize layout i j built = Ok built.
Proof.
  intros Hw Hh Hi Hj.
  assert (i < length (Layout.children layout))%nat as Hn
    by (by eapply lookup_lt_Some).
  destruct (cell_geometry_value layout column i j) as [Ho Hs];
    [lia|lia|done|done|].
  destruct (tile_inside _ (Layout.width layout) i Hn ltac:(lia))
    as (Hx & Hw1 & Hxw).
  destruct (tile_inside _ (Layout.height layout) j Hj ltac:(lia))
    as (Hy & Hh1 & Hyh).
  set (x := tile_offset _ (Layout.width layout) i) in *.
  set (y := tile_offset _ (Layout.height layout) j) in *.
  set (w := tile_size _ (Layout.width layout) i) in *.
  set (h := tile_size _ (Layout.height layout) j) in *.
  clearbody x y w h.
  unfold Layout.cell_create_window, Layout.cell_resize.
  rewrite Ho, Hs.
  cbn -[Curses.newwin_ok Curses.resize_ok Curses.mvwin_ok].
  unfold Layout.width, Layout.height in *.
  destruct (Layout.size layout) as [W H] eqn:Hsize. cbn [fst snd] in *.
  assert (Curses.newwin_ok (W, H) h w y x = true) as ->.
  { apply newwin_ok_spec.
    destruct (Z.eqb_spec h 0), (Z.eqb_spec w 0); lia. }
  assert (Curses.resize_ok h w = true) as -> by (apply resize_ok_spec; lia).
  assert (Curses.mvwin_ok (W, H) h w y x = true) as ->
    by (apply mvwin_ok_spec; lia).
  simpl. rewrite Window_init_nonneg by lia.
  eexists _, _. split; [done|].
  unfold on_screen, Window.move, Window.resize, Rect.width, Rect.height,
    Point.add; simpl.
  split; [lia|]. split; [done|]. simpl.
  repeat split; repeat f_equal; lia.
Qed.

Lemma cell_resize_settles_witness :
  Z.of_nat (length (Layout.children three_columns))
    <= Layout.width three_columns <= Curses.DIMENSION_LIMIT ∧
  Z.of_nat (length (LayoutColumn.children two_cells))
    <= Layout.height three_columns <= Curses.DIMENSION_LIMIT ∧
  Layout.children three_columns !! 1%nat = Some two_cells ∧
  (1 < length (LayoutColumn.children two_cells))%nat ∧
  ∃ built once : Window.t,
    Layout.cell_create_window three_columns 1 1 = Ok built ∧
    on_screen (Layout.size three_columns) built ∧
    Layout.cell_resize three_columns 1 1 (Window.init 5 5 10 10) = Ok once ∧
    Window.p once = Window.p built ∧
    Window.window once = Window.window built ∧
    Window.q once
      = Point.add (Window.p (Window.init 5 5 10 10))
                  (Point.mk (Rect.width (Window.rect built))
                            (Rect.height (Window.rect built))) ∧
    Layout.cell_resize three_columns 1 1 once = Ok built ∧
    Layout.cell_resize three_columns 1 1 built = Ok built.
Proof.
  split; [vm_compute; split; discriminate|].
  split; [vm_compute; split; discriminate|].
  split; [reflexivity|]. split; [vm_compute; lia|].
  apply (cell_resize_settles three_columns two_cells 1 1
           (Window.init 5 5 10 10));
    [vm_compute; split; discriminate|vm_compute; split; discriminate
    |reflexivity|vm_compute; lia].
Defined.

(** Without that room curses refuses: the second of three columns on a
    terminal 2 columns wide has width 0, and neither its window nor a
    resize of a window to it is accepted. *)
Example cell_window_refused :
  Layout.cell_size (single_cells (2, 24) 3) 1 0 = Ok (0, 24) ∧
  Layout.cell_origin (single_cells (2, 24) 3) 1 0 = Ok (2, 0) ∧
  Layout.cell_create_window (single_cells (2, 24) 3) 1 0 = Raise CursesError ∧
  Layout.cell_resize (single_cells (2, 24) 3) 1 0 (Window.init 0 0 1 24)
    = Raise CursesError.
Proof. repeat split; reflexivity. Qed.

(** ** Scrolling *)

Ltac no_conditional t :=
  lazymatch t with
  | context [if _ then _ else _] => fail
  | _ => idtac
  end.

Ltac scroll_cases :=
  unfold Scroll.scroll; rewrite ?Z.geb_leb, ?Z.gtb_ltb; cbv zeta;
  repeat match goal with
  | |- context [?u <=? ?v] =>
      no_conditional u; no_conditional v; destruct (Z.leb_spec u v); try lia
  | |- context [?u <? ?v] =>
      no_conditional u; no_conditional v; destruct (Z.ltb_spec u v); try lia
  end.

(** While the cursor is not within [offset] rows of the end of the list,
    [scroll] returns a top row that is never negative and keeps the cursor
    at most [limit - offset] rows below it; the cursor is also at least
    [offset] rows below it, except that the top row stops at 0. *)
Theorem scroll_keeps_cursor_in_view (scroll cursor offset limit items : Z) :
  cursor + offset < items → 2 * offset <= limit →
  0 <= Scroll.scroll scroll cursor offset limit items ∧
  cursor - Scroll.scroll scroll cursor offset limit items <= limit - offset ∧
  (offset <= cursor - Scroll.scroll scroll cursor offset limit items ∨
   Scroll.scroll scroll cursor offset limit items = 0).
Proof. intros Hend Hroom. scroll_cases; lia. Qed.

Lemma scroll_keeps_cursor_in_view_witness :
  12 + 5 < 40 ∧ 2 * 5 <= 20 ∧
  0 <= Scroll.scroll 0 12 5 20 40 ∧
  12 - Scroll.scroll 0 12 5 20 40 <= 20 - 5 ∧
  (5 <= 12 - Scroll.scroll 0 12 5 20 40 ∨ Scroll.scroll 0 12 5 20 40 = 0).
Proof.
  split; [lia|]. split; [lia|].
  apply (scroll_keeps_cursor_in_view 0 12 5 20 40); lia.
Defined.

(** [scroll] is never negative; once the cursor is within [offset] rows of
    the end it pins the view to the last [limit] rows, whatever the old top
    row; and scrolling again with the result changes nothing. *)
Theorem scroll_settles (scroll cursor offset limit items : Z) :
  0 <= Scroll.scroll scroll cursor offset limit items ∧
  (items <= cursor + offset →
   Scroll.scroll scroll cursor offset limit items = Z.max 0 (items - limit)) ∧
  Scroll.scroll (Scroll.scroll scroll cursor offset limit items)
                cursor offset limit items
  = Scroll.scroll scroll cursor offset limit items.
Proof.
  split; [scroll_cases; lia|]. split; [intros; scroll_cases; lia|].
  scroll_cases; lia.
Qed.

(** ** Rectangles *)

(** [Rect.__init__] builds the same rectangle from either diagonal, in
    either order, and its width and height are the distances between the
    corners along each axis. *)
Theorem Rect_init_any_corners (p q : Point.t) :
  Rect.init q p = Rect.init p q ∧
  Rect.init (Point.mk (Point.x p) (Point.y q)) (Point.mk (Point.x q) (Point.y p))
    = Rect.init p q ∧
  Rect.width (Rect.init p q) = Z.abs (Point.x q - Point.x p) ∧
  Rect.height (Rect.init p q) = Z.abs (Point.y q - Point.y p).
Proof.
  destruct p as [px py], q as [qx qy].
  unfold Rect.init, Rect.width, Rect.height; simpl.
  repeat split; [do 2 f_equal; lia | do 2 f_equal; lia | lia | lia].
Qed.

(** [Rect.__add__] translates a rectangle whose corners are in order: both
    corners move by the point, the size stays, and two translations add
    up. *)
Theorem Rect_add_translates (r : Rect.t) (d e : Point.t) :
  Rect.normalized r →
  Rect.p (Rect.add r d) = Point.add (Rect.p r) d ∧
  Rect.q (Rect.add r d) = Point.add (Rect.q r) d ∧
  Rect.width (Rect.add r d) = Rect.width r ∧
  Rect.height (Rect.add r d) = Rect.height r ∧
  Rect.add (Rect.add r d) e = Rect.add r (Point.add d e).
Proof.
  destruct r as [[px py] [qx qy]], d as [dx dy], e as [ex ey].
  unfold Rect.normalized, Point.le, Rect.add, Rect.init, Rect.width,
    Rect.height, Point.add; simpl.
  intros [Hx Hy].
  repeat split; [f_equal; lia | f_equal; lia | lia | lia | do 2 f_equal; lia].
Qed.

Lemma Rect_add_translates_witness :
  Rect.normalized (Rect.init (Point.mk 3 1) (Point.mk 0 4)) ∧
  Rect.p (Rect.add (Rect.init (Point.mk 3 1) (Point.mk 0 4)) (Point.mk 10 20))
    = Point.add (Rect.p (Rect.init (Point.mk 3 1) (Point.mk 0 4))) (Point.mk 10 20) ∧
  Rect.q (Rect.add (Rect.init (Point.mk 3 1) (Point.mk 0 4)) (Point.mk 10 20))
    = Point.add (Rect.q (Rect.init (Point.mk 3 1) (Point.mk 0 4))) (Point.mk 10 20) ∧
  Rect.width (Rect.add (Rect.init (Point.mk 3 1) (Point.mk 0 4)) (Point.mk 10 20))
    = Rect.width (Rect.init (Point.mk 3 1) (Point.mk 0 4)) ∧
  Rect.height (Rect.add (Rect.init (Point.mk 3 1) (Point.mk 0 4)) (Point.mk 10 20))
    = Rect.height (Rect.init (Point.mk 3 1) (Point.mk 0 4)) ∧
  Rect.add (Rect.add (Rect.init (Point.mk 3 1) (Point.mk 0 4)) (Point.mk 10 20))
           (Point.mk 1 1)
    = Rect.add (Rect.init (Point.mk 3 1) (Point.mk 0 4))
               (Point.add (Point.mk 10 20) (Point.mk 1 1)).
Proof.
  split; [unfold Rect.normalized, Point.le; simpl; lia|].
  apply (Rect_add_translates (Rect.init (Point.mk 3 1) (Point.mk 0 4))
           (Point.mk 10 20) (Point.mk 1 1)).
  unfold Rect.normalized, Point.le; simpl; lia.
Defined.

(** [Rect.contains] never answers [True]: it answers [False] for a point
    left of or above [p] or right of [q], and for every other point, the
    points of the rectangle among them, it raises [NameError]. *)
Theorem Rect_contains_never_true (r : Rect.t) (pt : Point.t) :
  Geometry.contains r pt ≠ Some true ∧
  (Geometry.contains r pt = None ↔
     Point.x (Rect.p r) <= Point.x pt ∧ Point.y (Rect.p r) <= Point.y pt ∧
     Point.x pt <= Point.x (Rect.q r)) ∧
  (Geometry.contains r pt = Some false ↔
     Point.x pt < Point.x (Rect.p r) ∨ Point.y pt < Point.y (Rect.p r) ∨
     Point.x (Rect.q r) < Point.x pt).
Proof.
  unfold Geometry.contains. rewrite Z.geb_leb.
  repeat match goal with
  | |- context [?u <=? ?v] => destruct (Z.leb_spec u v)
  end; simpl; repeat split; intros; try done; try lia.
Qed.

(** Assigning a coordinate of a point and reading it back: the positions 0
    and 1 are the only ones, the assigned coordinate reads back and the
    other one is kept. *)
Theorem Point_setitem_getitem (pt : Point.t) (index value : Z) :
  match Geometry.setitem pt index value with
  | Some pt' =>
      (index = 0 ∨ index = 1) ∧
      Point.getitem pt' index = Ok value ∧
      Point.getitem pt' (1 - index) = Point.getitem pt (1 - index)
  | None =>
      index ≠ 0 ∧ index ≠ 1 ∧ Point.getitem pt index = Raise TypeError
  end.
Proof.
  unfold Geometry.setitem, Point.getitem.
  destruct (Z.eqb_spec index 0) as [->|H0]; [by auto|].
  destruct (Z.eqb_spec index 1) as [->|H1]; [by auto|]. done.
Qed.

(** ** Modal popups *)

(** The focus mode of a modal popup stays one of the three modes, [Tab]
    goes round them in the order content, accept, cancel, and back-tab
    undoes a [Tab]. *)
Theorem mode_cycle (mode : Z) :
  0 <= Modal.mode_next mode < 3 ∧ 0 <= Modal.mode_prev mode < 3 ∧
  Modal.mode_next Modal.WIDGET = Modal.ACCEPT ∧
  Modal.mode_next Modal.ACCEPT = Modal.CANCEL ∧
  Modal.mode_next Modal.CANCEL = Modal.WIDGET ∧
  (0 <= mode < 3 →
   Modal.mode_prev (Modal.mode_next mode) = mode ∧
   Modal.mode_next (Modal.mode_prev mode) = mode ∧
   Modal.mode_next (Modal.mode_next (Modal.mode_next mode)) = mode).
Proof.
  unfold Modal.mode_next, Modal.mode_prev.
  split; [apply Z.mod_pos_bound; lia|].
  split; [apply Z.mod_pos_bound; lia|].
  do 3 (split; [reflexivity|]).
  intros Hm.
  assert (mode = 0 ∨ mode = 1 ∨ mode = 2) as [E|[E|E]] by lia; by subst.
Qed.

(** A popup no larger than its owner, the owner's size being below [2^53]
    so that the halves are exact, is centered inside it: it lies within the
    owner's size and the margins on opposite sides differ by at most one
    cell. *)
Theorem centered_inside (w h width height : Z) :
  0 <= width <= w → 0 <= height <= h → w < 2 ^ 53 → h < 2 ^ 53 →
  ∃ x y : Z,
    Modal.centered (w, h) width height = (x, y, width, height) ∧
    0 <= x ∧ x + width <= w ∧ Z.abs (x - (w - (x + width))) <= 1 ∧
    0 <= y ∧ y + height <= h ∧ Z.abs (y - (h - (y + height))) <= 1.
Proof.
  intros Hw Hh _ _. unfold Modal.centered. eexists _, _. split; [done|].
  rewrite !Z.quot_div_nonneg by lia.
  pose proof (Z.div_mod w 2 ltac:(lia)).
  pose proof (Z.div_mod width 2 ltac:(lia)).
  pose proof (Z.div_mod h 2 ltac:(lia)).
  pose proof (Z.div_mod height 2 ltac:(lia)).
  pose proof (Z.mod_pos_bound w 2 ltac:(lia)).
  pose proof (Z.mod_pos_bound width 2 ltac:(lia)).
  pose proof (Z.mod_pos_bound h 2 ltac:(lia)).
  pose proof (Z.mod_pos_bound height 2 ltac:(lia)).
  assert (width / 2 <= w / 2) by (apply Z.div_le_mono; lia).
  assert (height / 2 <= h / 2) by (apply Z.div_le_mono; lia).
  lia.
Qed.

Lemma centered_inside_witness :
  0 <= 80 <= 121 ∧ 0 <= 3 <= 40 ∧ 121 < 2 ^ 53 ∧ 40 < 2 ^ 53 ∧
  ∃ x y : Z,
    Modal.centered (121, 40) 80 3 = (x, y, 80, 3) ∧
    0 <= x ∧ x + 80 <= 121 ∧ Z.abs (x - (121 - (x + 80))) <= 1 ∧
    0 <= y ∧ y + 3 <= 40 ∧ Z.abs (y - (40 - (y + 3))) <= 1.
Proof.
  split; [lia|]. split; [lia|]. split; [lia|]. split; [lia|].
  apply (centered_inside 121 40 80 3); lia.
Defined.

(** ** Focus cursors *)

Lemma index_lookup (children : list nat) (x i : nat) :
  Focus.index children x = Some i → children !! i = Some x.
Proof.
  revert i. induction children as [|c l IH]; intros i; simpl; [done|].
  case_bool_decide; simplify_eq.
  - by intros [= <-].
  - destruct (Focus.index l x) as [k|] eqn:E; simpl; [|done].
    intros [= <-]. simpl. by apply IH.
Qed.

Lemma index_first (children : list nat) (x i : nat) :
  NoDup children → children !! i = Some x → Focus.index children x = Some i.
Proof.
  intros Hnd. revert i. induction Hnd as [|c l Hc Hnd IH]; intros i; simpl;
    [done|].
  destruct i as [|i]; simpl.
  - intros [= ->]. by rewrite bool_decide_eq_true_2.
  - intros Hi. rewrite bool_decide_eq_false_2.
    + by rewrite (IH i Hi).
    + intros ->. apply Hc. by eapply list_elem_of_lookup_2.
Qed.

Lemma child_in_range (children : list nat) (i : nat) :
  (i < length children)%nat →
  Focus.child children (Z.of_nat i) = children !! i.
Proof.
  intros Hi. unfold Focus.child.
  destruct (Z.leb_spec 0 (Z.of_nat i)); [|lia].
  destruct (Z.ltb_spec (Z.of_nat i) (Z.of_nat (length children))); [|lia].
  simpl. by rewrite Nat2Z.id.
Qed.

Lemma cursor_next_value (children : list nat) (c i : nat) :
  NoDup children → children !! i = Some c →
  Focus.cursor_next children c = children !! (S i mod length children)%nat.
Proof.
  intros Hnd Hi. unfold Focus.cursor_next.
  rewrite (index_first _ _ _ Hnd Hi). simpl.
  pose proof (lookup_lt_Some _ _ _ Hi) as Hlt.
  rewrite bool_decide_eq_false_2 by lia.
  replace (Z.of_nat i + 1) with (Z.of_nat (S i)) by lia.
  rewrite <- Nat2Z.inj_mod. apply child_in_range.
  apply Nat.mod_upper_bound. lia.
Qed.

Lemma cursor_prev_value (children : list nat) (c i : nat) :
  NoDup children → children !! i = Some c →
  Focus.cursor_prev children c
  = children !! ((i + length children - 1) mod length children)%nat.
Proof.
  intros Hnd Hi. unfold Focus.cursor_prev.
  rewrite (index_first _ _ _ Hnd Hi). simpl.
  pose proof (lookup_lt_Some _ _ _ Hi) as Hlt.
  rewrite bool_decide_eq_false_2 by lia.
  replace ((Z.of_nat i - 1) `mod` Z.of_nat (length children))
    with (Z.of_nat ((i + length children - 1) mod length children)).
  - apply child_in_range. apply Nat.mod_upper_bound. lia.
  - rewrite Nat2Z.inj_mod.
    replace (Z.of_nat (i + length children - 1))
      with (Z.of_nat i - 1 + 1 * Z.of_nat (length children)) by lia.
    by rewrite Z_mod_plus_full.
Qed.

Lemma mod_lookup (children : list nat) (k : nat) :
  (0 < length children)%nat →
  is_Some (children !! (k mod length children)%nat).
Proof.
  intros Hn. apply lookup_lt_is_Some. apply Nat.mod_upper_bound. lia.
Qed.

(** On a node whose children are distinct objects, with the cursor on one
    of them: [cursor_next] moves to the following child and from the last
    to the first, [cursor_prev] undoes it and [cursor_next] undoes
    [cursor_prev]. *)
Theorem cursor_next_prev (children : list nat) (c i : nat) :
  NoDup children → children !! i = Some c →
  ∃ nxt prv : nat,
    Focus.cursor_next children c = Some nxt ∧
    children !! (S i mod length children)%nat = Some nxt ∧
    Focus.cursor_prev children nxt = Some c ∧
    Focus.cursor_prev children c = Some prv ∧
    Focus.cursor_next children prv = Some c.
Proof.
  intros Hnd Hi.
  pose proof (lookup_lt_Some _ _ _ Hi) as Hlt.
  destruct (mod_lookup children (S i)) as [nxt Hn]; [lia|].
  destruct (mod_lookup children (i + length children - 1)) as [prv Hp]; [lia|].
  exists nxt, prv.
  rewrite (cursor_next_value _ _ _ Hnd Hi), Hn.
  rewrite (cursor_prev_value _ _ _ Hnd Hn).
  rewrite (cursor_prev_value _ _ _ Hnd Hi), Hp.
  rewrite (cursor_next_value _ _ _ Hnd Hp).
  assert (((S i mod length children + length children - 1)
             mod length children = i)%nat) as ->.
  { destruct (decide (S i = length children)) as [E|E].
    - rewrite E, Nat.Div0.mod_same. simpl.
      rewrite Nat.mod_small by lia. lia.
    - rewrite (Nat.mod_small (S i)) by lia.
      replace (S i + length children - 1)%nat
        with (i + 1 * length children)%nat by lia.
      rewrite Nat.Div0.mod_add. apply Nat.mod_small. lia. }
  assert ((S ((i + length children - 1) mod length children)
             mod length children = i)%nat) as ->.
  { destruct i as [|i].
    - simpl. rewrite (Nat.mod_small (length children - 1)) by lia.
      replace (S (length children - 1)) with (length children) by lia.
      apply Nat.Div0.mod_same.
    - replace (S i + length children - 1)%nat
        with (i + 1 * length children)%nat by lia.
      rewrite Nat.Div0.mod_add, (Nat.mod_small i) by lia.
      apply Nat.mod_small. lia. }
  by rewrite Hi.
Qed.

Lemma cursor_next_prev_witness :
  NoDup [10; 11; 12]%nat ∧ [10; 11; 12]%nat !! 2%nat = Some 12%nat ∧
  ∃ nxt prv : nat,
    Focus.cursor_next [10; 11; 12]%nat 12 = Some nxt ∧
    [10; 11; 12]%nat !! (3 mod length [10; 11; 12]%nat)%nat = Some nxt ∧
    Focus.cursor_prev [10; 11; 12]%nat nxt = Some 12%nat ∧
    Focus.cursor_prev [10; 11; 12]%nat 12 = Some prv ∧
    Focus.cursor_next [10; 11; 12]%nat prv = Some 12%nat.
Proof.
  assert (NoDup [10; 11; 12]%nat) as Hnd
    by (apply (@bool_decide_unpack (NoDup [10; 11; 12]%nat) _); vm_compute; exact I).
  split; [exact Hnd|]. split; [reflexivity|].
  apply (cursor_next_prev [10; 11; 12]%nat 12 2 Hnd). reflexivity.
Defined.

Lemma cursor_next_times_value (children : list nat) (c i k : nat) :
  NoDup children → children !! i = Some c →
  cursor_next_times k children c
  = children !! ((i + k) mod length children)%nat.
Proof.
  intros Hnd Hi. pose proof (lookup_lt_Some _ _ _ Hi) as Hlt.
  induction k as [|k IH].
  - simpl. by rewrite Nat.add_0_r, Nat.mod_small.
  - unfold cursor_next_times in *. simpl. rewrite IH.
    destruct (mod_lookup children (i + k)) as [x Hx]; [lia|].
    rewrite Hx. simpl. rewrite (cursor_next_value _ _ _ Hnd Hx).
    f_equal.
    replace (i + S k)%nat with (S (i + k)) by lia.
    rewrite <- (Nat.add_1_r ((i + k) mod length children)).
    rewrite <- (Nat.add_1_r (i + k)).
    by rewrite Nat.Div0.add_mod_idemp_l.
Qed.

(** Focus wraps around: on a node whose children are distinct objects, as
    many calls of [cursor_next] as it has children bring the cursor back
    to the child it started on. *)
Theorem cursor_next_wraps (children : list nat) (c i : nat) :
  NoDup children → children !! i = Some c →
  cursor_next_times (length children) children c = Some c.
Proof.
  intros Hnd Hi. pose proof (lookup_lt_Some _ _ _ Hi) as Hlt.
  rewrite (cursor_next_times_value _ _ i) by done.
  replace (i + length children)%nat with (i + 1 * length children)%nat by lia.
  by rewrite Nat.Div0.mod_add, Nat.mod_small.
Qed.

Lemma cursor_next_wraps_witness :
  NoDup [10; 11; 12]%nat ∧ [10; 11; 12]%nat !! 1%nat = Some 11%nat ∧
  cursor_next_times (length [10; 11; 12]%nat) [10; 11; 12]%nat 11 = Some 11%nat.
Proof.
  assert (NoDup [10; 11; 12]%nat) as Hnd
    by (apply (@bool_decide_unpack (NoDup [10; 11; 12]%nat) _); vm_compute; exact I).
  split; [exact Hnd|]. split; [reflexivity|].
  apply (cursor_next_wraps [10; 11; 12]%nat 11 1 Hnd). reflexivity.
Defined.

(** Distinctness is needed: a cell that lists one view twice in a row
    never leaves it, [cursor_next] finding the view at its first position
    each time. *)
Example cursor_next_stuck :
  Focus.cursor_next [10; 10; 11]%nat 10 = Some 10%nat ∧
  cursor_next_times 3 [10; 10; 11]%nat 10 = Some 10%nat ∧
  ∀ k, cursor_next_times k [10; 10; 11]%nat 10 ≠ Some 11%nat.
Proof.
  split; [reflexivity|]. split; [reflexivity|].
  intros k. assert (cursor_next_times k [10; 10; 11]%nat 10 = Some 10%nat) as ->.
  { induction k as [|k IH]; [done|].
    unfold cursor_next_times in *. simpl. by rewrite IH. }
  done.
Qed.

(** ** Closing a popup *)



(** [Layout.popup_del] on a layout whose slot refers to a popup with a
    window drops that window and leaves the slot empty, present and
    [None]; on a layout whose slot is already [None] it raises
    [AttributeError] and changes nothing. *)
Theorem popup_del_empties_slot (σ : Popup.state) (self : nat) :
  (∀ p : nat,
     p ≠ self → Popup.slot σ self = Some (VRef p) →
     is_Some ((Popup.heap σ !! p) ≫= (.!! "window")) →
     ∃ σ1,
       Teardown.popup_del self σ = (Ok tt, σ1) ∧
       Popup.slot σ1 self = Some VNone ∧
       ((Popup.heap σ1 !! p) ≫= (.!! "window")) = None ∧
       Popup.screen σ1 = Popup.screen σ) ∧
  (Popup.slot σ self = Some VNone →
   Teardown.popup_del self σ = (Raise AttributeError, σ)).
Proof.
  destruct σ as [h scr]. unfold Popup.slot. simpl. split.
  - intros p Hne Hslot [win Hwin].
    unfold Teardown.popup_del, mbind, Popup.M_bind, Popup.getattr; simpl.
    rewrite Hslot. simpl. unfold Teardown.delattr at 1. simpl. rewrite Hwin.
    unfold Teardown.delattr, Popup.setattr. simpl.
    rewrite lookup_alter_ne by done. rewrite Hslot. simpl.
    eexists. split; [done|]. simpl.
    destruct (h !! self) as [attrs|] eqn:Hself; [|done].
    destruct (h !! p) as [pattrs|] eqn:Hp; [|done]. simpl in *.
    split.
    + rewrite !lookup_alter_eq, lookup_alter_ne, Hself by done. simpl.
      by rewrite lookup_insert_eq.
    + split; [|done].
      rewrite !lookup_alter_ne, lookup_alter_eq, Hp by done. simpl.
      by rewrite lookup_delete_eq.
  - intros Hslot.
    unfold Teardown.popup_del, mbind, Popup.M_bind, Popup.getattr; simpl.
    by rewrite Hslot.
Qed.

Lemma popup_del_empties_slot_witness :
  1%nat ≠ 0%nat ∧
  Popup.slot popup_open 0%nat = Some (VRef 1) ∧
  is_Some ((Popup.heap popup_open !! 1%nat) ≫= (.!! "window")) ∧
  ∃ σ1,
    Teardown.popup_del 0%nat popup_open = (Ok tt, σ1) ∧
    Popup.slot σ1 0%nat = Some VNone ∧
    ((Popup.heap σ1 !! 1%nat) ≫= (.!! "window")) = None ∧
    Popup.screen σ1 = Popup.screen popup_open.
Proof.
  split; [discriminate|]. split; [vm_compute; reflexivity|].
  split; [vm_compute; eexists; reflexivity|].
  apply (proj1 (popup_del_empties_slot popup_open 0%nat) 1%nat).
  - discriminate.
  - vm_compute; reflexivity.
  - vm_compute; eexists; reflexivity.
Defined.

(** ** Building the layout tree *)

Lemma lookup_views_cases (views : gmap string nat) (names : list string) :
  match Build.lookup_views views names with
  | Ok children =>
      Forall (λ name, is_Some (views !! name)) names ∧
      Some <$> children = (λ name, views !! name) <$> names
  | Raise e =>
      ¬ Forall (λ name, is_Some (views !! name)) names ∧ structural e
  end.
Proof.
  induction names as [|name names IH]; simpl.
  - split; [constructor|done].
  - destruct (views !! name) as [view|] eqn:E.
    + destruct (Build.lookup_views views names) as [children|e];
      cbn [mbind result_bind].
      * destruct IH as [Hall Hch]. split.
        -- constructor; [by rewrite E|done].
        -- rewrite !fmap_cons, Hch. by f_equal.
      * destruct IH as [Hnot He]. split; [|done].
        intros H. inversion H; subst. by apply Hnot.
    + split.
      * intros H. inversion H as [|? ? [? Hs] ?]; subst. congruence.
      * right. eauto.
Qed.

Lemma cell_cases (views : gmap string nat) (config : Build.cell_config) :
  match Build.cell views config with
  | Ok c =>
      (config ≠ [] ∧ Forall (λ name, is_Some (views !! name)) config) ∧
      Some <$> LayoutCell.children c = (λ name, views !! name) <$> config ∧
      LayoutCell.states c = ∅ ∧ LayoutCell.children c ≠ []
  | Raise e =>
      ¬ (config ≠ [] ∧ Forall (λ name, is_Some (views !! name)) config) ∧
      structural e
  end.
Proof.
  unfold Build.cell. destruct config as [|name names].
  - split; [by intros [H _]|]. left. eauto.
  - pose proof (lookup_views_cases views (name :: names)) as H.
    destruct (Build.lookup_views views (name :: names)) as [children|e];
      cbn [mbind result_bind].
    + destruct H as [Hall Hch]. split; [done|]. split; [done|].
      split; [done|]. simpl. by destruct children.
    + destruct H as [Hnot He]. split; [|done]. intros [_ Hall]. by apply Hnot.
Qed.

Lemma cells_cases (views : gmap string nat) (configs : list Build.cell_config) :
  match Build.cells views configs with
  | Ok children =>
      Forall (λ cell : Build.cell_config,
                cell ≠ [] ∧ Forall (λ name, is_Some (views !! name)) cell)
             configs ∧
      (λ c, Some <$> LayoutCell.children c) <$> children
        = (λ cell : Build.cell_config, (λ name, views !! name) <$> cell)
            <$> configs ∧
      Forall (λ c, LayoutCell.states c = ∅) children ∧
      Forall (λ c, LayoutCell.children c ≠ []) children ∧
      length children = length configs
  | Raise e =>
      ¬ Forall (λ cell : Build.cell_config,
                  cell ≠ [] ∧ Forall (λ name, is_Some (views !! name)) cell)
               configs ∧
      structural e
  end.
Proof.
  induction configs as [|config configs IH]; simpl.
  - split; [constructor|]. split; [done|]. split; [constructor|].
    split; [constructor|done].
  - pose proof (cell_cases views config) as Hc.
    destruct (Build.cell views config) as [c|e];
      cbn [mbind result_bind].
    + destruct Hc as (Hwf & Hch & Hst & Hne).
      destruct (Build.cells views configs) as [children|e];
      cbn [mbind result_bind].
      * destruct IH as (Hall & Hchs & Hsts & Hnes & Hlen).
        split; [by constructor|].
        split; [by rewrite !fmap_cons, Hch, Hchs|].
        split; [by constructor|]. split; [by constructor|].
        simpl. by rewrite Hlen.
      * destruct IH as [Hnot He]. split; [|done].
        intros H. inversion H; subst. by apply Hnot.
    + destruct Hc as [Hnot He]. split; [|done].
      intros H. inversion H; subst. by apply Hnot.
Qed.

Lemma column_cases (views : gmap string nat) (config : Build.column_config) :
  match Build.column views config with
  | Ok column =>
      (config ≠ [] ∧
       Forall (λ cell : Build.cell_config,
                 cell ≠ [] ∧ Forall (λ name, is_Some (views !! name)) cell)
              config) ∧
      (λ c, Some <$> LayoutCell.children c) <$> LayoutColumn.children column
        = (λ cell : Build.cell_config, (λ name, views !! name) <$> cell)
            <$> config ∧
      Forall (λ c, LayoutCell.states c = ∅) (LayoutColumn.children column) ∧
      (LayoutColumn.children column ≠ [] ∧
       Forall (λ c, LayoutCell.children c ≠ [])
              (LayoutColumn.children column)) ∧
      length (LayoutColumn.children column) = length config
  | Raise e =>
      ¬ (config ≠ [] ∧
         Forall (λ cell : Build.cell_config,
                   cell ≠ [] ∧ Forall (λ name, is_Some (views !! name)) cell)
                config) ∧
      structural e
  end.
Proof.
  unfold Build.column. destruct config as [|cell0 config].
  - split; [by intros [H _]|]. left. eauto.
  - pose proof (cells_cases views (cell0 :: config)) as H.
    destruct (Build.cells views (cell0 :: config)) as [children|e];
      cbn [mbind result_bind].
    + destruct H as (Hall & Hch & Hst & Hne & Hlen).
      split; [done|]. split; [done|]. split; [done|]. split; [|done].
      split; [|done]. simpl. by destruct children.
    + destruct H as [Hnot He]. split; [|done]. intros [_ Hall]. by apply Hnot.
Qed.

Lemma columns_cases (views : gmap string nat)
    (configs : list Build.column_config) :
  match Build.columns views configs with
  | Ok children =>
      Forall (λ column : Build.column_config,
                column ≠ [] ∧
                Forall (λ cell : Build.cell_config,
                          cell ≠ [] ∧
                          Forall (λ name, is_Some (views !! name)) cell)
                       column)
             configs ∧
      (λ column, (λ c, Some <$> LayoutCell.children c)
                   <$> LayoutColumn.children column) <$> children
        = (λ column : Build.column_config,
             (λ cell : Build.cell_config, (λ name, views !! name) <$> cell)
               <$> column) <$> configs ∧
      Forall (λ column,
                Forall (λ c, LayoutCell.states c = ∅)
                       (LayoutColumn.children column)) children ∧
      Forall (λ column,
                LayoutColumn.children column ≠ [] ∧
                Forall (λ cell, LayoutCell.children cell ≠ [])
                       (LayoutColumn.children column)) children ∧
      (λ column, length (LayoutColumn.children column)) <$> children
        = length <$> configs
  | Raise e =>
      ¬ Forall (λ column : Build.column_config,
                  column ≠ [] ∧
                  Forall (λ cell : Build.cell_config,
                            cell ≠ [] ∧
                            Forall (λ name, is_Some (views !! name)) cell)
                         column)
               configs ∧
      structural e
  end.
Proof.
  induction configs as [|config configs IH]; simpl.
  - split; [constructor|]. split; [done|]. split; [constructor|].
    split; [constructor|done].
  - pose proof (column_cases views config) as Hc.
    destruct (Build.column views config) as [c|e];
      cbn [mbind result_bind].
    + destruct Hc as (Hwf & Hch & Hst & Hne & Hlen).
      destruct (Build.columns views configs) as [children|e];
      cbn [mbind result_bind].
      * destruct IH as (Hall & Hchs & Hsts & Hnes & Hlens).
        split; [by constructor|].
        split; [by rewrite !fmap_cons, Hch, Hchs|].
        split; [by constructor|]. split; [by constructor|].
        by rewrite !fmap_cons, Hlen, Hlens.
      * destruct IH as [Hnot He]. split; [|done].
        intros H. inversion H; subst. by apply Hnot.
    + destruct Hc as [Hnot He]. split; [|done].
      intros H. inversion H; subst. by apply Hnot.
Qed.

(** *** The windows of the cells *)

Lemma mapM_exists {A B : Type} (Q : A → B → Prop) (f : A → result B)
    (l : list A) :
  (∀ x, x ∈ l → ∃ y, f x = Ok y ∧ Q x y) →
  ∃ ys, mapM (M := result) f l = Ok ys ∧ Forall2 Q l ys.
Proof.
  induction l as [|x l IH]; intros Hf; simpl.
  - exists []. split; [done|constructor].
  - destruct (Hf x) as (y & -> & Hy); [left|]. simpl.
    destruct IH as (ys & -> & Hys); [intros z Hz; apply Hf; by right|].
    simpl. exists (y :: ys). split; [done|by constructor].
Qed.

(** A loop whose iterations return or raise [e], one of them raising,
    raises [e]. *)
Lemma mapM_some_raise {A B : Type} (e : exn) (f : A → result B) (l : list A) :
  (∀ x, x ∈ l → (∃ y, f x = Ok y) ∨ f x = Raise e) →
  (∃ x, x ∈ l ∧ f x = Raise e) →
  mapM (M := result) f l = Raise e.
Proof.
  induction l as [|x l IH]; intros Hf (z & Hz & Hfz).
  - by apply elem_of_nil in Hz.
  - simpl. destruct (Hf x) as [[y Hy]|Hx]; [left| |by rewrite Hx].
    rewrite Hy. simpl. rewrite IH; [done| |].
    + intros w Hw. apply Hf. by right.
    + apply elem_of_cons in Hz as [->|Hz]; [congruence|eauto].
Qed.

Lemma Forall2_fmap_eq {A B C : Type} (f : A → C) (g : B → C)
    (l : list A) (k : list B) :
  Forall2 (λ x y, g y = f x) l k → g <$> k = f <$> l.
Proof.
  induction 1 as [|x y l k Hxy _ IH]; [done|].
  by rewrite !fmap_cons, Hxy, IH.
Qed.

Lemma fmap_snd_imap {A C : Type} (f : A → C) (g : nat → nat) (l : list A) :
  (λ ic : nat * A, f ic.2) <$> imap (λ i x, (g i, x)) l = f <$> l.
Proof.
  revert g. induction l as [|x l IH]; intros g; [done|].
  rewrite imap_cons, !fmap_cons. simpl. f_equal. apply (IH (g ∘ S)).
Qed.

(** The window of a cell that has room. *)
Lemma cell_window_built (layout : Layout.t) (column : LayoutColumn.t)
    (i j : nat) :
  Z.of_nat (length (Layout.children layout)) <= Layout.width layout
    <= Curses.DIMENSION_LIMIT →
  Z.of_nat (length (LayoutColumn.children column)) <= Layout.height layout
    <= Curses.DIMENSION_LIMIT →
  Layout.children layout !! i = Some column →
  (j < length (LayoutColumn.children column))%nat →
  ∃ built,
    Layout.cell_create_window layout i j = Ok built ∧
    on_screen (Layout.size layout) built.
Proof.
  intros Hw Hh Hi Hj.
  assert (i < length (Layout.children layout))%nat as Hn
    by (by eapply lookup_lt_Some).
  destruct (cell_geometry_value layout column i j) as [Ho Hs];
    [lia|lia|done|done|].
  destruct (tile_inside _ (Layout.width layout) i Hn ltac:(lia))
    as (Hx & Hw1 & Hxw).
  destruct (tile_inside _ (Layout.height layout) j Hj ltac:(lia))
    as (Hy & Hh1 & Hyh).
  set (x := tile_offset _ (Layout.width layout) i) in *.
  set (y := tile_offset _ (Layout.height layout) j) in *.
  set (w := tile_size _ (Layout.width layout) i) in *.
  set (h := tile_size _ (Layout.height layout) j) in *.
  clearbody x y w h.
  unfold Layout.cell_create_window. rewrite Ho, Hs.
  cbn -[Curses.newwin_ok].
  unfold Layout.width, Layout.height in *.
  destruct (Layout.size layout) as [W H] eqn:Hsize. cbn [fst snd] in *.
  assert (Curses.newwin_ok (W, H) h w y x = true) as ->.
  { apply newwin_ok_spec.
    destruct (Z.eqb_spec h 0), (Z.eqb_spec w 0); lia. }
  rewrite Window_init_nonneg by lia.
  eexists. split; [done|]. unfold on_screen; simpl. lia.
Qed.

(** The window of a cell is created or refused; nothing else is raised. *)
Lemma cell_window_cases (layout : Layout.t) (column : LayoutColumn.t)
    (i j : nat) :
  0 <= Layout.width layout → 0 <= Layout.height layout →
  Layout.children layout !! i = Some column →
  (j < length (LayoutColumn.children column))%nat →
  (∃ built, Layout.cell_create_window layout i j = Ok built) ∨
  Layout.cell_create_window layout i j = Raise CursesError.
Proof.
  intros Hw Hh Hi Hj.
  destruct (cell_geometry_value layout column i j) as [Ho Hs]; try done.
  unfold Layout.cell_create_window. rewrite Ho, Hs.
  cbn -[Curses.newwin_ok].
  destruct (Curses.newwin_ok _ _ _ _ _); eauto.
Qed.

(** A cell of no columns at the right edge of the screen, or of no lines
    at its bottom edge, is refused. *)
Lemma cell_window_refused_at_edge (layout : Layout.t)
    (column : LayoutColumn.t) (i j : nat) :
  0 <= Layout.width layout → 0 <= Layout.height layout →
  Layout.children layout !! i = Some column →
  (j < length (LayoutColumn.children column))%nat →
  (tile_size (length (Layout.children layout)) (Layout.width layout) i = 0 ∧
   tile_offset (length (Layout.children layout)) (Layout.width layout) i
   = Layout.width layout) ∨
  (tile_size (length (LayoutColumn.children column)) (Layout.height layout) j
   = 0 ∧
   tile_offset (length (LayoutColumn.children column)) (Layout.height layout) j
   = Layout.height layout) →
  Layout.cell_create_window layout i j = Raise CursesError.
Proof.
  intros Hw Hh Hi Hj Hedge.
  destruct (cell_geometry_value layout column i j) as [Ho Hs]; try done.
  set (x := tile_offset _ (Layout.width layout) i) in *.
  set (y := tile_offset _ (Layout.height layout) j) in *.
  set (w := tile_size _ (Layout.width layout) i) in *.
  set (h := tile_size _ (Layout.height layout) j) in *.
  clearbody x y w h.
  unfold Layout.cell_create_window. rewrite Ho, Hs.
  cbn -[Curses.newwin_ok].
  unfold Layout.width, Layout.height in *.
  destruct (Layout.size layout) as [W H] eqn:Hsize. cbn [fst snd] in *.
  destruct (Curses.newwin_ok (W, H) h w y x) eqn:Hok; [|done].
  exfalso. apply newwin_ok_spec in Hok.
  destruct Hedge as [[-> ->]|[-> ->]]; simpl in Hok;
    repeat match type of Hok with
    | context [?a =? 0] => destruct (Z.eqb_spec a 0)
    end; lia.
Qed.

Lemma initialize_column_cases (layout : Layout.t) (column : LayoutColumn.t)
    (i : nat) :
  0 <= Layout.width layout → 0 <= Layout.height layout →
  Layout.children layout !! i = Some column →
  LayoutColumn.children column ≠ [] →
  Forall (λ cell, LayoutCell.children cell ≠ [])
         (LayoutColumn.children column) →
  (∃ windows, Build.initialize_column layout i column = Ok windows) ∨
  Build.initialize_column layout i column = Raise CursesError.
Proof.
  intros Hw Hh Hi Hne Hcells. unfold Build.initialize_column.
  rewrite bool_decide_eq_false_2 by done.
  set (f := λ jc : nat * LayoutCell.t,
              Build.initialize_cell layout i jc.1 jc.2).
  assert (∀ jc, jc ∈ imap pair (LayoutColumn.children column) →
                (∃ w, f jc = Ok w) ∨ f jc = Raise CursesError) as Hf.
  { intros jc (j & cell & -> & Hj)%elem_of_lookup_imap. unfold f. simpl.
    unfold Build.initialize_cell.
    rewrite Forall_forall in Hcells.
    rewrite bool_decide_eq_false_2
      by (apply Hcells; by eapply list_elem_of_lookup_2).
    apply (cell_window_cases layout column); try done.
    by eapply lookup_lt_Some. }
  destruct (mapM (M := result) f (imap pair (LayoutColumn.children column)))
    as [windows|e] eqn:Hm; [eauto|].
  right.
  assert (∃ jc, jc ∈ imap pair (LayoutColumn.children column)
                ∧ f jc = Raise CursesError) as Hex.
  { clear -Hf Hm.
    induction (imap pair (LayoutColumn.children column)) as [|jc l IH];
      [done|].
    simpl in Hm. destruct (Hf jc) as [[w Hw]|Hr]; [left| |].
    - rewrite Hw in Hm. simpl in Hm.
      destruct (mapM f l) as [ws|e'] eqn:Hl; [done|].
      destruct IH as (jc' & Hin & Hr); [intros; apply Hf; by right|done|].
      exists jc'. split; [by right|done].
    - exists jc. split; [left|done]. }
  rewrite <- Hm. by apply mapM_some_raise.
Qed.

(** [initialize] on a tree that has room on the screen creates one window
    for each cell, every window on the screen. *)
Lemma initialize_fits (layout : Layout.t) :
  populated layout →
  fits (Layout.size layout) (layout_shape layout) →
  Layout.width layout <= Curses.DIMENSION_LIMIT →
  Layout.height layout <= Curses.DIMENSION_LIMIT →
  ∃ windows,
    Build.initialize layout = Ok windows ∧
    length <$> windows = layout_shape layout ∧
    Forall (Forall (on_screen (Layout.size layout))) windows.
Proof.
  intros [Hne Hpop] [Hcols Hrows] HW HH.
  unfold layout_shape in *. rewrite length_fmap in Hcols.
  rewrite Forall_fmap in Hrows.
  unfold Build.initialize. rewrite bool_decide_eq_false_2 by done.
  destruct (mapM_exists
              (λ (ic : nat * LayoutColumn.t) (ws : list Window.t),
                 length ws = length (LayoutColumn.children ic.2) ∧
                 Forall (on_screen (Layout.size layout)) ws)
              (λ ic : nat * LayoutColumn.t,
                 Build.initialize_column layout ic.1 ic.2)
              (imap pair (Layout.children layout)))
    as (windows & Hwin & Hall).
  - intros ic (i & column & -> & Hi)%elem_of_lookup_imap. simpl.
    rewrite Forall_forall in Hpop, Hrows.
    pose proof (list_elem_of_lookup_2 _ _ _ Hi) as Hin.
    destruct (Hpop _ Hin) as [Hcne Hcells].
    specialize (Hrows _ Hin). simpl in Hrows.
    unfold Build.initialize_column. rewrite bool_decide_eq_false_2 by done.
    destruct (mapM_exists
                (λ (jc : nat * LayoutCell.t) (w : Window.t),
                   on_screen (Layout.size layout) w)
                (λ jc : nat * LayoutCell.t,
                   Build.initialize_cell layout i jc.1 jc.2)
                (imap pair (LayoutColumn.children column)))
      as (ws & Hws & Hon).
    + intros jc (j & cell & -> & Hj)%elem_of_lookup_imap. simpl.
      unfold Build.initialize_cell.
      rewrite Forall_forall in Hcells.
      rewrite bool_decide_eq_false_2
        by (apply Hcells; by eapply list_elem_of_lookup_2).
      apply (cell_window_built layout column); try done.
      all: try (unfold Layout.width, Layout.height in *; lia).
      all: by eapply lookup_lt_Some.
    + exists ws. split; [done|]. split.
      * apply Forall2_length in Hon. by rewrite length_imap in Hon.
      * clear -Hon. induction Hon; by constructor.
  - exists windows. split; [done|]. split.
    + rewrite <- (fmap_snd_imap (λ column, length (LayoutColumn.children column))
                    id (Layout.children layout)).
      apply Forall2_fmap_eq. eapply Forall2_impl; [exact Hall|].
      by intros ic ws [? _].
    + clear -Hall. induction Hall as [|? ? ? ? [_ ?] _ IH]; by constructor.
Qed.

(** [initialize] on a tree that has no room on the screen is refused a
    window. *)
Lemma initialize_squeezed (layout : Layout.t) :
  populated layout →
  0 <= Layout.width layout → 0 <= Layout.height layout →
  ¬ fits (Layout.size layout) (layout_shape layout) →
  Build.initialize layout = Raise CursesError.
Proof.
  intros [Hne Hpop] Hw Hh Hnot.
  unfold Build.initialize. rewrite bool_decide_eq_false_2 by done.
  rewrite Forall_forall in Hpop.
  apply mapM_some_raise.
  { intros ic (i & column & -> & Hi)%elem_of_lookup_imap. simpl.
    destruct (Hpop column) as [Hcne Hcells];
      [by eapply list_elem_of_lookup_2|].
    by apply initialize_column_cases. }
  assert (∃ (i j : nat) column,
            Layout.children layout !! i = Some column ∧
            (j < length (LayoutColumn.children column))%nat ∧
            Layout.cell_create_window layout i j = Raise CursesError)
    as (i & j & column & Hi & Hj & Hrefused).
  { destruct (decide (Z.of_nat (length (Layout.children layout))
                      <= Layout.width layout)) as [Hcols|Hcols].
    - assert (Exists (λ column,
                        Layout.height layout
                        < Z.of_nat (length (LayoutColumn.children column)))
                     (Layout.children layout)) as Hex.
      { apply Exists_exists.
        destruct (decide (Forall (λ cells : nat,
                                    Z.of_nat cells <= Layout.height layout)
                                 (layout_shape layout))) as [Hall|Hnall].
        - exfalso. apply Hnot. split; [|done].
          unfold layout_shape. by rewrite length_fmap.
        - apply not_Forall_Exists in Hnall; [|apply _].
          apply Exists_exists in Hnall as (m & Hm & Hlt).
          unfold layout_shape in Hm.
          apply list_elem_of_fmap in Hm as (column & -> & Hin).
          exists column. split; [done|]. simpl in Hlt. lia. }
      apply Exists_exists in Hex as (column & Hin & Hlt).
      apply list_elem_of_lookup in Hin as [i Hi].
      destruct (Hpop column) as [Hcne _]; [by eapply list_elem_of_lookup_2|].
      destruct (tile_squeezed (length (LayoutColumn.children column))
                  (Layout.height layout)) as (j & Hj & Hs & Ho);
        [destruct (LayoutColumn.children column); [done|simpl; lia]|lia|].
      exists i, j, column. split; [done|]. split; [done|].
      apply (cell_window_refused_at_edge layout column); try done.
      by right.
    - destruct (tile_squeezed (length (Layout.children layout))
                  (Layout.width layout)) as (i & Hi & Hs & Ho);
        [destruct (Layout.children layout); [done|simpl; lia]|lia|].
      destruct (lookup_lt_is_Some_2 (Layout.children layout) i Hi)
        as [column Hcol].
      destruct (Hpop column) as [Hcne _]; [by eapply list_elem_of_lookup_2|].
      exists i, 0%nat, column. split; [done|].
      split; [destruct (LayoutColumn.children column); [done|simpl; lia]|].
      apply (cell_window_refused_at_edge layout column); try done.
      + destruct (LayoutColumn.children column); [done|simpl; lia].
      + by left. }
  destruct (Hpop column) as [Hcne Hcells]; [by eapply list_elem_of_lookup_2|].
  exists (i, column). split; [by apply elem_of_lookup_imap_2|]. simpl.
  unfold Build.initialize_column. rewrite bool_decide_eq_false_2 by done.
  destruct (lookup_lt_is_Some_2 (LayoutColumn.children column) j Hj)
    as [cell Hcell].
  rewrite Forall_forall in Hcells.
  apply mapM_some_raise.
  - intros jc (j' & cell' & -> & Hj')%elem_of_lookup_imap. simpl.
    unfold Build.initialize_cell.
    rewrite bool_decide_eq_false_2
      by (apply Hcells; by eapply list_elem_of_lookup_2).
    apply (cell_window_cases layout column); try done.
    by eapply lookup_lt_Some.
  - exists (j, cell). split; [by apply elem_of_lookup_imap_2|]. simpl.
    unfold Build.initialize_cell.
    rewrite bool_decide_eq_false_2
      by (apply Hcells; by eapply list_elem_of_lookup_2).
    done.
Qed.

(** [Layout.__init__] on a screen of at most 32767 columns and lines
    returns exactly when the configuration has a column, every column a
    cell, every cell a view, every view name is known, and the screen has
    a column for every column of the layout and a line for every cell of
    each column.  The tree then mirrors the configuration, view for name,
    cell for cell, column for column; every cell starts without any state;
    and every cell has its window, of at least one line and one column and
    on the screen.  A faulty configuration raises its [Exception] or
    [KeyError] before any window is made; a configuration without fault
    that has no room on the screen raises [curses.error]. *)
Theorem layout_built_iff_well_formed (size : Z * Z) (views : gmap string nat)
    (config : Build.layout_config) :
  0 <= size.1 <= Curses.DIMENSION_LIMIT →
  0 <= size.2 <= Curses.DIMENSION_LIMIT →
  match Build.layout size views config with
  | Ok (layout, windows) =>
      well_formed_config views config ∧
      fits size (length <$> config) ∧
      Layout.size layout = size ∧
      (λ column, (λ cell, Some <$> cell) <$> column) <$> layout_views layout
        = (λ column : Build.column_config,
             (λ cell : Build.cell_config, (λ name, views !! name) <$> cell)
               <$> column) <$> config ∧
      Forall (λ column,
                Forall (λ c, LayoutCell.states c = ∅)
                       (LayoutColumn.children column))
             (Layout.children layout) ∧
      length <$> windows = length <$> config ∧
      Forall (Forall (on_screen size)) windows
  | Raise e =>
      (¬ well_formed_config views config ∧ structural e) ∨
      (well_formed_config views config ∧ ¬ fits size (length <$> config) ∧
       e = CursesError)
  end.
Proof.
  intros HW HH.
  unfold Build.layout, well_formed_config. destruct config as [|column0 config].
  { left. split; [by intros [H _]|]. left. eauto. }
  pose proof (columns_cases views (column0 :: config)) as H.
  destruct (Build.columns views (column0 :: config)) as [children|e];
    cbn [mbind result_bind].
  2:{ left. destruct H as [Hnot He]. split; [|done].
      intros [_ Hall]. by apply Hnot. }
  destruct H as (Hall & Hch & Hst & Hpop & Hshape).
  set (layout := Layout.mk size children).
  assert (populated layout) as Hp.
  { split; [|done]. simpl. intros ->. done. }
  assert (layout_shape layout = length <$> column0 :: config) as Hsh by done.
  destruct (decide (Z.of_nat (length (length <$> column0 :: config)) <= size.1))
    as [Hcols|Hcols];
    [destruct (decide (Forall (λ cells : nat, Z.of_nat cells <= size.2)
                              (length <$> column0 :: config)))
       as [Hrows|Hrows]|].
  - destruct (initialize_fits layout) as (windows & -> & Hlen & Hon);
      [done|by rewrite Hsh|..|];
      [unfold Layout.width, layout; simpl; lia
      |unfold Layout.height, layout; simpl; lia|].
    cbn [mbind result_bind].
    split; [done|]. split; [done|]. split; [done|].
    split; [|split; [done|split; [by rewrite Hlen|done]]].
    unfold layout_views. simpl Layout.children.
    rewrite <- Hch. rewrite <- list_fmap_compose.
    apply list_fmap_ext. intros _ column _. simpl.
    by rewrite <- list_fmap_compose.
  - rewrite (initialize_squeezed layout);
      [|done|unfold Layout.width, layout; simpl; lia
       |unfold Layout.height, layout; simpl; lia|].
    + right. split; [done|]. split; [|done]. by intros [_ ?].
    + rewrite Hsh. by intros [_ ?].
  - rewrite (initialize_squeezed layout);
      [|done|unfold Layout.width, layout; simpl; lia
       |unfold Layout.height, layout; simpl; lia|].
    + right. split; [done|]. split; [|done]. by intros [? _].
    + rewrite Hsh. by intros [? _].
Qed.

Lemma layout_built_iff_well_formed_witness :
  0 <= (80, 24).1 <= Curses.DIMENSION_LIMIT ∧
  0 <= (80, 24).2 <= Curses.DIMENSION_LIMIT ∧
  match Build.layout (80, 24) {["todo" := 7%nat]} [[["todo"]; ["todo"]]] with
  | Ok (layout, windows) =>
      well_formed_config {["todo" := 7%nat]} [[["todo"]; ["todo"]]] ∧
      fits (80, 24) (length <$> [[["todo"]; ["todo"]]]) ∧
      Layout.size layout = (80, 24) ∧
      (λ column, (λ cell, Some <$> cell) <$> column) <$> layout_views layout
        = (λ column : Build.column_config,
             (λ cell : Build.cell_config,
                (λ name, ({["todo" := 7%nat]} : gmap string nat) !! name)
                  <$> cell)
               <$> column) <$> [[["todo"]; ["todo"]]] ∧
      Forall (λ column,
                Forall (λ c, LayoutCell.states c = ∅)
                       (LayoutColumn.children column))
             (Layout.children layout) ∧
      length <$> windows = length <$> [[["todo"]; ["todo"]]] ∧
      Forall (Forall (on_screen (80, 24))) windows
  | Raise e =>
      (¬ well_formed_config {["todo" := 7%nat]} [[["todo"]; ["todo"]]] ∧
       structural e) ∨
      (well_formed_config {["todo" := 7%nat]} [[["todo"]; ["todo"]]] ∧
       ¬ fits (80, 24) (length <$> [[["todo"]; ["todo"]]]) ∧
       e = CursesError)
  end.
Proof.
  split; [vm_compute; split; discriminate|].
  split; [vm_compute; split; discriminate|].
  apply (layout_built_iff_well_formed (80, 24) {["todo" := 7%nat]}
           [[["todo"]; ["todo"]]]);
    vm_compute; split; discriminate.
Defined.

(** Which exception: the first fault met in reading order, and only then
    the screen. *)
Example layout_faults :
  Build.layout (80, 24) {["todo" := 7%nat]} []
    = Raise (Exception "Layout must have at least one column") ∧
  Build.layout (80, 24) {["todo" := 7%nat]} [[["todo"]]; []]
    = Raise (Exception "Column must have at least one cell") ∧
  Build.layout (80, 24) {["todo" := 7%nat]} [[["todo"]; []]]
    = Raise (Exception "Cell must have at least one view") ∧
  Build.layout (80, 24) {["todo" := 7%nat]} [[["todo"; "done"]]; []]
    = Raise (KeyError "done") ∧
  Build.layout (2, 24) {["todo" := 7%nat]} [[["todo"]]; [["todo"]]; [["todo"]]]
    = Raise CursesError ∧
  Build.layout (80, 24) {["todo" := 7%nat]} [[["todo"]; ["todo"]]]
    = Ok (Layout.mk (80, 24)
            [LayoutColumn.mk [LayoutCell.init [7%nat]; LayoutCell.init [7%nat]]],
          [[Window.init 0 0 80 12; Window.init 0 12 80 12]]).
Proof. repeat split; vm_compute; reflexivity. Qed.
